(** * Quickroll V2: the tracking, classification and decision core

    A shallow embedding of the Python sources under [core/]:
    [recognizer.py], [attendance_manager.py], [face_validator.py],
    [capture_manager.py] and [frame_tracker.py], of the row loops of
    [data/database.py] and of the marking loop of
    [ui/attendance_view.py], followed by the properties of the engine
    proved about it.

    Conventions.  Python [float]s that carry scores, times and image
    coordinates are exact rationals ([Q]); Python [int]s are [Z], and so
    are the [numpy.int64] values of a detected box, with the wrap-around
    of their arithmetic written out.  The
    OpenCV models (detector, SFace embedder, trackers), the image store
    and the wall clock are not part of the core: they enter as section
    variables or as explicit arguments of the calls that consult them.
    A [dict] whose iteration order is observed is an insertion-ordered
    association list; one that is only looked up is a [gmap]. *)

From Stdlib Require Import ZArith QArith Qround Qabs Lqa Lia List Bool String.
From stdpp Require Import gmap strings list.

Local Open Scope Z_scope.

(* ================================================================= *)
(** * Part I: the model *)
(* ================================================================= *)

(** ** Python primitives *)
Module Py.

(** [a < b] and [a <= b] on floats. *)
Definition Qltb (a b : Q) : bool :=
  match (a ?= b)%Q with Lt => true | _ => false end.

Definition Qleb (a b : Q) : bool := Qle_bool a b.

(** [int(x)]: truncation toward zero. *)
Definition int (x : Q) : Z :=
  if Qle_bool 0 x then Qfloor x else Qceiling x.

(** [l[:n]]: a negative bound counts from the end of the list. *)
Definition slice_to {A : Type} (l : list A) (n : Z) : list A :=
  if 0 <=? n then firstn (Z.to_nat n) l
  else firstn (Z.to_nat (Z.of_nat (length l) + n)) l.

(** [f"{x:.2f}"].  The string shows [x] to the nearest hundredth, and to
    the even one when two are equally near; it is kept as the number of
    hundredths it shows, ['0.75'] as 75. *)
Definition format_2f (x : Q) : Z :=
  let y := (100 * x)%Q in
  let lo := Qfloor y in
  match (y - inject_Z lo ?= 1 # 2)%Q with
  | Lt => lo
  | Gt => lo + 1
  | Eq => if Z.even lo then lo else lo + 1
  end.

(** [a / b] on integers: true division, [None] for ZeroDivisionError. *)
Definition truediv (a b : Z) : option Q :=
  if b =? 0 then None else Some (inject_Z a / inject_Z b)%Q.

(** Values that the attendance code receives as a student id. *)
Inductive value : Type :=
| None_
| Str (s : string)
| Int (n : Z).

(** Truth value of [if v:]. *)
Definition truthy (v : value) : bool :=
  match v with
  | None_ => false
  | Str s => match s with EmptyString => false | _ => true end
  | Int n => negb (n =? 0)
  end.

Section Keyed.
Context {A : Type} (key : A -> Q).

(** [l.sort(key=key, reverse=True)]: the sort is stable, so among equal
    keys the element that came first stays first. *)
Fixpoint insert_desc (x : A) (l : list A) : list A :=
  match l with
  | [] => [x]
  | y :: l' => if Qltb (key x) (key y) then y :: insert_desc x l'
               else x :: y :: l'
  end.

Definition sort_desc (l : list A) : list A := foldr insert_desc [] l.

(** [max(l, key=key)]: the first element whose key is largest. *)
Fixpoint max_from (best : A) (l : list A) : A :=
  match l with
  | [] => best
  | y :: l' => max_from (if Qltb (key best) (key y) then y else best) l'
  end.

Definition max_by (l : list A) : option A :=
  match l with
  | [] => None
  | x :: l' => Some (max_from x l')
  end.

End Keyed.

End Py.

#[global] Instance value_eq_dec : EqDecision Py.value.
Proof. solve_decision. Defined.

#[global] Instance value_countable : Countable Py.value.
Proof.
  refine (inj_countable'
    (fun v => match v with
              | Py.None_ => inl ()
              | Py.Str s => inr (inl s)
              | Py.Int n => inr (inr n)
              end)
    (fun c => match c with
              | inl _ => Py.None_
              | inr (inl s) => Py.Str s
              | inr (inr n) => Py.Int n
              end) _).
  intros []; reflexivity.
Defined.

(** ** Insertion-ordered dictionaries ([dict], [OrderedDict]) *)
Module OrderedDict.
Section Ops.
Context {K V : Type} `{EqDecision K}.

Definition keys (d : list (K * V)) : list K := map fst d.

Fixpoint get (d : list (K * V)) (k : K) : option V :=
  match d with
  | [] => None
  | (k', v) :: d' => if decide (k = k') then Some v else get d' k
  end.

(** [d[k] = v]: an existing key keeps its position. *)
Fixpoint set (d : list (K * V)) (k : K) (v : V) : list (K * V) :=
  match d with
  | [] => [(k, v)]
  | (k', v') :: d' =>
      if decide (k = k') then (k', v) :: d' else (k', v') :: set d' k v
  end.

(** [del d[k]] for a key that is present. *)
Fixpoint del (d : list (K * V)) (k : K) : list (K * V) :=
  match d with
  | [] => []
  | (k', v') :: d' =>
      if decide (k = k') then d' else (k', v') :: del d' k
  end.

End Ops.
End OrderedDict.

(** ** core/recognizer.py *)
Module Recognizer.

Inductive Status : Type := RECOGNIZED | MAYBE | UNKNOWN.

(** The per-student metadata dictionary, [{"name": ..., "id": ...}]. *)
Abbreviation Info := (gmap string string).

Definition HIGH_CONFIDENCE : Q := 0.75.
Definition LOW_CONFIDENCE : Q := 0.50.
Definition MIN_CONFIDENCE : Q := 0.40.

Section WithSFace.
Context {Image FaceData Emb : Type}.

(** [alignCrop] + [feature] when detection data is given, [resize] +
    [feature] otherwise; [None] when OpenCV raises. *)
Variable sface_feature : Image -> option FaceData -> option Emb.

(** [self.recognizer.match(a, b, 1)]. *)
Variable sface_match : Emb -> Emb -> Q.

Record t : Type := {
  recognizer : bool;                       (* the SFace model was loaded *)
  embeddings : list (string * list Emb);   (* {student_id: [emb, ...]} *)
  student_map : gmap string Info
}.

Definition _generate_embedding (self : t) (image : Image)
    (face_data : option FaceData) : option Emb :=
  if recognizer self then sface_feature image face_data else None.

(** The inner loop of [_compute_all_scores]. *)
Definition best_score_for_student (target_emb : Emb) (emb_list : list Emb)
    : Q :=
  fold_left
    (fun best stored_emb =>
       let score := sface_match target_emb stored_emb in
       if Py.Qltb best score then score else best)
    emb_list 0%Q.

Definition score_of (entry : string * Q * Info) : Q := snd (fst entry).
Definition id_of (entry : string * Q * Info) : string := fst (fst entry).

Definition _compute_all_scores (self : t) (target_emb : option Emb)
    : list (string * Q * Info) :=
  match target_emb with
  | None => []
  | Some target =>
      Py.sort_desc score_of
        (map (fun '(s_id, emb_list) =>
                (s_id, best_score_for_student target emb_list,
                 default ∅ (student_map self !! s_id)))
             (embeddings self))
  end.

Definition match_face_with_confidence (self : t) (image : Image)
    (face_data : option FaceData) : option string * Status * Q * Info :=
  if negb (recognizer self) then (None, UNKNOWN, 0%Q, ∅)
  else
    match _generate_embedding self image face_data with
    | None => (None, UNKNOWN, 0%Q, ∅)
    | Some target_emb =>
        match _compute_all_scores self (Some target_emb) with
        | [] => (None, UNKNOWN, 0%Q, ∅)
        | (best_id, best_score, best_info) :: _ =>
            if Py.Qleb HIGH_CONFIDENCE best_score
            then (Some best_id, RECOGNIZED, best_score, best_info)
            else if Py.Qleb LOW_CONFIDENCE best_score
            then (Some best_id, MAYBE, best_score, best_info)
            else (None, UNKNOWN, best_score, ∅)
        end
    end.

Definition get_top_matches (self : t) (image : Image)
    (face_data : option FaceData) (top_n : Z) : list (string * Q * Info) :=
  if negb (recognizer self) then []
  else
    match _generate_embedding self image face_data with
    | None => []
    | Some target_emb =>
        List.filter (fun entry => Py.Qleb MIN_CONFIDENCE (score_of entry))
          (Py.slice_to (_compute_all_scores self (Some target_emb)) top_n)
    end.

End WithSFace.
End Recognizer.

(** ** core/attendance_manager.py *)
Module AttendanceManager.

Definition HIGH_CONFIDENCE : Q := 0.75.
Definition LOW_CONFIDENCE : Q := 0.50.

Inductive Action : Type := AUTO_MARK | MAYBE | UNKNOWN | COOLDOWN.

Inductive Status : Type := RECOGNIZED | STATUS_MAYBE | NOT_RECOGNIZED.

(** The display strings; the formatted numbers are kept as arguments. *)
Inductive Message : Type :=
| Unknown_person
| Already_marked_wait (time_left : Z)        (* decision engine *)
| High_confidence_auto_marking
| Medium_confidence_verification_optional (confidence : Q)
| Already_Marked_Wait (time_left : Z)        (* mark_attendance *)
| Database_Error
| Marked_Present.

Record Decision : Type := {
  action : Action;
  status : Status;
  requires_verification : bool;
  message : Message;
  can_mark : bool
}.

(** The value under ["confidence"] in an entry of [today_log]: the
    number of the [confidence] column in a record of the history, the
    string [f"{confidence:.2f}"] in a record that [mark_attendance]
    files. *)
Inductive Confidence : Type :=
| Number (c : Q)
| Text (hundredths : Z).

(** One entry of [today_log]. *)
Record LogRecord : Type := {
  rec_id : Py.value;
  rec_name : string;
  rec_time : string;
  rec_status : string;
  rec_confidence : Confidence;
  rec_marked_by : string
}.

(** One row of the [attendance_logs] table. *)
Record DbRow : Type := {
  row_student_id : Py.value;
  row_date : string;
  row_time : string;
  row_confidence : Q;
  row_marked_by : string
}.

(** The readings taken from the clock during one call: [time.time()] and
    the two [strftime] renderings of [datetime.now()]. *)
Record Clock : Type := {
  time_time : Q;
  clock_hms : string;
  clock_date : string
}.

Record t : Type := {
  cooldown_seconds : Q;
  last_marked : gmap Py.value Q;
  today_log : list LogRecord;
  db : option (list DbRow)      (* [None]: the Database module is missing *)
}.

(** [__init__].  [history] is today's log as the database returns it,
    each record with the timestamp parsed from its time string ([None]
    when [strptime] raises); without a database there is no history. *)
Definition init (cooldown_seconds : Q) (database : option (list DbRow))
    (history : list (LogRecord * option Q)) : t :=
  match database with
  | Some rows =>
      {| cooldown_seconds := cooldown_seconds;
         last_marked :=
           fold_left
             (fun lm '(rec, ts) =>
                match ts with
                | Some stamp => <[rec_id rec := stamp]> lm
                | None => lm
                end)
             history ∅;
         today_log := map fst history;
         db := Some rows |}
  | None =>
      {| cooldown_seconds := cooldown_seconds;
         last_marked := ∅;
         today_log := [];
         db := None |}
  end.

(** The three confidence bands of [should_mark_attendance]. *)
Definition decide_by_confidence (result : Decision) (confidence : Q)
    : Decision :=
  if Py.Qleb HIGH_CONFIDENCE confidence then
    {| action := AUTO_MARK; status := RECOGNIZED;
       requires_verification := false;
       message := High_confidence_auto_marking;
       can_mark := can_mark result |}
  else if Py.Qleb LOW_CONFIDENCE confidence then
    {| action := MAYBE; status := STATUS_MAYBE;
       requires_verification := true;
       message := Medium_confidence_verification_optional confidence;
       can_mark := can_mark result |}
  else
    {| action := UNKNOWN; status := NOT_RECOGNIZED;
       requires_verification := true;
       message := Unknown_person;
       can_mark := can_mark result |}.

Definition should_mark_attendance (self : t) (now : Q) (confidence : Q)
    (student_id : Py.value) : Decision :=
  let result := {| action := UNKNOWN; status := NOT_RECOGNIZED;
                   requires_verification := true;
                   message := Unknown_person; can_mark := true |} in
  if Py.truthy student_id then
    let last_time := default 0%Q (last_marked self !! student_id) in
    if Py.Qltb (now - last_time) (cooldown_seconds self) then
      let time_left := Py.int (cooldown_seconds self - (now - last_time)) in
      {| action := COOLDOWN; status := status result;
         requires_verification := requires_verification result;
         message := Already_marked_wait time_left; can_mark := false |}
    else decide_by_confidence result confidence
  else decide_by_confidence result confidence.

(** [Database.mark_attendance]: the row is inserted and committed, or the
    statement raises ([insert_ok = false]) and the table is left alone. *)
Definition db_mark_attendance (rows : list DbRow) (row : DbRow)
    (insert_ok : bool) : list DbRow * bool :=
  if insert_ok then (rows ++ [row], true) else (rows, false).

(** The cache update at the end of [mark_attendance]. *)
Definition update_cache (self : t) (db' : option (list DbRow)) (now : Q)
    (record : LogRecord) : t :=
  {| cooldown_seconds := cooldown_seconds self;
     last_marked := <[rec_id record := now]> (last_marked self);
     today_log := today_log self ++ [record];
     db := db' |}.

Definition mark_attendance (self : t) (clock : Clock) (insert_ok : bool)
    (student_id : Py.value) (name : string) (confidence : Q)
    (marked_by : string) : t * (bool * Message) :=
  let now := time_time clock in
  let last_time := default 0%Q (last_marked self !! student_id) in
  if Py.Qltb (now - last_time) (cooldown_seconds self) then
    let time_left := Py.int (cooldown_seconds self - (now - last_time)) in
    (self, (false, Already_Marked_Wait time_left))
  else
    let timestamp_str := clock_hms clock in
    let date_str := clock_date clock in
    let record := {| rec_id := student_id; rec_name := name;
                     rec_time := timestamp_str; rec_status := "Present";
                     rec_confidence := Text (Py.format_2f confidence);
                     rec_marked_by := marked_by |} in
    match db self with
    | Some rows =>
        let '(rows', success) :=
          db_mark_attendance rows
            {| row_student_id := student_id; row_date := date_str;
               row_time := timestamp_str; row_confidence := confidence;
               row_marked_by := marked_by |} insert_ok in
        if negb success then (self, (false, Database_Error))
        else (update_cache self (Some rows') now record,
              (true, Marked_Present))
    | None => (update_cache self None now record, (true, Marked_Present))
    end.

(** One call of [mark_attendance] with everything it reads. *)
Record Call : Type := {
  call_clock : Clock;
  call_insert_ok : bool;
  call_student_id : Py.value;
  call_name : string;
  call_confidence : Q;
  call_marked_by : string
}.

Definition mark (self : t) (c : Call) : t * (bool * Message) :=
  mark_attendance self (call_clock c) (call_insert_ok c)
    (call_student_id c) (call_name c) (call_confidence c)
    (call_marked_by c).

(** The manager after a sequence of calls. *)
Definition after_calls (self : t) (calls : list Call) : t :=
  fold_left (fun s c => fst (mark s c)) calls self.

(** Once a student has been marked at time [t1], the cooldown table keeps
    an entry for the student, and with a nonnegative cooldown that entry
    never falls below [t1]. *)
Definition marked_since (cd : Q) (id : Py.value) (t1 : Q) (s : t) : Prop :=
  exists last, last_marked s !! id = Some last
               /\ ((0 <= cd)%Q -> (t1 <= last)%Q).

End AttendanceManager.

(** ** core/detector.py: one row of the detector's output *)
Module Detector.

Definition Point : Type := (Q * Q)%type.

(** [face[4:14].reshape((5, 2))]. *)
Record Landmarks : Type := {
  right_eye : Point;      (* landmarks[0] *)
  left_eye : Point;       (* landmarks[1] *)
  nose : Point;           (* landmarks[2] *)
  right_mouth : Point;    (* landmarks[3] *)
  left_mouth : Point      (* landmarks[4] *)
}.

(** [[x, y, w, h, x_re, y_re, ..., score]]. *)
Record Face : Type := {
  face_x : Q;
  face_y : Q;
  face_w : Q;
  face_h : Q;
  face_landmarks : Landmarks;
  face_score : Q
}.

End Detector.

(** ** core/face_validator.py *)
Module FaceValidator.
Import Detector.
Local Open Scope Q_scope.

Definition calculate_pose (landmarks : Landmarks) : Q :=
  let re := right_eye landmarks in
  let le := left_eye landmarks in
  let n := nose landmarks in
  let dist_left_side := Qabs (fst n - fst re) in   (* nose to right eye *)
  let dist_right_side := Qabs (fst le - fst n) in  (* nose to left eye *)
  let total_span := dist_left_side + dist_right_side in
  if Qeq_bool total_span 0 then 0
  else (dist_right_side - dist_left_side) / total_span.

Inductive Issue : Type :=
| Too_Small (w h : Z)
| Invalid_ROI
| Blurry
| Too_Dark
| Too_Bright.

Section WithImages.
Context {Frame : Type}.

(** What OpenCV measures on the region [frame[y:y+h, x:x+w]]: its size,
    the variance of its Laplacian and its mean gray level. *)
Variable roi_size : Frame -> Z * Z * Z * Z -> Z.
Variable laplacian_var : Frame -> Z * Z * Z * Z -> Q.
Variable mean_brightness : Frame -> Z * Z * Z * Z -> Q.

Definition check_quality (frame : Frame) (face_box : Q * Q * Q * Q)
    : bool * list Issue :=
  let '(fx, fy, fw, fh) := face_box in
  let x := Py.int fx in
  let y := Py.int fy in
  let w := Py.int fw in
  let h := Py.int fh in
  let issues := if ((w <? 60) || (h <? 60))%Z then [Too_Small w h] else [] in
  let x := if (x <? 0)%Z then 0%Z else x in
  let y := if (y <? 0)%Z then 0%Z else y in
  let roi := (x, y, w, h) in
  if (roi_size frame roi =? 0)%Z then (false, [Invalid_ROI])
  else
    let issues :=
      if Py.Qltb (laplacian_var frame roi) 100 then issues ++ [Blurry]
      else issues in
    let issues :=
      if Py.Qltb (mean_brightness frame roi) 40 then issues ++ [Too_Dark]
      else if Py.Qltb 220 (mean_brightness frame roi)
      then issues ++ [Too_Bright]
      else issues in
    (match issues with [] => true | _ => false end, issues).

End WithImages.
End FaceValidator.

(** Vocabulary for head poses. *)
Module Poses.
Import Detector.
Local Open Scope Q_scope.

Definition horizontal_distance (p q : Point) : Q := Qabs (fst p - fst q).

(** The yaw ratio in the words of the specification: [rightDist] from the
    nose to the right-eye landmark, [leftDist] from the nose to the
    left-eye landmark. *)
Definition claimed_yaw (landmarks : Landmarks) : Q :=
  let rightDist := horizontal_distance (nose landmarks) (right_eye landmarks) in
  let leftDist := horizontal_distance (nose landmarks) (left_eye landmarks) in
  (rightDist - leftDist) / (rightDist + leftDist).

(** The yaw a target pose asks for. *)
Definition pose_ok (target : string) (yaw : Q) : Prop :=
  if String.eqb target "front" then Qabs yaw < 0.2
  else if String.eqb target "left" then 0.4 < yaw
  else if String.eqb target "right" then yaw < -0.4
  else False.

End Poses.

(** ** core/capture_manager.py *)
Module CaptureManager.
Import Detector.

Inductive CaptureState : Type := WAITING | CAPTURING | COMPLETED.

Inductive Message : Type :=
| Ready
| Look_Straight_Ahead
| Turn_Head_LEFT
| Turn_Head_RIGHT
| All_Captures_Complete
| No_Face_Detected
| Quality (issues : list FaceValidator.Issue)
| Look_Straight
| Turn_MORE_Left
| Turn_MORE_Right.

Section WithCamera.
Context {Frame Emb : Type}.

Variable detect : Frame -> list Face.
Variable shape : Frame -> Z * Z.                     (* (h_img, w_img) *)
Variable roi_size : Frame -> Z * Z * Z * Z -> Z.
Variable laplacian_var : Frame -> Z * Z * Z * Z -> Q.
Variable mean_brightness : Frame -> Z * Z * Z * Z -> Q.

(** [storage.save_image(student_id, frame[y1:y2, x1:x2], angle)]: the
    crop is named by its bounds [(x1, y1, x2, y2)]. *)
Variable save_image :
  option string -> Frame -> Z * Z * Z * Z -> string -> bool * string.

(** [recognizer._generate_embedding(frame, face)]. *)
Variable generate_embedding : Frame -> Face -> option Emb.

Record t : Type := {
  db_and_recognizer : bool;          (* [self.db and self.recognizer] *)
  db_embeddings : list (option string * Emb * string);
  current_student_id : option string;
  required_angles : list string;
  captured_angles : list (string * string);   (* {angle: path} *)
  current_idx : nat;
  last_capture_time : Q;
  state : CaptureState;
  status_message : Message
}.

Definition reset (self : t) : t :=
  {| db_and_recognizer := db_and_recognizer self;
     db_embeddings := db_embeddings self;
     current_student_id := None;
     required_angles := ["front"; "left"; "right"]%string;
     captured_angles := [];
     current_idx := 0%nat;
     last_capture_time := 0%Q;
     state := WAITING;
     status_message := Ready |}.

Definition get_current_target (self : t) : option string :=
  nth_error (required_angles self) (current_idx self).

Definition set_message (self : t) (m : Message) : t :=
  {| db_and_recognizer := db_and_recognizer self;
     db_embeddings := db_embeddings self;
     current_student_id := current_student_id self;
     required_angles := required_angles self;
     captured_angles := captured_angles self;
     current_idx := current_idx self;
     last_capture_time := last_capture_time self;
     state := state self;
     status_message := m |}.

Definition set_state (self : t) (st : CaptureState) : t :=
  {| db_and_recognizer := db_and_recognizer self;
     db_embeddings := db_embeddings self;
     current_student_id := current_student_id self;
     required_angles := required_angles self;
     captured_angles := captured_angles self;
     current_idx := current_idx self;
     last_capture_time := last_capture_time self;
     state := st;
     status_message := status_message self |}.

Definition update_status (self : t) : t :=
  match get_current_target self with
  | Some target =>
      if String.eqb target "front" then set_message self Look_Straight_Ahead
      else if String.eqb target "left" then set_message self Turn_Head_LEFT
      else if String.eqb target "right" then set_message self Turn_Head_RIGHT
      else self
  | None => set_state (set_message self All_Captures_Complete) COMPLETED
  end.

Definition start_session (self : t) (student_id : string) : t :=
  let self := reset self in
  let self :=
    {| db_and_recognizer := db_and_recognizer self;
       db_embeddings := db_embeddings self;
       current_student_id := Some student_id;
       required_angles := required_angles self;
       captured_angles := captured_angles self;
       current_idx := current_idx self;
       last_capture_time := last_capture_time self;
       state := CAPTURING;
       status_message := status_message self |} in
  update_status self.

(** [self.current_idx / 3.0]. *)
Definition progress (self : t) : Q :=
  (inject_Z (Z.of_nat (current_idx self)) / 3)%Q.

(** The pose thresholds of [process_frame]: whether the angle passed and
    the prompt to show when it did not. *)
Definition pose_gate (target : option string) (yaw : Q)
    : bool * option Message :=
  match target with
  | Some tg =>
      if String.eqb tg "front" then
        if Py.Qltb (-0.2) yaw && Py.Qltb yaw 0.2 then (true, None)
        else (false, Some Look_Straight)
      else if String.eqb tg "left" then
        if Py.Qltb 0.4 yaw then (true, None)
        else (false, Some Turn_MORE_Left)
      else if String.eqb tg "right" then
        if Py.Qltb yaw (-0.4) then (true, None)
        else (false, Some Turn_MORE_Right)
      else (false, None)
  | None => (false, None)
  end.

(** The crop bounds [(x1, y1, x2, y2)] of the face with 20% padding. *)
Definition padded_crop (frame : Frame) (face : Face) : Z * Z * Z * Z :=
  let x := Py.int (face_x face) in
  let y := Py.int (face_y face) in
  let w := Py.int (face_w face) in
  let h := Py.int (face_h face) in
  let pad_x := Py.int (inject_Z w * 0.2)%Q in
  let pad_y := Py.int (inject_Z h * 0.2)%Q in
  let '(h_img, w_img) := shape frame in
  (Z.max 0 (x - pad_x), Z.max 0 (y - pad_y),
   Z.min w_img (x + w + pad_x), Z.min h_img (y + h + pad_y)).

(** The body of the [if success:] branch after a successful save. *)
Definition record_capture (self : t) (frame : Frame) (face : Face)
    (target : string) (path : string) (current_time : Q) : t :=
  let embs :=
    if db_and_recognizer self then
      match generate_embedding frame face with
      | Some emb =>
          db_embeddings self ++ [(current_student_id self, emb, target)]
      | None => db_embeddings self
      end
    else db_embeddings self in
  update_status
    {| db_and_recognizer := db_and_recognizer self;
       db_embeddings := embs;
       current_student_id := current_student_id self;
       required_angles := required_angles self;
       captured_angles := OrderedDict.set (captured_angles self) target path;
       current_idx := S (current_idx self);
       last_capture_time := current_time;
       state := state self;
       status_message := status_message self |}.

(** [process_frame]; [current_time] is what [time.time()] reads.  The
    annotated frame that is returned for display is left out. *)
Definition process_frame (self : t) (frame : Frame) (current_time : Q)
    : t * (Message * Q) :=
  match state self with
  | CAPTURING =>
      let faces := detect frame in
      match Py.max_by (fun f => face_w f * face_h f)%Q faces with
      | None => (self, (No_Face_Detected, progress self))
      | Some face =>
          let '(is_good, issues) :=
            FaceValidator.check_quality roi_size laplacian_var mean_brightness
              frame (face_x face, face_y face, face_w face, face_h face) in
          if negb is_good then (self, (Quality issues, progress self))
          else
            let yaw := FaceValidator.calculate_pose (face_landmarks face) in
            let target := get_current_target self in
            let '(passed_angle, prompt) := pose_gate target yaw in
            let self :=
              match prompt with
              | Some m => set_message self m
              | None => self
              end in
            let self :=
              if passed_angle
                 && Py.Qltb 1.0 (current_time - last_capture_time self)
              then
                match target with
                | Some tg =>
                    let '(success, path) :=
                      save_image (current_student_id self) frame
                        (padded_crop frame face) tg in
                    if success
                    then record_capture self frame face tg path current_time
                    else self
                | None => self
                end
              else self in
            (self, (status_message self, progress self))
      end
  | _ => (self, (status_message self, 1%Q))
  end.

(** A frame on which the capture of [target] goes through: its largest
    face passes the quality gate, shows the pose asked for, and its crop
    is saved. *)
Definition capturable (student_id : option string) (target : string)
    (frame : Frame) : Prop :=
  exists face,
    Py.max_by (fun f => face_w f * face_h f)%Q (detect frame) = Some face
    /\ fst (FaceValidator.check_quality roi_size laplacian_var mean_brightness
              frame (face_x face, face_y face, face_w face, face_h face))
       = true
    /\ Poses.pose_ok target
         (FaceValidator.calculate_pose (face_landmarks face))
    /\ fst (save_image student_id frame (padded_crop frame face) target)
       = true.

(** The largest face of the frame, if any, is turned past the left
    threshold. *)
Definition shows_left (frame : Frame) : Prop :=
  forall face,
    Py.max_by (fun f => face_w f * face_h f)%Q (detect frame) = Some face ->
    (0.4 < FaceValidator.calculate_pose (face_landmarks face))%Q.

End WithCamera.
End CaptureManager.

(** ** core/frame_tracker.py *)
Module FrameTracker.
Import Detector.

(** [(x, y, w, h)] in whole pixels.  The boxes of a detection pass are
    tuples of [numpy.int64] ([det[0:4].astype(int)]); the box a tracker
    reports is a tuple of Python [int]s that OpenCV keeps within 32 bits. *)
Definition Box : Type := (Z * Z * Z * Z)%type.

(** The value an [int64] takes when the exact result of an operation is
    [z]: NumPy's integer arithmetic wraps around modulo [2^64]. *)
Definition int64 (z : Z) : Z := (z + 2 ^ 63) mod 2 ^ 64 - 2 ^ 63.

(** Every sum, difference and product is taken on [int64] values; [None]
    stands for a division by zero. *)
Definition _compute_iou (box1 box2 : Box) : option Q :=
  let '(x1, y1, w1, h1) := box1 in
  let '(x2, y2, w2, h2) := box2 in
  let box1_x2 := int64 (x1 + w1) in
  let box1_y2 := int64 (y1 + h1) in
  let box2_x2 := int64 (x2 + w2) in
  let box2_y2 := int64 (y2 + h2) in
  let inter_x1 := Z.max x1 x2 in
  let inter_y1 := Z.max y1 y2 in
  let inter_x2 := Z.min box1_x2 box2_x2 in
  let inter_y2 := Z.min box1_y2 box2_y2 in
  if (inter_x2 <=? inter_x1) || (inter_y2 <=? inter_y1) then Some 0%Q
  else
    let inter_area :=
      int64 (int64 (inter_x2 - inter_x1) * int64 (inter_y2 - inter_y1)) in
    let box1_area := int64 (w1 * h1) in
    let box2_area := int64 (w2 * h2) in
    let union_area := int64 (int64 (box1_area + box2_area) - inter_area) in
    if union_area <=? 0 then Some 0%Q
    else Py.truediv inter_area union_area.

(** The value the callers of [_compute_iou] read; no call raises (see
    [compute_iou_total] below), so the default is never used. *)
Definition iou (box1 box2 : Box) : Q := default 0%Q (_compute_iou box1 box2).

(** [tuple(det[0:4].astype(int))]. *)
Definition det_bbox (det : Face) : Box :=
  (Py.int (face_x det), Py.int (face_y det),
   Py.int (face_w det), Py.int (face_h det)).

(** One entry of the list [process_frame] returns. *)
Record Output : Type := {
  out_bbox : Box;
  out_face_id : Z;
  out_is_tracked : bool;
  out_student_id : option string;
  out_status : Recognizer.Status;
  out_confidence : Q;
  out_name : string
}.

Section WithVision.
Context {Frame Emb Tracker : Type}.

Variable detect : Frame -> list Face.
Variable shape : Frame -> Z * Z.                     (* (h_img, w_img) *)

(** [frame[y1:y2, x1:x2]] and the [size] of an image. *)
Variable crop : Frame -> Z * Z * Z * Z -> Frame.
Variable size : Frame -> Z.

(** The visual tracker behind a track, KCF or the template tracker:
    [init] always leaves a tracker object on the track; [update] either
    reports a box, reports a failure, or raises. *)
Inductive Update : Type :=
| Found (tracker : Tracker) (bbox : Q * Q * Q * Q)
| Lost (tracker : Tracker)
| Raised (tracker : Tracker).

Variable tracker_init : Frame -> Box -> Tracker.
Variable tracker_update : Tracker -> Frame -> Update.

Variable sface_feature : Frame -> option Face -> option Emb.
Variable sface_match : Emb -> Emb -> Q.

Abbreviation RecognitionResult :=
  (option string * Recognizer.Status * Q * Recognizer.Info)%type.

Record TrackedFace : Type := {
  bbox : Box;
  face_data : option Face;
  face_id : Z;
  tracker : option Tracker;
  embedding : option Emb;
  recognition_result : option RecognitionResult;
  last_detected_frame : Z;
  tracking_failures : Z
}.

(** [TrackedFace(bbox, face_data, face_id)]. *)
Definition new_TrackedFace (b : Box) (det : Face) (id : Z) : TrackedFace :=
  {| bbox := b; face_data := Some det; face_id := id; tracker := None;
     embedding := None; recognition_result := None;
     last_detected_frame := 0; tracking_failures := 0 |}.

Definition init_tracker (self : TrackedFace) (frame : Frame) : TrackedFace :=
  {| bbox := bbox self; face_data := face_data self; face_id := face_id self;
     tracker := Some (tracker_init frame (bbox self));
     embedding := embedding self;
     recognition_result := recognition_result self;
     last_detected_frame := last_detected_frame self;
     tracking_failures := tracking_failures self |}.

Definition with_tracking (self : TrackedFace) (tr : option Tracker)
    (b : Box) (failures : Z) : TrackedFace :=
  {| bbox := b; face_data := face_data self; face_id := face_id self;
     tracker := tr; embedding := embedding self;
     recognition_result := recognition_result self;
     last_detected_frame := last_detected_frame self;
     tracking_failures := failures |}.

(** [update_tracker]: the track after the call and the flag returned. *)
Definition update_tracker (self : TrackedFace) (frame : Frame)
    : TrackedFace * bool :=
  match tracker self with
  | None => (self, false)
  | Some tr =>
      match tracker_update tr frame with
      | Found tr' (x, y, w, h) =>
          (with_tracking self (Some tr')
             (Py.int x, Py.int y, Py.int w, Py.int h) 0, true)
      | Lost tr' =>
          (with_tracking self (Some tr') (bbox self)
             (tracking_failures self + 1), false)
      | Raised tr' =>
          (with_tracking self (Some tr') (bbox self)
             (tracking_failures self + 1), false)
      end
  end.

Record t : Type := {
  recognizer : Recognizer.t (Emb := Emb);
  detection_interval : Z;
  recognition_interval : Z;
  max_tracking_failures : Z;
  frame_count : Z;
  tracked_faces : list (Z * TrackedFace);     (* OrderedDict *)
  next_face_id : Z
}.

(** [FrameTracker(detector, recognizer, ...)]. *)
Definition init (rec : Recognizer.t (Emb := Emb))
    (detection_interval recognition_interval max_tracking_failures : Z) : t :=
  {| recognizer := rec;
     detection_interval := detection_interval;
     recognition_interval := recognition_interval;
     max_tracking_failures := max_tracking_failures;
     frame_count := 0; tracked_faces := []; next_face_id := 0 |}.

Definition with_tracks (self : t) (fc : Z) (tracks : list (Z * TrackedFace))
    (next : Z) : t :=
  {| recognizer := recognizer self;
     detection_interval := detection_interval self;
     recognition_interval := recognition_interval self;
     max_tracking_failures := max_tracking_failures self;
     frame_count := fc; tracked_faces := tracks; next_face_id := next |}.

(** The inner loop of [_run_detection]: the detection a track takes.
    [best_idx = -1] is [None]; a hit carries the detection with its index. *)
Fixpoint best_detection (tracked_bbox : Box) (detected_faces : list Face)
    (idx : nat) (used_detections : gset nat) (best_iou : Q)
    (best : option (nat * Face)) : option (nat * Face) :=
  match detected_faces with
  | [] => best
  | det :: rest =>
      if decide (idx ∈ used_detections)
      then best_detection tracked_bbox rest (S idx) used_detections
             best_iou best
      else
        let iou_ := iou tracked_bbox (det_bbox det) in
        if Py.Qltb best_iou iou_ && Py.Qltb 0.3 iou_
        then best_detection tracked_bbox rest (S idx) used_detections
               iou_ (Some (idx, det))
        else best_detection tracked_bbox rest (S idx) used_detections
               best_iou best
  end.

(** A matched track takes the detection's box and landmarks. *)
Definition rematch (tracked : TrackedFace) (det : Face) (frame : Frame)
    (frame_count : Z) : TrackedFace :=
  init_tracker
    {| bbox := det_bbox det; face_data := Some det;
       face_id := face_id tracked; tracker := tracker tracked;
       embedding := embedding tracked;
       recognition_result := recognition_result tracked;
       last_detected_frame := frame_count;
       tracking_failures := tracking_failures tracked |} frame.

(** The first loop of [_run_detection], over the existing tracks. *)
Fixpoint match_tracks (frame : Frame) (frame_count : Z)
    (detected_faces : list Face) (tracks : list (Z * TrackedFace))
    (new_tracked : list (Z * TrackedFace)) (used_detections : gset nat)
    : list (Z * TrackedFace) * gset nat :=
  match tracks with
  | [] => (new_tracked, used_detections)
  | (id, tracked) :: rest =>
      match best_detection (bbox tracked) detected_faces 0 used_detections
              0%Q None with
      | Some (best_idx, det) =>
          match_tracks frame frame_count detected_faces rest
            (OrderedDict.set new_tracked id
               (rematch tracked det frame frame_count))
            ({[best_idx]} ∪ used_detections)
      | None =>
          match_tracks frame frame_count detected_faces rest
            new_tracked used_detections
      end
  end.

Definition fresh_track (det : Face) (id : Z) (frame : Frame)
    (frame_count : Z) : TrackedFace :=
  let new_face := new_TrackedFace (det_bbox det) det id in
  init_tracker
    {| bbox := bbox new_face; face_data := face_data new_face;
       face_id := face_id new_face; tracker := tracker new_face;
       embedding := embedding new_face;
       recognition_result := recognition_result new_face;
       last_detected_frame := frame_count;
       tracking_failures := tracking_failures new_face |} frame.

(** The second loop of [_run_detection], over the detections. *)
Fixpoint add_new_faces (frame : Frame) (frame_count : Z)
    (detected_faces : list Face) (idx : nat) (used_detections : gset nat)
    (new_tracked : list (Z * TrackedFace)) (next_face_id : Z)
    : list (Z * TrackedFace) * Z :=
  match detected_faces with
  | [] => (new_tracked, next_face_id)
  | det :: rest =>
      if decide (idx ∈ used_detections)
      then add_new_faces frame frame_count rest (S idx) used_detections
             new_tracked next_face_id
      else add_new_faces frame frame_count rest (S idx) used_detections
             (OrderedDict.set new_tracked next_face_id
                (fresh_track det next_face_id frame frame_count))
             (next_face_id + 1)
  end.

Definition _run_detection (self : t) (frame : Frame) : t :=
  let detected_faces := detect frame in
  let '(new_tracked, used_detections) :=
    match_tracks frame (frame_count self) detected_faces
      (tracked_faces self) [] ∅ in
  let '(new_tracked, next) :=
    add_new_faces frame (frame_count self) detected_faces 0
      used_detections new_tracked (next_face_id self) in
  with_tracks self (frame_count self) new_tracked next.

(** The first loop of [_run_tracking]: every tracker is updated in place
    and the ids to drop are collected. *)
Fixpoint update_trackers (frame : Frame) (max_failures : Z)
    (tracks : list (Z * TrackedFace))
    : list (Z * TrackedFace) * list Z :=
  match tracks with
  | [] => ([], [])
  | (id, tracked) :: rest =>
      let '(tracked', success) := update_tracker tracked frame in
      let '(rest', faces_to_remove) :=
        update_trackers frame max_failures rest in
      if negb success || (max_failures <=? tracking_failures tracked')
      then ((id, tracked') :: rest', id :: faces_to_remove)
      else ((id, tracked') :: rest', faces_to_remove)
  end.

Definition _run_tracking (self : t) (frame : Frame) : t :=
  let '(tracks, faces_to_remove) :=
    update_trackers frame (max_tracking_failures self) (tracked_faces self) in
  with_tracks self (frame_count self)
    (fold_left OrderedDict.del faces_to_remove tracks)
    (next_face_id self).

Definition with_result (self : TrackedFace) (r : RecognitionResult)
    : TrackedFace :=
  {| bbox := bbox self; face_data := face_data self; face_id := face_id self;
     tracker := tracker self; embedding := embedding self;
     recognition_result := Some r;
     last_detected_frame := last_detected_frame self;
     tracking_failures := tracking_failures self |}.

Definition recognize_track (self : t) (frame : Frame) (use_landmarks : bool)
    (tracked : TrackedFace) : TrackedFace :=
  match use_landmarks, face_data tracked with
  | true, Some det =>
      with_result tracked
        (Recognizer.match_face_with_confidence sface_feature sface_match
           (recognizer self) frame (Some det))
  | _, _ =>
      let '(x, y, w, h) := bbox tracked in
      let '(h_img, w_img) := shape frame in
      let pad := 10 in
      let x1 := Z.max 0 (x - pad) in
      let y1 := Z.max 0 (y - pad) in
      let x2 := Z.min w_img (x + w + pad) in
      let y2 := Z.min h_img (y + h + pad) in
      let face_img := crop frame (x1, y1, x2, y2) in
      if 0 <? size face_img
      then with_result tracked
             (Recognizer.match_face_with_confidence sface_feature sface_match
                (recognizer self) face_img None)
      else tracked
  end.

Definition _run_recognition (self : t) (frame : Frame)
    (use_landmarks : bool) : t :=
  with_tracks self (frame_count self)
    (map (fun '(id, tracked) =>
            (id, recognize_track self frame use_landmarks tracked))
         (tracked_faces self))
    (next_face_id self).

Definition output_of (run_detection : bool) (entry : Z * TrackedFace)
    : Output :=
  let '(id, tracked) := entry in
  match recognition_result tracked with
  | Some (student_id, status, confidence, info) =>
      {| out_bbox := bbox tracked; out_face_id := id;
         out_is_tracked := negb run_detection;
         out_student_id := student_id; out_status := status;
         out_confidence := confidence;
         out_name := default "Unknown"%string (info !! "name"%string) |}
  | None =>
      {| out_bbox := bbox tracked; out_face_id := id;
         out_is_tracked := negb run_detection;
         out_student_id := None; out_status := Recognizer.UNKNOWN;
         out_confidence := 0%Q; out_name := "Processing..."%string |}
  end.

(** [process_frame]; [None] when an interval is zero and [%] raises. *)
Definition process_frame (self : t) (frame : Frame)
    : option (t * list Output) :=
  let self :=
    with_tracks self (frame_count self + 1) (tracked_faces self)
      (next_face_id self) in
  if (detection_interval self =? 0) || (recognition_interval self =? 0)
  then None
  else
    let run_detection :=
      (frame_count self mod detection_interval self =? 0)
      || (length (tracked_faces self) =? 0)%nat in
    let run_recognition :=
      frame_count self mod recognition_interval self =? 0 in
    let self :=
      if run_detection
      then _run_recognition (_run_detection self frame) frame true
      else
        let self := _run_tracking self frame in
        if run_recognition then _run_recognition self frame false else self in
    Some (self, map (output_of run_detection) (tracked_faces self)).

Definition reset (self : t) : t := with_tracks self 0 [] 0.

(** *** Vocabulary for the reconciliation of a detection pass *)

(** A track paired with the detection it takes. *)
Record Match : Type := {
  m_id : Z;
  m_track : TrackedFace;
  m_idx : nat;
  m_det : Face
}.

(** Whether [_run_tracking] lists the track for removal. *)
Definition evicted (frame : Frame) (max_failures : Z) (tr : TrackedFace)
    : bool :=
  negb (snd (update_tracker tr frame))
  || (max_failures <=? tracking_failures (fst (update_tracker tr frame))).

(** The ids of the track set are distinct and below [next_face_id]. *)
Definition ids_below_next (self : t) : Prop :=
  NoDup (OrderedDict.keys (tracked_faces self))
  /\ (forall id, In id (OrderedDict.keys (tracked_faces self)) ->
                 id < next_face_id self).

(** The entry a match leaves in the new track set. *)
Definition matched_entry (frame : Frame) (frame_count : Z) (m : Match)
    : Z * TrackedFace :=
  (m_id m, rematch (m_track m) (m_det m) frame frame_count).

(** Detection [k] of the frame is still free and overlaps the box by
    [v]. *)
Definition free_overlap (dets : list Face) (used : gset nat) (b : Box)
    (k : nat) (v : Q) : Prop :=
  exists d, dets !! k = Some d /\ (k ∉ used) /\ v = iou b (det_bbox d).

(** What the inner loop of [_run_detection] has established after the
    detections [pre]: the best free detection so far and its overlap. *)
Definition best_so_far (pre : list Face) (used : gset nat) (b : Box)
    (best_iou : Q) (best : option (nat * Face)) : Prop :=
  match best with
  | None =>
      best_iou = 0%Q
      /\ (forall k v, free_overlap pre used b k v -> (v <= 0.3)%Q)
  | Some (j, det) =>
      pre !! j = Some det /\ (j ∉ used)
      /\ best_iou = iou b (det_bbox det)
      /\ (0.3 < best_iou)%Q
      /\ (forall k v, free_overlap pre used b k v -> (v <= best_iou)%Q)
      /\ (forall k v, free_overlap pre used b k v -> (k < j)%nat ->
                      (v < best_iou)%Q)
  end.

(** The tracks are served in the order of the track set.  Each takes,
    among the detections no earlier track has taken, the one that
    overlaps its box most, provided the overlap exceeds 0.3 (the earliest
    such detection when several overlap equally); a track without such
    a detection takes none. *)
Inductive assigns (dets : list Face)
    : gset nat -> list (Z * TrackedFace) -> list Match -> Prop :=
| assigns_done used : assigns dets used [] []
| assigns_hit used id tracked rest j det ms :
    dets !! j = Some det ->
    j ∉ used ->
    (0.3 < iou (bbox tracked) (det_bbox det))%Q ->
    (forall k v, free_overlap dets used (bbox tracked) k v ->
                 (v <= iou (bbox tracked) (det_bbox det))%Q) ->
    (forall k v, free_overlap dets used (bbox tracked) k v -> (k < j)%nat ->
                 (v < iou (bbox tracked) (det_bbox det))%Q) ->
    assigns dets ({[j]} ∪ used) rest ms ->
    assigns dets used ((id, tracked) :: rest)
      ({| m_id := id; m_track := tracked; m_idx := j; m_det := det |} :: ms)
| assigns_miss used id tracked rest ms :
    (forall k v, free_overlap dets used (bbox tracked) k v -> (v <= 0.3)%Q) ->
    assigns dets used rest ms ->
    assigns dets used ((id, tracked) :: rest) ms.

(** The detections, from index [idx] on, that no track has taken. *)
Fixpoint unmatched_from (idx : nat) (dets : list Face) (used : gset nat)
    : list Face :=
  match dets with
  | [] => []
  | det :: rest =>
      if decide (idx ∈ used) then unmatched_from (S idx) rest used
      else det :: unmatched_from (S idx) rest used
  end.

(** New tracks for the given detections, numbered upward from [next]. *)
Fixpoint numbered_from (frame : Frame) (frame_count : Z) (next : Z)
    (dets : list Face) : list (Z * TrackedFace) :=
  match dets with
  | [] => []
  | det :: rest =>
      (next, fresh_track det next frame frame_count)
      :: numbered_from frame frame_count (next + 1) rest
  end.

(** Every frame shows one detection, and it overlaps the box of the
    detection before it (at first the box [b]) by more than 0.3. *)
Fixpoint steady (b : Box) (frames : list Frame) : Prop :=
  match frames with
  | [] => True
  | frame :: rest =>
      exists det, detect frame = [det]
                  /\ (0.3 < iou b (det_bbox det))%Q
                  /\ steady (det_bbox det) rest
  end.

End WithVision.
End FrameTracker.

(** The reconciliation in the words of the specification: of all pairs
    of a track and a detection with IoU above 0.3, the pair of highest
    IoU is matched first, then the highest pair among the tracks and
    detections still unmatched, until no pair is left. *)
Module HighestFirst.
Import FrameTracker.

Definition pairs (tracks : list (Z * Box)) (dets : list Box)
    : list (Z * nat * Q) :=
  flat_map (fun '(id, b) => imap (fun j d => (id, j, iou b d)) dets) tracks.

Definition taken (acc : list (Z * nat)) (id : Z) (j : nat) : bool :=
  existsb (fun '(id', j') => (id' =? id) || Nat.eqb j' j) acc.

Definition matching (tracks : list (Z * Box)) (dets : list Box)
    : list (Z * nat) :=
  fold_left
    (fun acc '(id, j, _) => if taken acc id j then acc else acc ++ [(id, j)])
    (Py.sort_desc snd
       (List.filter (fun p => Py.Qltb 0.3 (snd p)) (pairs tracks dets)))
    [].

End HighestFirst.

(** ** Vocabulary of the properties *)
Module Geometry.
Import FrameTracker.

(** The pixel [(px, py)] lies in the box. *)
Definition inside (b : Box) (px py : Z) : Prop :=
  let '(x, y, w, h) := b in x <= px < x + w /\ y <= py < y + h.

Definition overlapping (b1 b2 : Box) : Prop :=
  exists px py, inside b1 px py /\ inside b2 px py.

Definition nonneg_size (b : Box) : Prop :=
  let '(_, _, w, h) := b in 0 <= w /\ 0 <= h.

Definition area (b : Box) : Z := let '(_, _, w, h) := b in w * h.

Definition intersection_area (b1 b2 : Box) : Z :=
  let '(x1, y1, w1, h1) := b1 in
  let '(x2, y2, w2, h2) := b2 in
  Z.max 0 (Z.min (x1 + w1) (x2 + w2) - Z.max x1 x2)
  * Z.max 0 (Z.min (y1 + h1) (y2 + h2) - Z.max y1 y2).

Definition union_area (b1 b2 : Box) : Z :=
  area b1 + area b2 - intersection_area b1 b2.

(** The values an [int64] can hold. *)
Definition in_int64 (z : Z) : Prop := - 2 ^ 63 <= z < 2 ^ 63.

(** The corners of the two boxes and the sum of their areas are values
    of [int64]: with nonnegative sizes, no operation of [_compute_iou]
    then wraps around. *)
Definition no_overflow (b1 b2 : Box) : Prop :=
  let '(x1, y1, w1, h1) := b1 in
  let '(x2, y2, w2, h2) := b2 in
  in_int64 x1 /\ in_int64 y1 /\ in_int64 (x1 + w1) /\ in_int64 (y1 + h1)
  /\ in_int64 x2 /\ in_int64 y2 /\ in_int64 (x2 + w2) /\ in_int64 (y2 + h2)
  /\ in_int64 (w1 * h1 + w2 * h2).

(** The four numbers of the box fit in 32 bits, as those of a frame's
    pixels do. *)
Definition within_32_bits (b : Box) : Prop :=
  let '(x, y, w, h) := b in
  - 2 ^ 31 <= x < 2 ^ 31 /\ - 2 ^ 31 <= y < 2 ^ 31
  /\ - 2 ^ 31 <= w < 2 ^ 31 /\ - 2 ^ 31 <= h < 2 ^ 31.

End Geometry.

Module Ranking.

(** [a] stands at an earlier position of [l] than [b]. *)
Definition occurs_before {A : Type} (l : list A) (a b : A) : Prop :=
  exists i j : nat, (i < j)%nat /\ l !! i = Some a /\ l !! j = Some b.

(** The same, by recursion on the list. *)
Fixpoint before {A : Type} (l : list A) (a b : A) : Prop :=
  match l with
  | [] => False
  | y :: l' => (a = y /\ In b l') \/ before l' a b
  end.

(** Keys never increase along the list. *)
Definition descending {A : Type} (key : A -> Q) (l : list A) : Prop :=
  forall a b, before l a b -> (key b <= key a)%Q.

Section Similarity.
Context {Emb : Type} (sface_match : Emb -> Emb -> Q).

(** [s] is the largest similarity of the probe to a reference in [refs]. *)
Definition max_similarity (target : Emb) (refs : list Emb) (s : Q) : Prop :=
  (exists r, In r refs /\ sface_match target r = s)
  /\ (forall r, In r refs -> (sface_match target r <= s)%Q).

(** The student [x] was enrolled before the student [y]. *)
Definition enrolled_before (embeddings : list (string * list Emb))
    (x y : string) : Prop :=
  exists rx ry, occurs_before embeddings (x, rx) (y, ry).

End Similarity.
End Ranking.

(** ** Further Python primitives *)
Module PyList.

(** [l[start:]]: a negative start counts from the end of the list. *)
Definition slice_from {A : Type} (l : list A) (start : Z) : list A :=
  if 0 <=? start then skipn (Z.to_nat start) l
  else skipn (Z.to_nat (Z.of_nat (length l) + start)) l.

(** [a / b] on floats: [None] for ZeroDivisionError. *)
Definition fdiv (a b : Q) : option Q :=
  if Qeq_bool b 0 then None else Some (a / b)%Q.

(** [sum(l)] on floats. *)
Definition sum (l : list Q) : Q := fold_left Qplus l 0%Q.

End PyList.

(** ** core/recognizer.py: [recognize] and [load_database];
       data/database.py: the loops of [get_all_embeddings] and
       [get_student_map] over the fetched rows *)
Module Database.
Section WithNumpy.
Context {Blob Emb : Type}.

(** [np.frombuffer(blob, dtype=np.float32).reshape(1, 128)]; [None] when
    the blob does not hold 128 floats and [reshape] raises. *)
Variable frombuffer : Blob -> option Emb.

(** The loop of [get_all_embeddings] from a given dictionary on; [None]
    when a row raises. *)
Fixpoint group_rows (embeddings : list (string * list Emb))
    (rows : list (string * Blob)) : option (list (string * list Emb)) :=
  match rows with
  | [] => Some embeddings
  | (s_id, blob) :: rest =>
      match frombuffer blob with
      | None => None
      | Some emb_arr =>
          let embeddings :=
            match OrderedDict.get embeddings s_id with
            | None => OrderedDict.set embeddings s_id []
            | Some _ => embeddings
            end in
          group_rows
            (OrderedDict.set embeddings s_id
               (default [] (OrderedDict.get embeddings s_id) ++ [emb_arr]))
            rest
      end
  end.

Definition get_all_embeddings (rows : list (string * Blob))
    : option (list (string * list Emb)) :=
  group_rows [] rows.

End WithNumpy.

Definition get_student_map (rows : list (string * string))
    : gmap string Recognizer.Info :=
  fold_left
    (fun student_map '(s_id, name) =>
       <[s_id := {["name"%string := name; "id"%string := s_id]}]> student_map)
    rows ∅.

End Database.

Module RecognizerApi.
Import Recognizer.
Section WithSFace.
Context {Image FaceData Emb Blob : Type}.
Variable sface_feature : Image -> option FaceData -> option Emb.
Variable sface_match : Emb -> Emb -> Q.
Variable frombuffer : Blob -> option Emb.

Definition recognize (self : t (Emb := Emb)) (image : Image)
    (face_data : option FaceData) : option string * Q * Info :=
  if negb (recognizer self) then (None, 0%Q, ∅)
  else
    match _generate_embedding sface_feature self image face_data with
    | None => (None, 0%Q, ∅)
    | Some _ =>
        let '(best_id, _, conf, info) :=
          match_face_with_confidence sface_feature sface_match self image
            face_data in
        (best_id, conf, info)
    end.

(** [load_database]; [tables] is what the two queries fetch: the rows of
    the embeddings table and, unless the second query raises, the rows
    of the students table; [None] when the database cannot be opened or
    the first query raises.  An exception ends the call where it is
    raised, so a failure of the first query or of the decoding leaves the
    recognizer as it is, and a failure of the second leaves the new
    embeddings with the old student map. *)
Definition load_database (self : t (Emb := Emb))
    (tables : option (list (string * Blob)
                      * option (list (string * string))))
    : t (Emb := Emb) :=
  if negb (recognizer self) then self
  else
    match tables with
    | None => self
    | Some (embedding_rows, students) =>
        match Database.get_all_embeddings frombuffer embedding_rows with
        | None => self
        | Some embs =>
            {| recognizer := recognizer self;
               embeddings := embs;
               student_map :=
                 match students with
                 | Some student_rows => Database.get_student_map student_rows
                 | None => student_map self
                 end |}
        end
    end.

End WithSFace.
End RecognizerApi.

(** ** core/attendance_manager.py: the reports *)
Module AttendanceReports.
Import AttendanceManager.

Record Stats : Type := {
  high_confidence_count : Z;
  low_confidence_count : Z;
  avg_confidence : Q
}.

Definition get_todays_count (self : t) : Z := Z.of_nat (length (today_log self)).

Definition get_todays_records (self : t) : list LogRecord := today_log self.

Section WithFloat.

(** [float(r['confidence'])]: the number behind the stored rendering (or
    the stored number of a record read from the database); [None] when
    [float] raises. *)
Variable float_confidence : LogRecord -> option Q.

(** [[float(r['confidence']) for r in self.today_log]]. *)
Fixpoint confidences (log : list LogRecord) : option (list Q) :=
  match log with
  | [] => Some []
  | r :: rest =>
      match float_confidence r with
      | None => None
      | Some c =>
          match confidences rest with
          | None => None
          | Some cs => Some (c :: cs)
          end
      end
  end.

(** [get_confidence_stats]; [None] when the call raises. *)
Definition get_confidence_stats (self : t) : option Stats :=
  match today_log self with
  | [] => Some {| high_confidence_count := 0; low_confidence_count := 0;
                  avg_confidence := 0%Q |}
  | _ =>
      match confidences (today_log self) with
      | None => None
      | Some cs =>
          let high_count :=
            Z.of_nat (length (List.filter (Py.Qleb HIGH_CONFIDENCE) cs)) in
          let low_count :=
            Z.of_nat
              (length (List.filter (fun c => Py.Qltb c LOW_CONFIDENCE) cs)) in
          match PyList.fdiv (PyList.sum cs)
                  (inject_Z (Z.of_nat (length cs))) with
          | None => None
          | Some avg =>
              Some {| high_confidence_count := high_count;
                      low_confidence_count := low_count;
                      avg_confidence := avg |}
          end
      end
  end.

End WithFloat.

(** The number of calls of a sequence that return [True]. *)
Fixpoint successes (self : t) (calls : list Call) : nat :=
  match calls with
  | [] => 0%nat
  | c :: rest =>
      ((if fst (snd (mark self c)) then 1 else 0)
       + successes (fst (mark self c)) rest)%nat
  end.

(** [float(r['confidence'])] on the two kinds of value a record holds:
    the number itself, or the number its two decimals show. *)
Definition float_of_confidence (r : LogRecord) : option Q :=
  match rec_confidence r with
  | Number c => Some c
  | Text hundredths => Some (inject_Z hundredths / 100)%Q
  end.

(** What a cached record says about a mark, and what a database row says
    about it once its confidence is shown as [mark_attendance] shows it
    in the record, to two decimals. *)
Definition record_key (r : LogRecord)
    : Py.value * string * Confidence * string :=
  (rec_id r, rec_time r, rec_confidence r, rec_marked_by r).

Definition row_key (r : DbRow) : Py.value * string * Confidence * string :=
  (row_student_id r, row_time r, Text (Py.format_2f (row_confidence r)),
   row_marked_by r).

End AttendanceReports.

(** ** core/frame_tracker.py: [TemplateTracker] *)
Module TemplateTracker.
Import FrameTracker.

Section WithOpenCV.
Context {Frame : Type}.

Variable shape : Frame -> Z * Z.                     (* (h_img, w_img) *)

(** [frame[y:y+h, x:x+w]], named by the frame and the bounds. *)
Definition Region : Type := (Frame * Box)%type.

(** [cv2.matchTemplate(search_area, template, TM_CCOEFF_NORMED)] followed
    by [cv2.minMaxLoc]: [max_val] and [max_loc], or [None] when OpenCV
    raises. *)
Variable match_template : Region -> Region -> option (Q * (Z * Z)).

Record t : Type := {
  template : option Region;
  bbox : option Box
}.

(** [TemplateTracker()]. *)
Definition new : t := {| template := None; bbox := None |}.

Definition init (self : t) (frame : Frame) (b : Q * Q * Q * Q) : t * bool :=
  let '(bx, by_, bw, bh) := b in
  let x := Py.int bx in
  let y := Py.int by_ in
  let w := Py.int bw in
  let h := Py.int bh in
  let self := {| template := template self; bbox := Some (x, y, w, h) |} in
  let '(h_img, w_img) := shape frame in
  let x := Z.max 0 x in
  let y := Z.max 0 y in
  let w := Z.min w (w_img - x) in
  let h := Z.min h (h_img - y) in
  if (0 <? w) && (0 <? h)
  then ({| template := Some (frame, (x, y, w, h)); bbox := bbox self |}, true)
  else (self, false).

(** [update]: the tracker after the call and the pair returned; [None]
    when a template is held without a box and the unpacking raises. *)
Definition update (self : t) (frame : Frame)
    : option (t * (bool * option Box)) :=
  match template self with
  | None => Some (self, (false, bbox self))
  | Some tpl =>
      match bbox self with
      | None => None
      | Some (x, y, w, h) =>
          let '(h_img, w_img) := shape frame in
          let margin_w := w / 2 in
          let margin_h := h / 2 in
          let search_x := Z.max 0 (x - margin_w) in
          let search_y := Z.max 0 (y - margin_h) in
          let search_w := Z.min (w_img - search_x) (w + 2 * margin_w) in
          let search_h := Z.min (h_img - search_y) (h + 2 * margin_h) in
          if (search_w <? w) || (search_h <? h)
          then Some (self, (false, bbox self))
          else
            let search_area :=
              (frame, (search_x, search_y, search_w, search_h)) in
            match match_template search_area tpl with
            | Some (max_val, (loc_x, loc_y)) =>
                if Py.Qltb 0.4 max_val then
                  let new_x := search_x + loc_x in
                  let new_y := search_y + loc_y in
                  Some ({| template := template self;
                           bbox := Some (new_x, new_y, w, h) |},
                        (true, Some (new_x, new_y, w, h)))
                else Some (self, (false, bbox self))
            | None => Some (self, (false, bbox self))
            end
      end
  end.

(** The box lies within the frame. *)
Definition within (frame : Frame) (b : Box) : Prop :=
  let '(x, y, w, h) := b in
  let '(h_img, w_img) := shape frame in
  0 <= x /\ 0 <= y /\ x + w <= w_img /\ y + h <= h_img.

(** The location [matchTemplate] reports lies in its result matrix, which
    has one cell for every placement of the template in the search
    area. *)
Definition reports_placements : Prop :=
  forall frame sx sy sw sh tframe tx ty tw th max_val loc_x loc_y,
    match_template (frame, (sx, sy, sw, sh)) (tframe, (tx, ty, tw, th))
    = Some (max_val, (loc_x, loc_y)) ->
    0 <= loc_x <= sw - tw /\ 0 <= loc_y <= sh - th.

End WithOpenCV.
End TemplateTracker.

(** ** core/frame_tracker.py: [FPSCounter] *)
Module FPSCounter.

Record t : Type := {
  times : list Q;
  avg_frames : Z
}.

(** [FPSCounter(avg_frames)]. *)
Definition init (avg_frames : Z) : t :=
  {| times := []; avg_frames := avg_frames |}.

(** [update]; [now] is what [time.time()] reads.  [None] when the
    division raises. *)
Definition update (self : t) (now : Q) : t * option Q :=
  let times := times self ++ [now] in
  let times :=
    if Z.of_nat (length times) >? avg_frames self
    then PyList.slice_from times (- avg_frames self)
    else times in
  let self := {| times := times; avg_frames := avg_frames self |} in
  if (Z.of_nat (length times) <? 2) then (self, Some 0%Q)
  else
    let elapsed := (List.last times 0 - hd 0 times)%Q in
    if Py.Qleb elapsed 0 then (self, Some 0%Q)
    else (self,
          PyList.fdiv (inject_Z (Z.of_nat (length times) - 1)) elapsed).

(** The counter after the given clock readings, one [update] each. *)
Definition after_updates (self : t) (readings : list Q) : t :=
  fold_left (fun s now => fst (update s now)) readings self.

(** [n] readings from [t0] on, [d] apart. *)
Definition evenly_spaced (t0 d : Q) (first n : nat) : list Q :=
  map (fun i => (t0 + inject_Z (Z.of_nat i) * d)%Q) (seq first n).

End FPSCounter.

(** ** ui/attendance_view.py: the marking in [update_loop] *)
Module AttendanceView.
Import FrameTracker.

(** A student id as [mark_attendance] receives it. *)
Definition py_id (student_id : option string) : Py.value :=
  match student_id with
  | Some s => Py.Str s
  | None => Py.None_
  end.

(** The loop over [face_results]: a result whose status is RECOGNIZED is
    passed to [mark_attendance]; each result comes with the clock readings
    and the outcome of the database write of its call. *)
Definition mark_results (attendance : AttendanceManager.t)
    (face_results : list (Output * (AttendanceManager.Clock * bool)))
    : AttendanceManager.t :=
  fold_left
    (fun att '(result, (clock, insert_ok)) =>
       match out_status result with
       | Recognizer.RECOGNIZED =>
           fst (AttendanceManager.mark_attendance att clock insert_ok
                  (py_id (out_student_id result)) (out_name result)
                  (out_confidence result) "face_recognition")
       | _ => att
       end)
    face_results attendance.

End AttendanceView.

(** ** Runs of the capture session and of the frame tracker *)
Module Runs.
Import Detector.

Section Capture.
Context {Frame Emb : Type}.
Variable detect : Frame -> list Face.
Variable shape : Frame -> Z * Z.
Variable roi_size : Frame -> Z * Z * Z * Z -> Z.
Variable laplacian_var : Frame -> Z * Z * Z * Z -> Q.
Variable mean_brightness : Frame -> Z * Z * Z * Z -> Q.
Variable save_image :
  option string -> Frame -> Z * Z * Z * Z -> string -> bool * string.
Variable generate_embedding : Frame -> Face -> option Emb.

(** The manager after [process_frame] on each frame, taken at the given
    clock reading. *)
Definition after_frames (self : CaptureManager.t (Emb := Emb))
    (frames : list (Frame * Q)) : CaptureManager.t (Emb := Emb) :=
  fold_left
    (fun s '(frame, now) =>
       fst (CaptureManager.process_frame detect shape roi_size laplacian_var
              mean_brightness save_image generate_embedding s frame now))
    frames self.

End Capture.

Section Tracking.
Context {Frame Emb Tracker : Type}.
Variable detect : Frame -> list Face.
Variable shape : Frame -> Z * Z.
Variable crop : Frame -> Z * Z * Z * Z -> Frame.
Variable size : Frame -> Z.
Variable tracker_init : Frame -> FrameTracker.Box -> Tracker.
Variable tracker_update : Tracker -> Frame -> @FrameTracker.Update Tracker.
Variable sface_feature : Frame -> option Face -> option Emb.
Variable sface_match : Emb -> Emb -> Q.

(** The states a tracker goes through: the fresh tracker, and the state
    after [process_frame] on any frame. *)
Inductive reachable : @FrameTracker.t Emb Tracker -> Prop :=
| reachable_init rec detection_interval recognition_interval
    max_tracking_failures :
    reachable (FrameTracker.init rec detection_interval recognition_interval
                 max_tracking_failures)
| reachable_reset self :
    reachable self -> reachable (FrameTracker.reset self)
| reachable_step self frame self' out :
    reachable self ->
    FrameTracker.process_frame detect shape crop size tracker_init
      tracker_update sface_feature sface_match self frame = Some (self', out) ->
    reachable self'.

End Tracking.
End Runs.

(** ** Vocabulary for the capture session, the tracks and the database rows *)
Module CaptureSession.
Import CaptureManager.

Section Vocabulary.
Context {Emb : Type}.

(** Two managers that differ at most in the status message. *)
Definition same_progress (self self' : CaptureManager.t (Emb := Emb)) : Prop :=
  db_and_recognizer self' = db_and_recognizer self
  /\ db_embeddings self' = db_embeddings self
  /\ current_student_id self' = current_student_id self
  /\ required_angles self' = required_angles self
  /\ captured_angles self' = captured_angles self
  /\ current_idx self' = current_idx self
  /\ last_capture_time self' = last_capture_time self
  /\ state self' = state self.

(** A session of [student_id] under way: the three poses are required,
    the poses before the index are the ones captured, in order, and the
    session is COMPLETED exactly when all three are. *)
Definition in_session (student_id : string)
    (self : CaptureManager.t (Emb := Emb)) : Prop :=
  required_angles self = ["front"; "left"; "right"]%string
  /\ (current_idx self <= 3)%nat
  /\ OrderedDict.keys (captured_angles self)
     = firstn (current_idx self) (required_angles self)
  /\ (state self = COMPLETED <-> current_idx self = 3%nat)
  /\ (state self = CAPTURING <-> (current_idx self < 3)%nat)
  /\ current_student_id self = Some student_id.

End Vocabulary.
End CaptureSession.

Module TrackerInvariants.
Import Detector FrameTracker.

(** A recognition result whose status is the band of its confidence and
    that names a student exactly when the status is not UNKNOWN. *)
Definition banded
    (r : option string * Recognizer.Status * Q * Recognizer.Info) : Prop :=
  let '(student_id, status, confidence, _) := r in
  (0 <= confidence)%Q
  /\ (status = Recognizer.RECOGNIZED <-> (0.75 <= confidence)%Q)
  /\ (status = Recognizer.MAYBE <->
      (0.50 <= confidence)%Q /\ (confidence < 0.75)%Q)
  /\ (status = Recognizer.UNKNOWN <-> (confidence < 0.50)%Q)
  /\ (student_id = None <-> status = Recognizer.UNKNOWN).

Section Tracks.
Context {Emb Tracker : Type}.

(** A track as it is filed under [id] after a detection or tracking
    pass. *)
Definition tracked_ok (id : Z) (tr : TrackedFace (Emb := Emb) (Tracker := Tracker))
    : Prop :=
  face_id tr = id
  /\ tracking_failures tr = 0
  /\ is_Some (tracker tr)
  /\ is_Some (face_data tr).

(** A track as [process_frame] leaves it. *)
Definition settled (id : Z) (tr : TrackedFace (Emb := Emb) (Tracker := Tracker))
    : Prop :=
  tracked_ok id tr
  /\ exists r, recognition_result tr = Some r /\ banded r.

End Tracks.

(** Whether [process_frame] runs a detection pass on the next frame. *)
Definition is_detection_frame {Emb Tracker : Type}
    (self : FrameTracker.t (Emb := Emb) (Tracker := Tracker)) : bool :=
  ((frame_count self + 1) mod detection_interval self =? 0)
  || (length (tracked_faces self) =? 0)%nat.

(** What one entry of the output says about status, confidence and
    student. *)
Definition banded_output (o : Output) : Prop :=
  (0 <= out_confidence o)%Q
  /\ (out_status o = Recognizer.RECOGNIZED <-> (0.75 <= out_confidence o)%Q)
  /\ (out_status o = Recognizer.MAYBE <->
      (0.50 <= out_confidence o)%Q /\ (out_confidence o < 0.75)%Q)
  /\ (out_status o = Recognizer.UNKNOWN <-> (out_confidence o < 0.50)%Q)
  /\ (out_student_id o = None <-> out_status o = Recognizer.UNKNOWN).

(** What one entry of the output shows of a face. *)
Definition shown (o : Output)
    : Box * option string * Recognizer.Status * Q * string :=
  (out_bbox o, out_student_id o, out_status o, out_confidence o, out_name o).

Section Answers.
Context {Frame Emb : Type}.
Variable sface_feature : Frame -> option Face -> option Emb.
Variable sface_match : Emb -> Emb -> Q.

(** The classifier's answer for a detection of the frame, as an entry of
    the output shows it. *)
Definition classified (rec : Recognizer.t (Emb := Emb)) (frame : Frame)
    (det : Face) : Box * option string * Recognizer.Status * Q * string :=
  let '(student_id, status, confidence, info) :=
    Recognizer.match_face_with_confidence sface_feature sface_match rec
      frame (Some det) in
  (det_bbox det, student_id, status, confidence,
   default "Unknown"%string (info !! "name"%string)).

End Answers.

End TrackerInvariants.

Module DatabaseRows.
Section Rows.
Context {Blob Emb : Type}.
Variable frombuffer : Blob -> option Emb.

(** The embeddings of the rows of one student, in the order of the
    rows. *)
Definition references_of (s_id : string) (rows : list (string * Blob))
    : list Emb :=
  omap (fun row : string * Blob =>
          if decide (fst row = s_id) then frombuffer (snd row) else None)
    rows.

End Rows.
End DatabaseRows.

(** ** A scripted camera for the worked examples

    A frame is the list of faces the detector reports on it and a flag
    that tells whether the visual trackers find their targets on it.
    Recognition plays no role in the examples: the SFace model is absent. *)
Module Scripted.
Import Detector.

Record Frame : Type := {
  seen : list Face;
  trackers_follow : bool
}.

(** A face with the eyes at x = 40 and x = 60 and the nose at [nose_x]. *)
Definition face_at (x y w h : Q) (nose_x : Q) : Face :=
  {| face_x := x; face_y := y; face_w := w; face_h := h;
     face_landmarks :=
       {| right_eye := (40, 40)%Q; left_eye := (60, 40)%Q;
          nose := (nose_x, 50%Q);
          right_mouth := (42, 60)%Q; left_mouth := (58, 60)%Q |};
     face_score := 0.9 |}.

Definition shape (_ : Frame) : Z * Z := (480, 640).
Definition crop (frame : Frame) (_ : Z * Z * Z * Z) : Frame := frame.
Definition size (_ : Frame) : Z := 1.

(** The tracker remembers its box and reports it again when it follows. *)
Definition tracker_init (_ : Frame) (b : FrameTracker.Box)
    : FrameTracker.Box := b.

Definition tracker_update (tr : FrameTracker.Box) (frame : Frame)
    : @FrameTracker.Update FrameTracker.Box :=
  if trackers_follow frame
  then let '(x, y, w, h) := tr in
       FrameTracker.Found tr (inject_Z x, inject_Z y, inject_Z w, inject_Z h)
  else FrameTracker.Lost tr.

Definition sface_feature (_ : Frame) (_ : option Face) : option unit := None.
Definition sface_match (_ _ : unit) : Q := 0.

Definition no_recognizer : @Recognizer.t unit :=
  {| Recognizer.recognizer := false; Recognizer.embeddings := [];
     Recognizer.student_map := ∅ |}.

(** [FrameTracker(detector, recognizer)] with the default intervals. *)
Definition tracker0 : @FrameTracker.t unit FrameTracker.Box :=
  FrameTracker.init no_recognizer 5 15 3.

Definition process_frame :=
  FrameTracker.process_frame seen shape crop size tracker_init
    tracker_update sface_feature sface_match.

Definition run_detection :=
  FrameTracker._run_detection (Emb := unit) seen tracker_init.

(** [process_frame] on one frame after the other: the final tracker and
    the output for the last frame ([last] when there is no frame). *)
Fixpoint process_all (self : @FrameTracker.t unit FrameTracker.Box)
    (frames : list Frame) (last : list FrameTracker.Output)
    : option (@FrameTracker.t unit FrameTracker.Box
              * list FrameTracker.Output) :=
  match frames with
  | [] => Some (self, last)
  | frame :: rest =>
      match process_frame self frame with
      | Some (self', out) => process_all self' rest out
      | None => None
      end
  end.

(** The image measurements and the store of the capture examples: every
    region is sharp and well lit, every save succeeds. *)
Definition roi_size (_ : Frame) (_ : Z * Z * Z * Z) : Z := 30000.
Definition laplacian_var (_ : Frame) (_ : Z * Z * Z * Z) : Q := 150.
Definition mean_brightness (_ : Frame) (_ : Z * Z * Z * Z) : Q := 120.
Definition save_image (_ : option string) (_ : Frame)
    (_ : Z * Z * Z * Z) (angle : string) : bool * string := (true, angle).
Definition generate_embedding (_ : Frame) (_ : Face) : option unit := None.

Definition capture0 : @CaptureManager.t unit :=
  CaptureManager.reset
    {| CaptureManager.db_and_recognizer := false;
       CaptureManager.db_embeddings := [];
       CaptureManager.current_student_id := None;
       CaptureManager.required_angles := [];
       CaptureManager.captured_angles := [];
       CaptureManager.current_idx := 0;
       CaptureManager.last_capture_time := 0;
       CaptureManager.state := CaptureManager.WAITING;
       CaptureManager.status_message := CaptureManager.Ready |}.

Definition capture_frame :=
  CaptureManager.process_frame seen shape roi_size laplacian_var
    mean_brightness save_image generate_embedding.

(** One face of 100 by 100 pixels with the nose at [nose_x]. *)
Definition portrait (nose_x : Q) : Frame :=
  {| seen := [face_at 10 10 100 100 nose_x]; trackers_follow := true |}.

(** A manager with the default cooldown and no database, and a call for
    S1 at the given clock. *)
Definition fresh_manager : AttendanceManager.t :=
  AttendanceManager.init 900 None [].

Definition call_at (now : Q) (insert_ok : bool) : AttendanceManager.Call :=
  {| AttendanceManager.call_clock :=
       {| AttendanceManager.time_time := now;
          AttendanceManager.clock_hms := "09:00:00";
          AttendanceManager.clock_date := "2026-11-03" |};
     AttendanceManager.call_insert_ok := insert_ok;
     AttendanceManager.call_student_id := Py.Str "S1";
     AttendanceManager.call_name := "Ada";
     AttendanceManager.call_confidence := 0.9;
     AttendanceManager.call_marked_by := "face_recognition" |}.

(** Landmarks with the nose two pixels from the right eye and eight from
    the left eye. *)
Definition turned_face : Landmarks :=
  {| right_eye := (0, 0)%Q; left_eye := (10, 0)%Q; nose := (2, 5)%Q;
     right_mouth := (1, 9)%Q; left_mouth := (9, 9)%Q |}.

End Scripted.

(** ** A scripted class for the worked examples of the recognizer

    Every probe embeds to the same vector, and the similarity of the
    probe to a stored reference is the number stored: S1 scores 0.9 and
    S2 scores 0.7. *)
Module Classroom.
Import Detector.

Definition feature (_ : Scripted.Frame) (_ : option Face) : option Q :=
  Some 1%Q.

Definition similarity (_ : Q) (reference : Q) : Q := reference.

Definition ada : Recognizer.Info :=
  {["name"%string := "Ada"%string; "id"%string := "S1"%string]}.

Definition enrolled : @Recognizer.t Q :=
  {| Recognizer.recognizer := true;
     Recognizer.embeddings :=
       [("S1"%string, [0.9%Q]); ("S2"%string, [0.3%Q; 0.7%Q])];
     Recognizer.student_map := {["S1"%string := ada]} |}.

(** [FrameTracker(detector, recognizer)] with the default intervals. *)
Definition tracker : @FrameTracker.t Q FrameTracker.Box :=
  FrameTracker.init enrolled 5 15 3.

Definition process_frame :=
  FrameTracker.process_frame Scripted.seen Scripted.shape Scripted.crop
    Scripted.size Scripted.tracker_init Scripted.tracker_update
    feature similarity.

(** The tracker after its first frame, with one face in view. *)
Definition after_first : @FrameTracker.t Q FrameTracker.Box :=
  match process_frame tracker (Scripted.portrait 50) with
  | Some (self, _) => self
  | None => tracker
  end.

(** The embedding rows and the students table behind [enrolled]; a blob
    is the number it stands for. *)
Definition embedding_rows : list (string * Q) :=
  [("S1"%string, 0.9%Q); ("S2"%string, 0.3%Q); ("S2"%string, 0.7%Q)].

Definition student_rows : list (string * string) :=
  [("S1"%string, "Ada"%string)].

Definition frombuffer (blob : Q) : option Q := Some blob.

(** The clock and the outcome of the write for each result of a frame. *)
Definition with_clock (out : list FrameTracker.Output)
    : list (FrameTracker.Output * (AttendanceManager.Clock * bool)) :=
  map (fun o =>
         (o, ({| AttendanceManager.time_time := 1762000000;
                 AttendanceManager.clock_hms := "09:00:00";
                 AttendanceManager.clock_date := "2026-11-03" |}, true)))
    out.

End Classroom.

(* ================================================================= *)
(** * Part II: properties *)
(* ================================================================= *)

(** ** Comparisons *)

Lemma Qltb_true (a b : Q) : Py.Qltb a b = true <-> (a < b)%Q.
Proof.
  unfold Py.Qltb. rewrite Qlt_alt.
  destruct (a ?= b)%Q; split; congruence.
Qed.

Lemma Qltb_false (a b : Q) : Py.Qltb a b = false <-> (b <= a)%Q.
Proof.
  split; intros H.
  - apply Qnot_lt_le. intros Hlt. apply Qltb_true in Hlt. congruence.
  - destruct (Py.Qltb a b) eqn:E; [|reflexivity].
    apply Qltb_true in E. exfalso. apply (Qlt_not_le _ _ E H).
Qed.

Lemma Qleb_true (a b : Q) : Py.Qleb a b = true <-> (a <= b)%Q.
Proof. apply Qle_bool_iff. Qed.

Lemma Qleb_false (a b : Q) : Py.Qleb a b = false <-> (b < a)%Q.
Proof.
  split; intros H.
  - apply Qnot_le_lt. intros Hle. apply Qleb_true in Hle. congruence.
  - destruct (Py.Qleb a b) eqn:E; [|reflexivity].
    apply Qleb_true in E. exfalso. apply (Qlt_not_le _ _ H E).
Qed.

(** ** Intersection over union *)
Section IoU.
Import FrameTracker.

Lemma truediv_pos (a b : Z) :
  0 < b -> Py.truediv a b = Some (inject_Z a / inject_Z b)%Q.
Proof.
  intros Hb. unfold Py.truediv.
  destruct (Z.eqb_spec b 0); [lia | reflexivity].
Qed.

(** An operation whose exact result is a value of [int64] does not wrap. *)
Lemma int64_exact (z : Z) : Geometry.in_int64 z -> int64 z = z.
Proof.
  unfold Geometry.in_int64, int64. intros Hz.
  rewrite Z.mod_small by lia. lia.
Qed.

(** No pair of boxes makes [_compute_iou] raise: the division is reached
    only with a positive union area. *)
Lemma compute_iou_total (box1 box2 : Box) :
  _compute_iou box1 box2 = Some (iou box1 box2).
Proof.
  unfold iou.
  destruct box1 as [[[x1 y1] w1] h1], box2 as [[[x2 y2] w2] h2].
  unfold _compute_iou.
  destruct (_ || _); [reflexivity |].
  match goal with |- context [?u <=? 0] => destruct (Z.leb_spec u 0) end;
    [reflexivity |].
  rewrite truediv_pos by assumption. reflexivity.
Qed.

(** Boxes within 32 bits, of nonnegative sizes, keep every operation
    within [int64]. *)
Lemma within_32_bits_no_overflow (box1 box2 : Box) :
  Geometry.within_32_bits box1 -> Geometry.within_32_bits box2 ->
  Geometry.nonneg_size box1 -> Geometry.nonneg_size box2 ->
  Geometry.no_overflow box1 box2.
Proof.
  destruct box1 as [[[x1 y1] w1] h1], box2 as [[[x2 y2] w2] h2].
  unfold Geometry.within_32_bits, Geometry.no_overflow, Geometry.in_int64,
    Geometry.nonneg_size.
  intros (Hx1 & Hy1 & Hw1 & Hh1) (Hx2 & Hy2 & Hw2 & Hh2) [? ?] [? ?].
  assert (Ha1 : 0 <= w1 * h1 <= 2 ^ 31 * 2 ^ 31) by nia.
  assert (Ha2 : 0 <= w2 * h2 <= 2 ^ 31 * 2 ^ 31) by nia.
  assert (Hlt : w1 * h1 < 2 ^ 31 * 2 ^ 31) by nia.
  repeat split; lia.
Qed.

(** With nonnegative sizes and no wrap-around, the value is 0 for boxes
    that share no pixel and the quotient of the intersection and union
    areas for boxes that share one. *)
Lemma compute_iou_exact (box1 box2 : Box) :
  Geometry.nonneg_size box1 -> Geometry.nonneg_size box2 ->
  Geometry.no_overflow box1 box2 ->
  (~ Geometry.overlapping box1 box2 /\ _compute_iou box1 box2 = Some 0%Q)
  \/ (Geometry.overlapping box1 box2
      /\ 0 < Geometry.intersection_area box1 box2
         <= Geometry.union_area box1 box2
      /\ _compute_iou box1 box2
         = Some (inject_Z (Geometry.intersection_area box1 box2)
                 / inject_Z (Geometry.union_area box1 box2))%Q).
Proof.
  destruct box1 as [[[x1 y1] w1] h1], box2 as [[[x2 y2] w2] h2].
  unfold Geometry.nonneg_size, Geometry.no_overflow, Geometry.overlapping,
    Geometry.union_area, Geometry.intersection_area, Geometry.area,
    Geometry.inside.
  intros [Hw1 Hh1] [Hw2 Hh2]
    (Hx1 & Hy1 & Hr1 & Hb1 & Hx2 & Hy2 & Hr2 & Hb2 & Hsum).
  unfold _compute_iou.
  rewrite (int64_exact (x1 + w1)), (int64_exact (y1 + h1)),
    (int64_exact (x2 + w2)), (int64_exact (y2 + h2)) by assumption.
  unfold Geometry.in_int64 in *.
  set (ix1 := Z.max x1 x2). set (iy1 := Z.max y1 y2).
  set (ix2 := Z.min (x1 + w1) (x2 + w2)).
  set (iy2 := Z.min (y1 + h1) (y2 + h2)).
  destruct (Z.leb_spec ix2 ix1) as [Hx | Hx]; simpl.
  { left. split; [| reflexivity].
    intros (px & py & ? & ?). subst ix1 ix2. lia. }
  destruct (Z.leb_spec iy2 iy1) as [Hy | Hy]; simpl.
  { left. split; [| reflexivity].
    intros (px & py & ? & ?). subst iy1 iy2. lia. }
  right.
  assert (Hi : 0 < (ix2 - ix1) * (iy2 - iy1))
    by (apply Z.mul_pos_pos; lia).
  assert (Hdx : ix2 - ix1 <= w1 /\ ix2 - ix1 <= w2)
    by (subst ix1 ix2; lia).
  assert (Hdy : iy2 - iy1 <= h1 /\ iy2 - iy1 <= h2)
    by (subst iy1 iy2; lia).
  assert (Ha1 : (ix2 - ix1) * (iy2 - iy1) <= w1 * h1)
    by (apply Z.mul_le_mono_nonneg; lia).
  assert (Ha2 : (ix2 - ix1) * (iy2 - iy1) <= w2 * h2)
    by (apply Z.mul_le_mono_nonneg; lia).
  assert (Hw1' : w1 <= w1 * h1) by (clear - Hw1 Hdy Hy; nia).
  assert (Hh1' : h1 <= w1 * h1) by (clear - Hh1 Hdx Hx; nia).
  assert (Ha2' : 0 <= w2 * h2) by (apply Z.mul_nonneg_nonneg; lia).
  rewrite !Z.max_r by lia.
  set (inter := (ix2 - ix1) * (iy2 - iy1)) in *.
  split; [exists ix1, iy1; subst ix1 ix2 iy1 iy2; lia |].
  split; [lia |].
  rewrite (int64_exact (ix2 - ix1)) by (unfold Geometry.in_int64; lia).
  rewrite (int64_exact (iy2 - iy1)) by (unfold Geometry.in_int64; lia).
  fold inter.
  rewrite (int64_exact inter) by (unfold Geometry.in_int64; lia).
  rewrite (int64_exact (w1 * h1)) by (unfold Geometry.in_int64; lia).
  rewrite (int64_exact (w2 * h2)) by (unfold Geometry.in_int64; lia).
  rewrite (int64_exact (w1 * h1 + w2 * h2))
    by (unfold Geometry.in_int64; lia).
  rewrite (int64_exact (w1 * h1 + w2 * h2 - inter))
    by (unfold Geometry.in_int64; lia).
  destruct (Z.leb_spec (w1 * h1 + w2 * h2 - inter) 0) as [? | Hu]; [lia |].
  apply truediv_pos. assumption.
Qed.

(** C10, as the code has it.  Whatever the boxes, [_compute_iou] returns
    a value: the division is reached only with a positive union area.
    For boxes with nonnegative widths and heights whose corners and
    summed areas are values of [int64] (no operation wraps around), the
    value lies in [[0, 1]]; it is 0 when the boxes share no pixel or the
    union area is not positive, and the quotient of intersection and
    union area otherwise. *)
Theorem compute_iou_in_unit_interval (box1 box2 : Box) :
  exists v : Q,
    _compute_iou box1 box2 = Some v
    /\ (Geometry.nonneg_size box1 -> Geometry.nonneg_size box2 ->
        Geometry.no_overflow box1 box2 ->
        (0 <= v <= 1)%Q
        /\ (~ Geometry.overlapping box1 box2 -> v = 0%Q)
        /\ (Geometry.union_area box1 box2 <= 0 -> v = 0%Q)
        /\ (Geometry.overlapping box1 box2 ->
            0 < Geometry.union_area box1 box2
            /\ v = (inject_Z (Geometry.intersection_area box1 box2)
                    / inject_Z (Geometry.union_area box1 box2))%Q)).
Proof.
  exists (iou box1 box2). split; [apply compute_iou_total |].
  intros Hn1 Hn2 Hfit. unfold iou.
  destruct (compute_iou_exact box1 box2 Hn1 Hn2 Hfit)
    as [[Hno ->] | (Hov & [Hi Hu] & ->)]; cbn [default from_option id].
  - split; [lra |]. split; [reflexivity |]. split; [reflexivity |].
    intros Hov. contradiction.
  - set (inter := Geometry.intersection_area box1 box2) in *.
    set (union := Geometry.union_area box1 box2) in *.
    assert (Hq : (0 < inject_Z union)%Q)
      by (change 0%Q with (inject_Z 0); rewrite <- Zlt_Qlt; lia).
    split; [split |].
    + apply Qle_shift_div_l; [assumption |].
      rewrite Qmult_0_l. change 0%Q with (inject_Z 0).
      rewrite <- Zle_Qle. lia.
    + apply Qle_shift_div_r; [assumption |].
      rewrite Qmult_1_l. rewrite <- Zle_Qle. lia.
    + split; [| split].
      * intros Hno. contradiction.
      * lia.
      * intros _. split; [lia | reflexivity].
Qed.

Lemma compute_iou_in_unit_interval_witness :
  exists v : Q,
    _compute_iou (0, 0, 10, 10) (4, 0, 10, 10) = Some v
    /\ (0 <= v <= 1)%Q.
Proof.
  destruct (compute_iou_in_unit_interval (0, 0, 10, 10) (4, 0, 10, 10))
    as (v & Hv & Hb).
  exists v. split; [assumption |].
  apply Hb.
  - simpl. lia.
  - simpl. lia.
  - unfold Geometry.no_overflow, Geometry.in_int64. lia.
Defined.

(** Beyond that range the products wrap: a box of side [2^32 + 512] has
    the [int64] area [2^42 + 2^18], smaller than the [2^44] pixels of the
    box of side [2^22] it contains, and the value returned is close
    to 4. *)
Lemma compute_iou_wraps_around :
  Geometry.nonneg_size (0, 0, 2 ^ 22, 2 ^ 22)
  /\ Geometry.nonneg_size (0, 0, 2 ^ 32 + 512, 2 ^ 32 + 512)
  /\ Geometry.in_int64 (2 ^ 32 + 512)
  /\ _compute_iou (0, 0, 2 ^ 22, 2 ^ 22) (0, 0, 2 ^ 32 + 512, 2 ^ 32 + 512)
     = Some (inject_Z (2 ^ 44) / inject_Z (2 ^ 42 + 2 ^ 18))%Q
  /\ ~ (inject_Z (2 ^ 44) / inject_Z (2 ^ 42 + 2 ^ 18) <= 1)%Q.
Proof.
  split; [simpl; lia |]. split; [simpl; lia |].
  split; [unfold Geometry.in_int64; lia |].
  split; [vm_compute; reflexivity |].
  intros H. vm_compute in H. apply H. reflexivity.
Qed.

End IoU.

(** ** Positions in a list *)
Section Before.
Import Ranking.
Context {A : Type}.
Implicit Types (l : list A) (a b : A).

Lemma before_In l a b : before l a b -> In a l /\ In b l.
Proof.
  induction l as [| y l IH]; simpl; [tauto |].
  intros [[-> Hb] | H]; [tauto |]. apply IH in H. tauto.
Qed.

Lemma before_occurs l a b : before l a b <-> occurs_before l a b.
Proof.
  unfold occurs_before. induction l as [| y l IH]; simpl.
  - split; [tauto |]. intros (i & j & _ & Hi & _). discriminate.
  - split.
    + intros [[-> Hb] | H].
      * apply list_elem_of_In, list_elem_of_lookup in Hb as [j Hj].
        exists 0%nat, (S j). split; [lia |]. split; [reflexivity | exact Hj].
      * apply IH in H as (i & j & Hij & Hi & Hj).
        exists (S i), (S j). split; [lia |]. split; assumption.
    + intros (i & j & Hij & Hi & Hj).
      destruct j as [| j]; [lia |]. simpl in Hj.
      destruct i as [| i]; simpl in Hi.
      * left. split; [congruence |].
        apply list_elem_of_In, list_elem_of_lookup. eauto.
      * right. apply IH. exists i, j. split; [lia |]. split; assumption.
Qed.

Lemma before_firstn n l a b : before (firstn n l) a b -> before l a b.
Proof.
  revert n. induction l as [| y l IH]; intros [| n]; simpl; try tauto.
  intros [[-> Hb] | H].
  - left. split; [reflexivity |]. clear IH. revert n Hb.
    induction l as [| z l IHl]; intros [| n]; simpl; try tauto.
    intros [-> | Hb]; [tauto | right; eauto].
  - right. eapply IH, H.
Qed.

Lemma before_filter (p : A -> bool) l a b :
  before (List.filter p l) a b -> before l a b.
Proof.
  induction l as [| y l IH]; simpl; [tauto |].
  destruct (p y); simpl.
  - intros [[-> Hb] | H]; [left | right; auto].
    split; [reflexivity |]. apply filter_In in Hb. tauto.
  - intros H. right. auto.
Qed.

End Before.

Lemma before_map {A B : Type} (f : A -> B) (l : list A) (x y : B) :
  Ranking.before (map f l) x y ->
  exists a b, Ranking.before l a b /\ f a = x /\ f b = y.
Proof.
  induction l as [| c l IH]; simpl; [tauto |].
  intros [[-> Hy] | H].
  - apply in_map_iff in Hy as (b & <- & Hb).
    exists c, b. split; [left; split; [reflexivity | assumption] | tauto].
  - apply IH in H as (a & b & H & Ha & Hb).
    exists a, b. split; [right; assumption | tauto].
Qed.

(** ** The stable descending sort *)
Section SortDesc.
Import Ranking.
Context {A : Type} (key : A -> Q).
Implicit Types (l : list A) (x a b : A).

Lemma insert_desc_In x l a :
  In a (Py.insert_desc key x l) <-> a = x \/ In a l.
Proof.
  induction l as [| y l IH]; simpl.
  - intuition congruence.
  - destruct (Py.Qltb (key x) (key y)); simpl; rewrite ?IH;
      intuition congruence.
Qed.

Lemma sort_desc_In l a : In a (Py.sort_desc key l) <-> In a l.
Proof.
  induction l as [| y l IH]; simpl; [tauto |].
  rewrite insert_desc_In, IH. intuition congruence.
Qed.

Lemma sort_desc_length l : length (Py.sort_desc key l) = length l.
Proof.
  induction l as [| y l IH]; simpl; [reflexivity |].
  rewrite <- IH. generalize (Py.sort_desc key l) as s.
  induction s as [| z s IHs]; simpl; [reflexivity |].
  destruct (Py.Qltb (key y) (key z)); simpl; congruence.
Qed.

(** Where the inserted element lands relative to the others. *)
Lemma insert_desc_before x l a b :
  before (Py.insert_desc key x l) a b ->
  before l a b
  \/ (a = x /\ In b l)
  \/ (b = x /\ In a l /\ (key x < key a)%Q).
Proof.
  induction l as [| y l IH]; simpl.
  - intros [[_ []] | []].
  - destruct (Py.Qltb (key x) (key y)) eqn:E; simpl.
    + apply Qltb_true in E.
      intros [[-> Hb] | H].
      * apply insert_desc_In in Hb as [-> | Hb]; [| tauto].
        right. right. tauto.
      * apply IH in H as [H | [[-> Hb] | (-> & Ha & Hk)]]; tauto.
    + intros [[-> Hb] | H]; [| tauto].
      right. left. tauto.
Qed.

Lemma descending_tail y l : descending key (y :: l) -> descending key l.
Proof. intros H a b Hab. apply H. right. exact Hab. Qed.

Lemma insert_desc_descending x l :
  descending key l -> descending key (Py.insert_desc key x l).
Proof.
  induction l as [| y l IH]; simpl; intros Hd a b.
  - intros [[_ []] | []].
  - destruct (Py.Qltb (key x) (key y)) eqn:E; simpl.
    + apply Qltb_true in E.
      intros [[-> Hb] | H].
      * apply insert_desc_In in Hb as [-> | Hb]; [apply Qlt_le_weak, E |].
        apply Hd. left. tauto.
      * revert H. apply IH. eapply descending_tail, Hd.
    + apply Qltb_false in E.
      intros [[-> [-> | Hb]] | H]; [exact E | | apply Hd, H].
      apply Qle_trans with (key y); [| exact E].
      apply Hd. left. tauto.
Qed.

Lemma sort_desc_descending l : descending key (Py.sort_desc key l).
Proof.
  induction l as [| y l IH]; simpl.
  - intros a b [].
  - apply insert_desc_descending, IH.
Qed.

(** Stability: elements with equal keys keep their original order. *)
Lemma sort_desc_stable l a b :
  before (Py.sort_desc key l) a b -> (key a == key b)%Q -> before l a b.
Proof.
  induction l as [| y l IH]; simpl; [tauto |].
  intros H Heq.
  apply insert_desc_before in H as [H | [[-> Hb] | (-> & Ha & Hk)]].
  - right. apply IH; assumption.
  - left. split; [reflexivity |]. apply (proj1 (sort_desc_In _ _)), Hb.
  - exfalso. rewrite Heq in Hk. apply (Qlt_irrefl _ Hk).
Qed.

(** The head of the sorted list carries the largest key. *)
Lemma sort_desc_head l x rest :
  Py.sort_desc key l = x :: rest ->
  In x l /\ (forall a, In a l -> (key a <= key x)%Q).
Proof.
  intros Hs. split.
  - apply sort_desc_In. rewrite Hs. left. reflexivity.
  - intros a Ha. apply (proj2 (sort_desc_In _ _)) in Ha. rewrite Hs in Ha.
    destruct Ha as [-> | Ha]; [apply Qle_refl |].
    apply (sort_desc_descending l). rewrite Hs. left. tauto.
Qed.

(** In a descending list, once an entry falls below a bound all later
    entries do. *)
Lemma descending_filter_firstn (c : Q) (l : list A) :
  descending key l ->
  forall n,
    List.filter (fun e => Py.Qleb c (key e)) (firstn n l)
    = firstn n (List.filter (fun e => Py.Qleb c (key e)) l).
Proof.
  induction l as [| x l IH]; intros Hd n.
  - destruct n; reflexivity.
  - destruct n as [| n]; [reflexivity |].
    cbn [firstn List.filter].
    destruct (Py.Qleb c (key x)) eqn:E.
    + cbn [firstn]. f_equal. apply IH. eapply descending_tail, Hd.
    + assert (Hnone : forall l', (forall y, In y l' -> In y l) ->
                List.filter (fun e => Py.Qleb c (key e)) l' = []).
      { induction l' as [| y l' IHl']; intros Hsub; [reflexivity |].
        cbn [List.filter].
        assert (Hy : Py.Qleb c (key y) = false).
        { apply Qleb_false. apply Qleb_false in E.
          eapply Qle_lt_trans; [| exact E].
          apply Hd. left. split; [reflexivity |]. apply Hsub. left.
          reflexivity. }
        rewrite Hy. apply IHl'. intros z Hz. apply Hsub. right. exact Hz. }
      rewrite (Hnone l) by auto.
      rewrite Hnone; [destruct n; reflexivity |].
      intros y Hy. clear -Hy. revert n Hy.
      induction l as [| z l IHl]; intros [| n] Hy; simpl in Hy;
        try contradiction.
      destruct Hy as [-> | Hy]; [left; reflexivity | right; eauto].
Qed.

(** An entry of the front part of a list stands before every entry of
    the rest. *)
Lemma before_app_cross {B : Type} (l1 l2 : list B) (a b : B) :
  In a l1 -> In b l2 -> before (l1 ++ l2) a b.
Proof.
  induction l1 as [| y l1 IH]; intros Ha Hb; [contradiction |].
  destruct Ha as [-> | Ha].
  - left. split; [reflexivity |]. apply in_or_app. right. exact Hb.
  - right. apply IH; assumption.
Qed.

End SortDesc.

(** ** The similarity classifier *)
Section RecognizerProps.
Import Recognizer Ranking.
Context {Image FaceData Emb : Type}.
Variable sface_feature : Image -> option FaceData -> option Emb.
Variable sface_match : Emb -> Emb -> Q.

Local Abbreviation classify :=
  (match_face_with_confidence sface_feature sface_match).
Local Abbreviation top_matches := (get_top_matches sface_feature sface_match).
Local Abbreviation all_scores := (_compute_all_scores sface_match).
Local Abbreviation score := (best_score_for_student sface_match).

(** The running maximum of the inner loop, from any starting value. *)
Lemma running_max_spec (target : Emb) (refs : list Emb) (b0 : Q) :
  let step := fun (best : Q) (stored_emb : Emb) =>
                if Py.Qltb best (sface_match target stored_emb)
                then sface_match target stored_emb else best in
  (b0 <= fold_left step refs b0)%Q
  /\ (forall r, In r refs ->
                (sface_match target r <= fold_left step refs b0)%Q)
  /\ (fold_left step refs b0 = b0
      \/ exists r, In r refs /\ sface_match target r = fold_left step refs b0).
Proof.
  intros step. revert b0.
  induction refs as [| e refs IH]; intros b0.
  - simpl. split; [apply Qle_refl |]. split; [tauto | left; reflexivity].
  - simpl fold_left. destruct (IH (step b0 e)) as (H1 & H2 & H3).
    assert (Hstep : (b0 <= step b0 e)%Q /\ (sface_match target e <= step b0 e)%Q
                    /\ (step b0 e = b0 \/ step b0 e = sface_match target e)).
    { unfold step. destruct (Py.Qltb b0 (sface_match target e)) eqn:E.
      - apply Qltb_true in E.
        split; [apply Qlt_le_weak, E |]. split; [apply Qle_refl | tauto].
      - apply Qltb_false in E.
        split; [apply Qle_refl |]. split; [exact E | tauto]. }
    destruct Hstep as (S1 & S2 & S3).
    split; [eapply Qle_trans; eassumption |]. split.
    + intros r [<- | Hr]; [eapply Qle_trans; eassumption | auto].
    + destruct H3 as [H3 | (r & Hr & H3)].
      * rewrite H3. destruct S3 as [S3 | S3]; [left; exact S3 |].
        right. exists e. split; [left; reflexivity | symmetry; exact S3].
      * right. exists r. split; [right; exact Hr | exact H3].
Qed.

(** A positive score of a student is the largest similarity of the probe
    to the student's references; a score is never negative. *)
Lemma best_score_max (target : Emb) (refs : list Emb) :
  (0 <= score target refs)%Q
  /\ (forall r, In r refs -> (sface_match target r <= score target refs)%Q)
  /\ ((0 < score target refs)%Q ->
      max_similarity sface_match target refs (score target refs)).
Proof.
  unfold best_score_for_student.
  destruct (running_max_spec target refs 0%Q) as (H1 & H2 & H3).
  split; [exact H1 |]. split; [exact H2 |].
  intros Hpos. split; [| exact H2].
  destruct H3 as [H0 | H3]; [| exact H3].
  rewrite H0 in Hpos. exfalso. apply (Qlt_irrefl _ Hpos).
Qed.

(** Every ranked entry is the score of an enrolled student. *)
Lemma all_scores_In (self : t) (target : Emb) (e : string * Q * Info) :
  In e (all_scores self (Some target)) <->
  exists refs, In (id_of e, refs) (embeddings self)
    /\ e = (id_of e, score target refs,
            default ∅ (student_map self !! id_of e)).
Proof.
  unfold _compute_all_scores. rewrite sort_desc_In, in_map_iff. split.
  - intros ([sid refs] & <- & Hin). exists refs.
    split; [exact Hin | reflexivity].
  - intros (refs & Hin & He). exists (id_of e, refs). split; [| exact Hin].
    symmetry. exact He.
Qed.

(** C1. With the model loaded, an embedding of the probe and at least one
    enrolled student, [match_face_with_confidence] takes the largest
    student score [s] and answers by band: [s >= 0.75] gives the top
    student as RECOGNIZED, [0.50 <= s < 0.75] gives it as MAYBE, and
    [s < 0.50] gives UNKNOWN with no student; the score is returned in
    every case.  With only S1 enrolled under one reference, similarities
    of 0.80, 0.60 and 0.30 give RECOGNIZED, MAYBE and UNKNOWN. *)
Theorem classify_by_band :
  (forall (self : t) (image : Image) (face_data : option FaceData)
          (target : Emb),
      recognizer self = true ->
      sface_feature image face_data = Some target ->
      embeddings self <> [] ->
      exists (top_id : string) (refs : list Emb) (s : Q),
        In (top_id, refs) (embeddings self)
        /\ s = score target refs
        /\ (forall sid rs, In (sid, rs) (embeddings self) ->
                           (score target rs <= s)%Q)
        /\ ((0 < s)%Q -> max_similarity sface_match target refs s)
        /\ ((0.75 <= s)%Q ->
            classify self image face_data
            = (Some top_id, RECOGNIZED, s,
               default ∅ (student_map self !! top_id)))
        /\ ((0.50 <= s)%Q -> (s < 0.75)%Q ->
            classify self image face_data
            = (Some top_id, MAYBE, s,
               default ∅ (student_map self !! top_id)))
        /\ ((s < 0.50)%Q ->
            classify self image face_data = (None, UNKNOWN, s, ∅)))
  /\ (forall (self : t) (image : Image) (face_data : option FaceData)
             (target ref : Emb),
      recognizer self = true ->
      sface_feature image face_data = Some target ->
      embeddings self = [("S1"%string, [ref])] ->
      let s := sface_match target ref in
      let info := default ∅ (student_map self !! "S1"%string) in
      ((s == 0.80)%Q ->
       classify self image face_data
       = (Some "S1"%string, RECOGNIZED, s, info))
      /\ ((s == 0.60)%Q ->
          classify self image face_data = (Some "S1"%string, MAYBE, s, info))
      /\ ((s == 0.30)%Q ->
          classify self image face_data = (None, UNKNOWN, s, ∅))).
Proof.
  assert (General : forall (self : t) (image : Image)
      (face_data : option FaceData) (target : Emb),
      recognizer self = true ->
      sface_feature image face_data = Some target ->
      embeddings self <> [] ->
      exists (top_id : string) (refs : list Emb) (s : Q),
        In (top_id, refs) (embeddings self)
        /\ s = score target refs
        /\ (forall sid rs, In (sid, rs) (embeddings self) ->
                           (score target rs <= s)%Q)
        /\ ((0 < s)%Q -> max_similarity sface_match target refs s)
        /\ ((0.75 <= s)%Q ->
            classify self image face_data
            = (Some top_id, RECOGNIZED, s,
               default ∅ (student_map self !! top_id)))
        /\ ((0.50 <= s)%Q -> (s < 0.75)%Q ->
            classify self image face_data
            = (Some top_id, MAYBE, s,
               default ∅ (student_map self !! top_id)))
        /\ ((s < 0.50)%Q ->
            classify self image face_data = (None, UNKNOWN, s, ∅))).
  { intros self image face_data target Hrec Hemb Hne.
    destruct (all_scores self (Some target)) as [| top rest] eqn:Hs.
    { exfalso. apply Hne.
      apply (f_equal (@length _)) in Hs. unfold _compute_all_scores in Hs.
      rewrite sort_desc_length, length_map in Hs.
      destruct (embeddings self); [reflexivity | discriminate]. }
    pose proof Hs as Hhead. unfold _compute_all_scores in Hhead.
    apply sort_desc_head in Hhead as [_ Hmax].
    assert (Htop : In top (all_scores self (Some target)))
      by (rewrite Hs; left; reflexivity).
    apply all_scores_In in Htop as (refs & Hin & Htop).
    destruct top as [[top_id s] info].
    unfold id_of in Hin, Htop. simpl in Hin, Htop.
    injection Htop as Hscore Hinfo.
    exists top_id, refs, s.
    split; [exact Hin |]. split; [exact Hscore |]. split.
    { intros sid rs Hrs.
      apply (Hmax (sid, score target rs,
                   default ∅ (student_map self !! sid))).
      apply in_map_iff. exists (sid, rs). split; [reflexivity | exact Hrs]. }
    split.
    { intros Hpos. rewrite Hscore in Hpos |- *.
      apply best_score_max. exact Hpos. }
    unfold match_face_with_confidence, _generate_embedding.
    rewrite Hrec, Hemb. simpl negb. cbv iota. rewrite Hs.
    rewrite <- Hinfo.
    split; [| split].
    - intros Hhigh. apply Qleb_true in Hhigh.
      unfold HIGH_CONFIDENCE. rewrite Hhigh. reflexivity.
    - intros Hlow Hhigh. apply Qleb_true in Hlow. apply Qleb_false in Hhigh.
      unfold HIGH_CONFIDENCE, LOW_CONFIDENCE. rewrite Hhigh, Hlow.
      reflexivity.
    - intros Hlow.
      assert (Hhigh : (s < 0.75)%Q) by lra.
      apply Qleb_false in Hlow. apply Qleb_false in Hhigh.
      unfold HIGH_CONFIDENCE, LOW_CONFIDENCE. rewrite Hhigh, Hlow.
      reflexivity. }
  split; [exact General |].
  intros self image face_data target ref Hrec Hemb Hone s info.
  destruct (General self image face_data target Hrec Hemb)
    as (top_id & refs & s' & Hin & Hs' & _ & _ & Hhi & Hmid & Hlo).
  { rewrite Hone. discriminate. }
  rewrite Hone in Hin. destruct Hin as [Hin | []].
  injection Hin as <- <-.
  assert (Hval : (0 < s)%Q -> s' = s).
  { intros Hpos. rewrite Hs'. unfold best_score_for_student. simpl.
    fold s. apply Qltb_true in Hpos. rewrite Hpos. reflexivity. }
  fold info in Hhi, Hmid.
  split; [| split]; intros Heq;
    (rewrite <- Hval by (rewrite Heq; reflexivity)).
  - apply Hhi. rewrite Hval by (rewrite Heq; reflexivity).
    rewrite Heq. discriminate.
  - apply Hmid; rewrite Hval by (rewrite Heq; reflexivity);
      rewrite Heq; [discriminate | reflexivity].
  - apply Hlo. rewrite Hval by (rewrite Heq; reflexivity).
    rewrite Heq. reflexivity.
Qed.

(** C8, as the code has it.  For a requested count [top_n >= 0],
    [get_top_matches] returns at most [top_n] entries, each an enrolled
    student with a score of at least 0.40 that is the largest similarity
    of the probe to the student's references; the entries are in
    descending order of score, and entries of equal score stand in
    enrollment order.  The list is the whole answer: it is the first
    [top_n] entries of the ranking that reach 0.40, so an enrolled
    student who reaches 0.40 is missing only from a list of [top_n]
    entries that all score at least as much. *)
Theorem top_matches_ranked (self : t) (image : Image)
    (face_data : option FaceData) (top_n : Z) :
  0 <= top_n ->
  Z.of_nat (length (top_matches self image face_data top_n)) <= top_n
  /\ (forall e, In e (top_matches self image face_data top_n) ->
        (0.40 <= score_of e)%Q
        /\ exists target refs,
             _generate_embedding sface_feature self image face_data
             = Some target
             /\ In (id_of e, refs) (embeddings self)
             /\ max_similarity sface_match target refs (score_of e))
  /\ (forall a b,
        occurs_before (top_matches self image face_data top_n) a b ->
        (score_of b <= score_of a)%Q
        /\ ((score_of a == score_of b)%Q ->
            enrolled_before (embeddings self) (id_of a) (id_of b)))
  /\ (forall target,
        _generate_embedding sface_feature self image face_data
        = Some target ->
        top_matches self image face_data top_n
        = firstn (Z.to_nat top_n)
            (List.filter (fun entry => Py.Qleb 0.40 (score_of entry))
               (all_scores self (Some target)))
        /\ forall sid refs,
             In (sid, refs) (embeddings self) ->
             (0.40 <= score target refs)%Q ->
             In (sid, score target refs, default ∅ (student_map self !! sid))
               (top_matches self image face_data top_n)
             \/ (Z.of_nat (length (top_matches self image face_data top_n))
                 = top_n
                 /\ forall e,
                      In e (top_matches self image face_data top_n) ->
                      (score target refs <= score_of e)%Q)).
Proof.
  intros Hn. unfold get_top_matches.
  destruct (recognizer self) eqn:Hrec; simpl negb; cbv iota.
  2: { split; [simpl; lia |]. split; [intros e [] |].
       split; [intros a b (i & j & _ & Hi & _); discriminate |].
       intros target Hemb. unfold _generate_embedding in Hemb.
       rewrite Hrec in Hemb. discriminate. }
  destruct (_generate_embedding sface_feature self image face_data)
    as [target |] eqn:Hemb.
  2: { split; [simpl; lia |]. split; [intros e [] |].
       split; [intros a b (i & j & _ & Hi & _); discriminate |].
       intros target Hsome. discriminate. }
  unfold Py.slice_to. destruct (Z.leb_spec 0 top_n) as [_ | ?]; [| lia].
  set (ranked := all_scores self (Some target)).
  split; [| split; [| split]].
  - pose proof (filter_length_le
      (fun entry => Py.Qleb MIN_CONFIDENCE (score_of entry))
      (firstn (Z.to_nat top_n) ranked)) as H1.
    pose proof (firstn_le_length (Z.to_nat top_n) ranked) as H2.
    lia.
  - intros e He. apply filter_In in He as [He Hmin].
    apply Qleb_true in Hmin. unfold MIN_CONFIDENCE in Hmin.
    split; [exact Hmin |].
    assert (Hin : In e ranked).
    { apply list_elem_of_In. apply list_elem_of_In in He.
      apply elem_of_take in He as (i & Hi & _).
      apply list_elem_of_lookup. eauto. }
    apply all_scores_In in Hin as (refs & Hin & Heq).
    exists target, refs. split; [reflexivity |]. split; [exact Hin |].
    assert (Hs : score_of e = score target refs)
      by (rewrite Heq at 1; reflexivity).
    rewrite Hs. apply best_score_max. rewrite <- Hs. lra.
  - intros a b Hab. apply before_occurs in Hab.
    apply before_filter, before_firstn in Hab.
    split.
    + apply (sort_desc_descending score_of _ a b Hab).
    + intros Heq. unfold ranked, _compute_all_scores in Hab.
      apply sort_desc_stable in Hab; [| exact Heq].
      apply before_map in Hab as ([x rx] & [y ry] & Hxy & <- & <-).
      exists rx, ry. apply before_occurs. exact Hxy.
  - intros target' [= <-]. fold ranked.
    assert (Hdesc : descending score_of ranked)
      by (unfold ranked, _compute_all_scores; apply sort_desc_descending).
    unfold MIN_CONFIDENCE.
    rewrite (descending_filter_firstn score_of 0.40 ranked Hdesc).
    set (passed := List.filter (fun entry => Py.Qleb 0.40 (score_of entry))
                     ranked).
    split; [reflexivity |].
    intros sid refs Hin Hmin.
    set (x := (sid, score target refs, default ∅ (student_map self !! sid))).
    assert (Hx : In x passed).
    { apply filter_In. split.
      - apply all_scores_In. exists refs. split; [exact Hin | reflexivity].
      - apply Qleb_true. exact Hmin. }
    rewrite <- (firstn_skipn (Z.to_nat top_n) passed) in Hx.
    apply in_app_or in Hx as [Hx | Hx]; [left; exact Hx | right].
    assert (Hlen : (Z.to_nat top_n < length passed)%nat).
    { destruct (Nat.lt_ge_cases (Z.to_nat top_n) (length passed)) as [? | Hge];
        [assumption |].
      rewrite skipn_all2 in Hx by exact Hge. contradiction. }
    split; [rewrite length_firstn; lia |].
    intros e He.
    assert (Hb : before passed e x).
    { rewrite <- (firstn_skipn (Z.to_nat top_n) passed).
      apply before_app_cross; assumption. }
    apply before_filter in Hb.
    apply (Hdesc e x Hb).
Qed.

End RecognizerProps.

(** The scenario of the specification: S1 alone, one reference, and a
    probe at similarity 0.80. *)
Lemma classify_by_band_witness :
  Recognizer.match_face_with_confidence
    (fun (_ : unit) (_ : option unit) => Some tt) (fun _ _ => 0.80%Q)
    {| Recognizer.recognizer := true;
       Recognizer.embeddings := [("S1"%string, [tt])];
       Recognizer.student_map := ∅ |} tt None
  = (Some "S1"%string, Recognizer.RECOGNIZED, 0.80%Q, ∅).
Proof.
  refine (proj1 (proj2 (classify_by_band
                          (fun (_ : unit) (_ : option unit) => Some tt)
                          (fun _ _ => 0.80%Q))
                   {| Recognizer.recognizer := true;
                      Recognizer.embeddings := [("S1"%string, [tt])];
                      Recognizer.student_map := ∅ |} tt None tt tt
                   eq_refl eq_refl eq_refl) _).
  reflexivity.
Defined.

Lemma top_matches_ranked_witness :
  Z.of_nat (length (Recognizer.get_top_matches
    (fun (_ : unit) (_ : option unit) => Some 1%Q)
    (fun (_ : Q) (r : Q) => r)
    {| Recognizer.recognizer := true;
       Recognizer.embeddings :=
         [("S1"%string, [0.9%Q]); ("S2"%string, [0.3%Q; 0.7%Q]);
          ("S3"%string, [0.7%Q])];
       Recognizer.student_map := ∅ |} tt None 2)) <= 2.
Proof.
  destruct (top_matches_ranked
              (fun (_ : unit) (_ : option unit) => Some 1%Q)
              (fun (_ : Q) (r : Q) => r)
              {| Recognizer.recognizer := true;
                 Recognizer.embeddings :=
                   [("S1"%string, [0.9%Q]); ("S2"%string, [0.3%Q; 0.7%Q]);
                    ("S3"%string, [0.7%Q])];
                 Recognizer.student_map := ∅ |} tt None 2) as [Hlen _];
    [lia | exact Hlen].
Defined.

(** A negative count is a Python slice from the end: of four ranked
    students, [top_n = -2] keeps the first two, and a list is never of
    length at most -2. *)
Lemma top_matches_negative_count :
  map Recognizer.id_of
    (Recognizer.get_top_matches
       (fun (_ : unit) (_ : option unit) => Some 1%Q)
       (fun (_ : Q) (r : Q) => r)
       {| Recognizer.recognizer := true;
          Recognizer.embeddings :=
            [("S3"%string, [0.7%Q]); ("S1"%string, [0.9%Q]);
             ("S2"%string, [0.3%Q; 0.7%Q]); ("S4"%string, [0.35%Q])];
          Recognizer.student_map := ∅ |} tt None (-2))
  = ["S1"; "S3"]%string
  /\ ~ Z.of_nat
        (length
           (Recognizer.get_top_matches
              (fun (_ : unit) (_ : option unit) => Some 1%Q)
              (fun (_ : Q) (r : Q) => r)
              {| Recognizer.recognizer := true;
                 Recognizer.embeddings :=
                   [("S3"%string, [0.7%Q]); ("S1"%string, [0.9%Q]);
                    ("S2"%string, [0.3%Q; 0.7%Q]); ("S4"%string, [0.35%Q])];
                 Recognizer.student_map := ∅ |} tt None (-2))) <= -2.
Proof.
  split; [vm_compute; reflexivity | lia].
Qed.

(** Three students; S2 and S3 tie at 0.7 and keep their enrollment order.
    A negative bound is a Python slice from the end: it drops the last of
    the three ranked students. *)
Example top_matches_example :
  let self :=
    {| Recognizer.recognizer := true;
       Recognizer.embeddings :=
         [("S3"%string, [0.7%Q]); ("S1"%string, [0.9%Q]);
          ("S2"%string, [0.3%Q; 0.7%Q]); ("S4"%string, [0.35%Q])];
       Recognizer.student_map := ∅ |} in
  let top n :=
    map Recognizer.id_of
      (Recognizer.get_top_matches
         (fun (_ : unit) (_ : option unit) => Some 1%Q)
         (fun (_ : Q) (r : Q) => r) self tt None n) in
  top 3 = ["S1"; "S3"; "S2"]%string
  /\ top 4 = ["S1"; "S3"; "S2"]%string
  /\ top 1 = ["S1"]%string
  /\ top (-2) = ["S1"; "S3"]%string.
Proof. repeat split; vm_compute; reflexivity. Qed.

(** ** The attendance decision engine *)
Section AttendanceProps.
Import AttendanceManager.
Implicit Types (self s : t) (c : Call) (id : Py.value).

(** [self.last_marked.get(student_id, 0)]. *)
Local Abbreviation last_time self id := (default 0%Q (last_marked self !! id)).

(** What one call does, by cases. *)
Lemma mark_cases self c :
  let now := time_time (call_clock c) in
  let id := call_student_id c in
  ((now - last_time self id < cooldown_seconds self)%Q
   /\ fst (mark self c) = self /\ fst (snd (mark self c)) = false)
  \/ ((cooldown_seconds self <= now - last_time self id)%Q
      /\ is_Some (db self) /\ call_insert_ok c = false
      /\ mark self c = (self, (false, Database_Error)))
  \/ ((cooldown_seconds self <= now - last_time self id)%Q
      /\ (db self = None \/ call_insert_ok c = true)
      /\ snd (mark self c) = (true, Marked_Present)
      /\ cooldown_seconds (fst (mark self c)) = cooldown_seconds self
      /\ last_marked (fst (mark self c)) = <[id := now]> (last_marked self)).
Proof.
  intros now id. unfold mark, mark_attendance. fold now id.
  destruct (Py.Qltb (now - last_time self id) (cooldown_seconds self)) eqn:E.
  - apply Qltb_true in E. left. tauto.
  - apply Qltb_false in E. right.
    destruct (db self) as [rows |] eqn:Hdb.
    + unfold db_mark_attendance.
      destruct (call_insert_ok c) eqn:Hok; simpl.
      * right. tauto.
      * left. split; [exact E |]. split; [eexists; reflexivity | tauto].
    + right. simpl. tauto.
Qed.

Lemma mark_cooldown_seconds self c :
  cooldown_seconds (fst (mark self c)) = cooldown_seconds self.
Proof.
  destruct (mark_cases self c) as [(_ & -> & _) | [(_ & _ & _ & ->) |
    (_ & _ & _ & H & _)]]; [reflexivity | reflexivity | exact H].
Qed.

Lemma after_calls_cooldown_seconds calls self :
  cooldown_seconds (after_calls self calls) = cooldown_seconds self.
Proof.
  revert self. induction calls as [| c calls IH]; intros self; simpl.
  - reflexivity.
  - unfold after_calls in IH |- *. simpl. rewrite IH.
    apply mark_cooldown_seconds.
Qed.

Lemma mark_keeps_marked_since self c id t1 :
  marked_since (cooldown_seconds self) id t1 self ->
  marked_since (cooldown_seconds self) id t1 (fst (mark self c)).
Proof.
  intros (last & Hlast & Hge).
  destruct (mark_cases self c) as [(_ & -> & _) | [(_ & _ & _ & ->) |
    (Hcd & _ & _ & _ & Hlm)]];
    [exists last; tauto | exists last; tauto |].
  unfold marked_since. rewrite Hlm.
  destruct (decide (call_student_id c = id)) as [Heq | Hne].
  - rewrite Heq, lookup_insert_eq. eexists. split; [reflexivity |].
    intros Hpos. specialize (Hge Hpos).
    rewrite Heq, Hlast in Hcd. simpl in Hcd. lra.
  - rewrite lookup_insert_ne by exact Hne. exists last. tauto.
Qed.

Lemma after_calls_keeps_marked_since calls self id t1 :
  marked_since (cooldown_seconds self) id t1 self ->
  marked_since (cooldown_seconds self) id t1 (after_calls self calls).
Proof.
  revert self. induction calls as [| c calls IH]; intros self H; simpl.
  - exact H.
  - unfold after_calls in IH |- *. simpl.
    rewrite <- (mark_cooldown_seconds self c). apply IH.
    rewrite mark_cooldown_seconds. apply mark_keeps_marked_since, H.
Qed.

(** C2, as the code has it.  In any sequence of [mark_attendance] calls
    on one manager, two calls for the same student that both succeed lie
    at least [cooldown_seconds] apart; and the first call for a student
    without an entry in the cooldown table succeeds when the database
    write succeeds (or there is no database) and the clock, in seconds
    since the epoch, has reached [cooldown_seconds]: an absent entry is
    read as time 0.  Marks of an earlier run enter only through the
    entries [__init__] seeds, which the statement takes as it finds
    them. *)
Theorem cooldown_between_marks :
  (forall self (pre mid : list Call) (c1 c2 : Call),
      let s1 := after_calls self pre in
      let s2 := after_calls (fst (mark s1 c1)) mid in
      let t1 := time_time (call_clock c1) in
      let t2 := time_time (call_clock c2) in
      call_student_id c1 = call_student_id c2 ->
      fst (snd (mark s1 c1)) = true ->
      fst (snd (mark s2 c2)) = true ->
      (cooldown_seconds self <= Qabs (t2 - t1))%Q
      /\ ((0 <= cooldown_seconds self)%Q ->
          (cooldown_seconds self <= t2 - t1)%Q))
  /\ (forall self (c : Call),
      last_marked self !! call_student_id c = None ->
      db self = None \/ call_insert_ok c = true ->
      (cooldown_seconds self <= time_time (call_clock c))%Q ->
      snd (mark self c) = (true, Marked_Present)).
Proof.
  split.
  - intros self pre mid c1 c2 s1 s2 t1 t2 Hid Hok1 Hok2.
    set (cd := cooldown_seconds self).
    assert (Hcd1 : cooldown_seconds s1 = cd)
      by apply after_calls_cooldown_seconds.
    assert (Hcd1' : cooldown_seconds (fst (mark s1 c1)) = cd)
      by (rewrite mark_cooldown_seconds; exact Hcd1).
    assert (Hcd2 : cooldown_seconds s2 = cd)
      by (unfold s2; rewrite after_calls_cooldown_seconds; exact Hcd1').
    assert (Hm1 : marked_since cd (call_student_id c1) t1 (fst (mark s1 c1))).
    { destruct (mark_cases s1 c1) as [(_ & _ & H) | [(_ & _ & _ & H) |
        (_ & _ & _ & _ & Hlm)]].
      - rewrite H in Hok1. discriminate.
      - rewrite H in Hok1. discriminate.
      - exists t1. rewrite Hlm, lookup_insert_eq.
        split; [reflexivity | intros _; apply Qle_refl]. }
    assert (Hm2 : marked_since cd (call_student_id c1) t1 s2).
    { unfold s2. rewrite <- Hcd1'.
      apply after_calls_keeps_marked_since. rewrite Hcd1'. exact Hm1. }
    destruct Hm2 as (last & Hlast & Hge).
    assert (Hgap : (cd <= t2 - last)%Q).
    { destruct (mark_cases s2 c2) as [(_ & _ & H) | [(_ & _ & _ & H) |
        (Hgap & _)]].
      - rewrite H in Hok2. discriminate.
      - rewrite H in Hok2. discriminate.
      - rewrite <- Hid, Hlast, Hcd2 in Hgap. exact Hgap. }
    assert (Hpos : (0 <= cd)%Q -> (cd <= t2 - t1)%Q).
    { intros H0. specialize (Hge H0). lra. }
    split; [| exact Hpos].
    destruct (Qlt_le_dec cd 0) as [Hneg | H0].
    + apply Qle_trans with 0%Q; [lra | apply Qabs_nonneg].
    + apply Qle_trans with (t2 - t1)%Q; [auto | apply Qle_Qabs].
  - intros self c Hnone Hdb Hclock.
    destruct (mark_cases self c) as [(Hcd & _) | [(_ & [rows Hrows] & Hok & _) |
      (_ & _ & H & _)]].
    + exfalso. rewrite Hnone in Hcd. simpl in Hcd. lra.
    + exfalso. destruct Hdb as [Hdb | Hdb]; congruence.
    + exact H.
Qed.

(** C4. When the database write of [mark_attendance] fails, the call
    returns failure and the manager is unchanged: cooldown table, today's
    log and database are as before, so a retry at the same or a later
    time whose write succeeds is accepted.  More generally every call
    that returns failure leaves the manager unchanged. *)
Theorem failed_write_mutates_nothing self (c : Call) :
  is_Some (db self) ->
  call_insert_ok c = false ->
  (cooldown_seconds self
   <= time_time (call_clock c) - last_time self (call_student_id c))%Q ->
  mark self c = (self, (false, Database_Error))
  /\ last_marked (fst (mark self c)) = last_marked self
  /\ today_log (fst (mark self c)) = today_log self
  /\ (forall retry : Call,
        call_student_id retry = call_student_id c ->
        call_insert_ok retry = true ->
        (time_time (call_clock c) <= time_time (call_clock retry))%Q ->
        snd (mark (fst (mark self c)) retry) = (true, Marked_Present))
  /\ (forall (s : t) (c' : Call),
        fst (snd (mark s c')) = false -> fst (mark s c') = s).
Proof.
  intros Hdb Hok Hcd.
  assert (Hfail : mark self c = (self, (false, Database_Error))).
  { destruct (mark_cases self c) as [(Hlt & _) | [(_ & _ & _ & H) |
      (_ & [Hnone | Htrue] & _)]].
    - exfalso. lra.
    - exact H.
    - rewrite Hnone in Hdb. destruct Hdb as [? Hdb]. discriminate.
    - congruence. }
  rewrite Hfail. simpl. repeat split.
  - intros retry Hid Hrok Hlater.
    destruct (mark_cases self retry) as [(Hlt & _) | [(_ & _ & Hf & _) |
      (_ & _ & H & _)]].
    + exfalso. rewrite Hid in Hlt. lra.
    + congruence.
    + exact H.
  - intros s c' Hfalse.
    destruct (mark_cases s c') as [(_ & H & _) | [(_ & _ & _ & H) |
      (_ & _ & H & _)]].
    + exact H.
    + rewrite H. reflexivity.
    + rewrite H in Hfalse. discriminate.
Qed.

(** C9. For a falsy student id ([None], the empty string, 0) the decision
    engine never answers COOLDOWN and leaves [can_mark] true, whatever
    the cooldown table holds for that id; COOLDOWN is answered exactly
    for a truthy id inside its cooldown window. *)
Theorem falsy_id_skips_cooldown self (now confidence : Q) id :
  (Py.truthy id = false ->
   action (should_mark_attendance self now confidence id) <> COOLDOWN
   /\ can_mark (should_mark_attendance self now confidence id) = true)
  /\ (action (should_mark_attendance self now confidence id) = COOLDOWN <->
      Py.truthy id = true
      /\ (now - last_time self id < cooldown_seconds self)%Q)
  /\ (can_mark (should_mark_attendance self now confidence id) = false <->
      action (should_mark_attendance self now confidence id) = COOLDOWN)
  /\ Py.truthy Py.None_ = false
  /\ Py.truthy (Py.Str EmptyString) = false
  /\ Py.truthy (Py.Int 0) = false.
Proof.
  assert (Hband : forall r,
    action (decide_by_confidence r confidence) <> COOLDOWN
    /\ can_mark (decide_by_confidence r confidence) = can_mark r).
  { intros r. unfold decide_by_confidence.
    destruct (Py.Qleb HIGH_CONFIDENCE confidence);
      [| destruct (Py.Qleb LOW_CONFIDENCE confidence)];
      simpl; split; congruence. }
  unfold should_mark_attendance.
  destruct (Py.truthy id) eqn:Ht.
  - destruct (Py.Qltb (now - last_time self id) (cooldown_seconds self)) eqn:E.
    + apply Qltb_true in E. simpl.
      repeat split; try reflexivity; try discriminate; tauto.
    + pose proof E as E'. apply Qltb_false in E'.
      match goal with
      | |- context [decide_by_confidence ?r _] => destruct (Hband r) as [Ha Hc]
      end.
      rewrite Hc. simpl.
      repeat split; try reflexivity; try discriminate; try tauto.
      intros [_ Hlt]. exfalso. lra.
  - match goal with
    | |- context [decide_by_confidence ?r _] => destruct (Hband r) as [Ha Hc]
    end.
    rewrite Hc. simpl.
    repeat split; try reflexivity; try discriminate; try tauto.
    intros [Hf _]. discriminate.
Qed.

End AttendanceProps.

Lemma cooldown_between_marks_witness :
  snd (AttendanceManager.mark Scripted.fresh_manager
         (Scripted.call_at 1762000000 true))
  = (true, AttendanceManager.Marked_Present).
Proof.
  apply (proj2 cooldown_between_marks Scripted.fresh_manager
           (Scripted.call_at 1762000000 true)).
  - reflexivity.
  - left. reflexivity.
  - vm_compute. discriminate.
Defined.

(** The scenario of the specification: two marks ten seconds apart. *)
Example second_mark_within_cooldown :
  let first :=
    AttendanceManager.mark Scripted.fresh_manager
      (Scripted.call_at 1762000000 true) in
  let second :=
    AttendanceManager.mark (fst first) (Scripted.call_at 1762000010 true) in
  snd first = (true, AttendanceManager.Marked_Present)
  /\ snd second = (false, AttendanceManager.Already_Marked_Wait 890)
  /\ fst second = fst first.
Proof. vm_compute. repeat split. Qed.

(** An absent entry of the cooldown table reads as time 0: on a clock
    that has not yet reached [cooldown_seconds], the first mark of a
    student on a manager without history is refused, although the write
    to the database would succeed. *)
Lemma first_mark_on_early_clock :
  AttendanceManager.last_marked (AttendanceManager.init 900 (Some []) [])
  !! Py.Str "S1" = None
  /\ AttendanceManager.today_log (AttendanceManager.init 900 (Some []) [])
     = []
  /\ AttendanceManager.call_insert_ok (Scripted.call_at 100 true) = true
  /\ AttendanceManager.mark (AttendanceManager.init 900 (Some []) [])
       (Scripted.call_at 100 true)
     = (AttendanceManager.init 900 (Some []) [],
        (false, AttendanceManager.Already_Marked_Wait 800)).
Proof. repeat split. Qed.

(** Start-up keeps the earliest mark of the day.  The history comes
    ordered by time, latest first, and in the loop of [__init__] a later
    record overwrites the entry of an earlier one: after marks at
    09:00:00 and 09:20:00 the table holds the time of the first, and a
    call one minute after the second is accepted. *)
Example restart_seeds_earliest_mark :
  let record_at time :=
    {| AttendanceManager.rec_id := Py.Str "S1";
       AttendanceManager.rec_name := "Ada";
       AttendanceManager.rec_time := time;
       AttendanceManager.rec_status := "Present";
       AttendanceManager.rec_confidence := AttendanceManager.Number 0.9;
       AttendanceManager.rec_marked_by := "face_recognition" |} in
  let self :=
    AttendanceManager.init 900 (Some [])
      [(record_at "09:20:00"%string, Some 1762001200%Q);
       (record_at "09:00:00"%string, Some 1762000000%Q)] in
  AttendanceManager.last_marked self !! Py.Str "S1" = Some 1762000000%Q
  /\ snd (AttendanceManager.mark self (Scripted.call_at 1762001260 true))
     = (true, AttendanceManager.Marked_Present).
Proof. vm_compute. split; reflexivity. Qed.

Lemma failed_write_mutates_nothing_witness :
  let self := AttendanceManager.init 900 (Some []) [] in
  AttendanceManager.mark self (Scripted.call_at 1762000000 false)
  = (self, (false, AttendanceManager.Database_Error)).
Proof.
  apply (failed_write_mutates_nothing
           (AttendanceManager.init 900 (Some []) [])
           (Scripted.call_at 1762000000 false)).
  - eexists. reflexivity.
  - reflexivity.
  - vm_compute. discriminate.
Defined.

Lemma falsy_id_skips_cooldown_witness :
  let self :=
    fst (AttendanceManager.mark_attendance Scripted.fresh_manager
           {| AttendanceManager.time_time := 1762000000;
              AttendanceManager.clock_hms := "09:00:00";
              AttendanceManager.clock_date := "2026-11-03" |}
           true (Py.Int 0) "Zero" 0.9 "face_recognition") in
  AttendanceManager.last_marked self !! Py.Int 0 = Some 1762000000%Q
  /\ AttendanceManager.action
       (AttendanceManager.should_mark_attendance self 1762000001 0.9
          (Py.Int 0))
     <> AttendanceManager.COOLDOWN.
Proof.
  split; [vm_compute; reflexivity |].
  apply (proj1 (falsy_id_skips_cooldown _ 1762000001 0.9 (Py.Int 0))).
  reflexivity.
Defined.

(** ** Head pose and the capture gate *)
Section PoseProps.
Import Detector FaceValidator Poses.
Local Open Scope Q_scope.

Lemma Qeq_bool_false (a b : Q) : Qeq_bool a b = false -> ~ a == b.
Proof. intros H Heq. apply Qeq_eq_bool in Heq. congruence. Qed.

(** The ratio [calculate_pose] computes: nose-to-left-eye distance minus
    nose-to-right-eye distance, over their sum. *)
Lemma calculate_pose_ratio (lm : Landmarks) :
  calculate_pose lm
  == (horizontal_distance (nose lm) (left_eye lm)
      - horizontal_distance (nose lm) (right_eye lm))
     / (horizontal_distance (nose lm) (left_eye lm)
        + horizontal_distance (nose lm) (right_eye lm)).
Proof.
  unfold calculate_pose, horizontal_distance.
  rewrite (Qabs_Qminus (fst (left_eye lm)) (fst (nose lm))).
  set (dl := Qabs (fst (nose lm) - fst (left_eye lm))).
  set (dr := Qabs (fst (nose lm) - fst (right_eye lm))).
  destruct (Qeq_bool (dr + dl) 0) eqn:E.
  - apply Qeq_bool_eq in E.
    assert (H : dl + dr == 0) by (rewrite <- E; ring).
    rewrite H. unfold Qdiv. change (/ 0) with 0. ring.
  - apply Qeq_bool_false in E.
    assert (H : dr + dl == dl + dr) by ring.
    rewrite H. reflexivity.
Qed.

Lemma pose_gate_front (yaw : Q) :
  fst (CaptureManager.pose_gate (Some "front"%string) yaw) = true
  <-> Qabs yaw < 0.2.
Proof.
  unfold CaptureManager.pose_gate. simpl String.eqb. cbv iota.
  rewrite Qabs_Qlt_condition.
  destruct (Py.Qltb (-0.2) yaw) eqn:E1; destruct (Py.Qltb yaw 0.2) eqn:E2;
    simpl; rewrite ?Qltb_true, ?Qltb_false in *;
    (split; [intros H; try discriminate; split; assumption
            | intros [H1 H2]; try reflexivity; exfalso; lra]).
Qed.

Lemma pose_gate_left (yaw : Q) :
  fst (CaptureManager.pose_gate (Some "left"%string) yaw) = true
  <-> 0.4 < yaw.
Proof.
  unfold CaptureManager.pose_gate. simpl String.eqb. cbv iota.
  destruct (Py.Qltb 0.4 yaw) eqn:E; simpl;
    rewrite ?Qltb_true, ?Qltb_false in *;
    (split; [intros H; try discriminate; assumption
            | intros H; try reflexivity; exfalso; lra]).
Qed.

Lemma pose_gate_right (yaw : Q) :
  fst (CaptureManager.pose_gate (Some "right"%string) yaw) = true
  <-> yaw < -0.4.
Proof.
  unfold CaptureManager.pose_gate. simpl String.eqb. cbv iota.
  destruct (Py.Qltb yaw (-0.4)) eqn:E; simpl;
    rewrite ?Qltb_true, ?Qltb_false in *;
    (split; [intros H; try discriminate; assumption
            | intros H; try reflexivity; exfalso; lra]).
Qed.

(** C6, as the code has it.  The yaw is the nose-to-left-eye distance
    minus the nose-to-right-eye distance over their sum (horizontal
    distances; 0 when both vanish), which is the negation of the ratio
    with the two distances exchanged; it lies in [[-1, 1]].  The pose
    gate passes exactly for
    [|yaw| < 0.2] (front), [yaw > 0.4] (left) and [yaw < -0.4] (right). *)
Theorem yaw_ratio_and_pose_gate :
  (forall lm : Landmarks,
      let leftEyeDist := horizontal_distance (nose lm) (left_eye lm) in
      let rightEyeDist := horizontal_distance (nose lm) (right_eye lm) in
      calculate_pose lm
      == (leftEyeDist - rightEyeDist) / (leftEyeDist + rightEyeDist)
      /\ (leftEyeDist + rightEyeDist == 0 -> calculate_pose lm = 0)
      /\ calculate_pose lm == - claimed_yaw lm
      /\ -1 <= calculate_pose lm <= 1)
  /\ (forall yaw : Q,
      (fst (CaptureManager.pose_gate (Some "front"%string) yaw) = true
       <-> Qabs yaw < 0.2)
      /\ (fst (CaptureManager.pose_gate (Some "left"%string) yaw) = true
          <-> 0.4 < yaw)
      /\ (fst (CaptureManager.pose_gate (Some "right"%string) yaw) = true
          <-> yaw < -0.4)).
Proof.
  split.
  - intros lm leftEyeDist rightEyeDist.
    pose proof (calculate_pose_ratio lm) as Hr.
    fold leftEyeDist rightEyeDist in Hr.
    assert (Hl : 0 <= leftEyeDist) by apply Qabs_nonneg.
    assert (Hrt : 0 <= rightEyeDist) by apply Qabs_nonneg.
    split; [exact Hr |]. split; [| split].
    + intros Hz. unfold calculate_pose.
      unfold horizontal_distance in leftEyeDist, rightEyeDist.
      rewrite (Qabs_Qminus (fst (left_eye lm)) (fst (nose lm))).
      fold leftEyeDist rightEyeDist.
      assert (Hz' : rightEyeDist + leftEyeDist == 0) by (rewrite <- Hz; ring).
      apply Qeq_eq_bool in Hz'. rewrite Hz'. reflexivity.
    + rewrite Hr. unfold claimed_yaw. fold leftEyeDist rightEyeDist.
      unfold Qdiv.
      assert (Hs : rightEyeDist + leftEyeDist == leftEyeDist + rightEyeDist)
        by ring.
      rewrite Hs. ring.
    + rewrite Hr.
      destruct (Qeq_dec (leftEyeDist + rightEyeDist) 0) as [Hz | Hnz].
      * rewrite Hz. unfold Qdiv. change (/ 0) with 0.
        rewrite Qmult_0_r. split; discriminate.
      * assert (Hpos : 0 < leftEyeDist + rightEyeDist).
        { destruct (Qlt_le_dec 0 (leftEyeDist + rightEyeDist)) as [? | Hle];
            [assumption | exfalso; apply Hnz; lra]. }
        split.
        -- apply Qle_shift_div_l; [exact Hpos | lra].
        -- apply Qle_shift_div_r; [exact Hpos | lra].
  - intros yaw. split; [apply pose_gate_front |].
    split; [apply pose_gate_left | apply pose_gate_right].
Qed.

(** On [turned_face] the code reports a yaw of 3/5; the ratio taken with
    [rightDist] to the right eye and [leftDist] to the left eye is -3/5. *)
Lemma yaw_ratio_counterexample :
  ~ (calculate_pose Scripted.turned_face
     == claimed_yaw Scripted.turned_face).
Proof. vm_compute. discriminate. Qed.

(** Eyes and nose in one vertical line: both distances vanish and the
    yaw is 0. *)
Lemma yaw_ratio_and_pose_gate_witness :
  calculate_pose
    {| right_eye := (50, 40); left_eye := (50, 40); nose := (50, 50);
       right_mouth := (45, 60); left_mouth := (55, 60) |} = 0.
Proof.
  apply (proj1 yaw_ratio_and_pose_gate
           {| right_eye := (50, 40); left_eye := (50, 40); nose := (50, 50);
              right_mouth := (45, 60); left_mouth := (55, 60) |}).
  reflexivity.
Defined.

End PoseProps.

(** ** The capture session *)
Section CaptureProps.
Import Detector CaptureManager.
Context {Frame Emb : Type}.
Variable detect : Frame -> list Face.
Variable shape : Frame -> Z * Z.
Variable roi_size : Frame -> Z * Z * Z * Z -> Z.
Variable laplacian_var : Frame -> Z * Z * Z * Z -> Q.
Variable mean_brightness : Frame -> Z * Z * Z * Z -> Q.
Variable save_image :
  option string -> Frame -> Z * Z * Z * Z -> string -> bool * string.
Variable generate_embedding : Frame -> Face -> option Emb.

Local Abbreviation step :=
  (process_frame detect shape roi_size laplacian_var mean_brightness
     save_image generate_embedding).
Local Abbreviation can_capture :=
  (capturable detect shape roi_size laplacian_var mean_brightness save_image).
Local Abbreviation manager := (CaptureManager.t (Emb := Emb)).

Lemma pose_gate_pass (target : option string) (yaw : Q) :
  fst (pose_gate target yaw) = true -> pose_gate target yaw = (true, None).
Proof.
  unfold pose_gate. destruct target as [tg |]; [| discriminate].
  repeat match goal with
         | |- context [if ?b then _ else _] => destruct b
         end; simpl; congruence.
Qed.

Lemma pose_ok_gate (target : string) (yaw : Q) :
  Poses.pose_ok target yaw -> pose_gate (Some target) yaw = (true, None).
Proof.
  intros Hok. apply pose_gate_pass. revert Hok.
  unfold Poses.pose_ok, pose_gate.
  destruct (String.eqb target "front") eqn:E1.
  { apply String.eqb_eq in E1. subst target. apply pose_gate_front. }
  destruct (String.eqb target "left") eqn:E2.
  { apply String.eqb_eq in E2. subst target. apply pose_gate_left. }
  destruct (String.eqb target "right") eqn:E3.
  { apply String.eqb_eq in E3. subst target. apply pose_gate_right. }
  intros [].
Qed.

Lemma update_status_fields (self : manager) :
  current_idx (update_status self) = current_idx self
  /\ captured_angles (update_status self) = captured_angles self
  /\ last_capture_time (update_status self) = last_capture_time self
  /\ required_angles (update_status self) = required_angles self
  /\ current_student_id (update_status self) = current_student_id self
  /\ state (update_status self)
     = match get_current_target self with
       | Some _ => state self
       | None => COMPLETED
       end.
Proof.
  unfold update_status. destruct (get_current_target self) as [tg |].
  - repeat match goal with
           | |- context [if ?b then _ else _] => destruct b
           end; simpl; tauto.
  - simpl. tauto.
Qed.

(** One successful capture: the index advances, the saved path is filed
    under the target pose, and the state becomes COMPLETED when no
    required pose is left. *)
Lemma capture_step (self : manager) (frame : Frame) (now : Q) (tg : string) :
  state self = CAPTURING ->
  get_current_target self = Some tg ->
  can_capture (current_student_id self) tg frame ->
  (1 < now - last_capture_time self)%Q ->
  let self' := fst (step self frame now) in
  exists path,
    current_idx self' = S (current_idx self)
    /\ captured_angles self' = OrderedDict.set (captured_angles self) tg path
    /\ last_capture_time self' = now
    /\ required_angles self' = required_angles self
    /\ current_student_id self' = current_student_id self
    /\ state self'
       = match nth_error (required_angles self) (S (current_idx self)) with
         | Some _ => CAPTURING
         | None => COMPLETED
         end.
Proof.
  intros Hst Htg (face & Hmax & Hq & Hpose & Hsave) Hgap self'.
  unfold self', process_frame. rewrite Hst, Hmax.
  destruct (FaceValidator.check_quality _ _ _ _ _) as [is_good issues].
  simpl in Hq. subst is_good. simpl negb. cbv iota.
  rewrite Htg, (pose_ok_gate _ _ Hpose).
  assert (Hg : Py.Qltb 1.0 (now - last_capture_time self) = true)
    by (apply Qltb_true; lra).
  rewrite Hg. simpl andb.
  cbv iota.
  destruct (save_image _ _ _ _) as [success path]. simpl in Hsave.
  subst success. exists path. simpl fst.
  unfold record_capture.
  match goal with
  | |- context [update_status ?m] =>
      destruct (update_status_fields m) as (H1 & H2 & H3 & H4 & H5 & H6)
  end.
  rewrite H1, H2, H3, H4, H5, H6. simpl.
  unfold get_current_target. simpl. rewrite Hst.
  repeat split; reflexivity.
Qed.

(** C7. After [start_session], three frames that can be captured for
    front, left and right in this order, each more than one second after
    the previous capture (the first on a clock past one second), bring
    the session to COMPLETED with the three poses filed in the order
    front, left, right.  In any session whose target is front, a frame
    whose face is turned past the left threshold leaves index, captures,
    capture time and state as they are. *)
Theorem capture_progression (self0 : manager) (student_id : string)
    (f1 f2 f3 : Frame) (t1 t2 t3 : Q) :
  let m0 := start_session self0 student_id in
  let m1 := fst (step m0 f1 t1) in
  let m2 := fst (step m1 f2 t2) in
  let m3 := fst (step m2 f3 t3) in
  can_capture (Some student_id) "front" f1 ->
  can_capture (Some student_id) "left" f2 ->
  can_capture (Some student_id) "right" f3 ->
  (1 < t1)%Q -> (1 < t2 - t1)%Q -> (1 < t3 - t2)%Q ->
  (state m0 = CAPTURING /\ get_current_target m0 = Some "front"%string)
  /\ (state m1 = CAPTURING
      /\ OrderedDict.keys (captured_angles m1) = ["front"]%string)
  /\ (state m2 = CAPTURING
      /\ OrderedDict.keys (captured_angles m2) = ["front"; "left"]%string)
  /\ (state m3 = COMPLETED
      /\ OrderedDict.keys (captured_angles m3)
         = ["front"; "left"; "right"]%string
      /\ length (captured_angles m3) = 3%nat
      /\ current_idx m3 = 3%nat)
  /\ (forall (self : manager) (frame : Frame) (now : Q),
        get_current_target self = Some "front"%string ->
        shows_left detect frame ->
        let self' := fst (step self frame now) in
        current_idx self' = current_idx self
        /\ captured_angles self' = captured_angles self
        /\ last_capture_time self' = last_capture_time self
        /\ state self' = state self
        /\ get_current_target self' = Some "front"%string).
Proof.
  intros m0 m1 m2 m3 C1 C2 C3 G1 G2 G3.
  assert (H0 : state m0 = CAPTURING /\ current_idx m0 = 0%nat
               /\ captured_angles m0 = []
               /\ last_capture_time m0 = 0%Q
               /\ required_angles m0 = ["front"; "left"; "right"]%string
               /\ current_student_id m0 = Some student_id)
    by (unfold m0; simpl; tauto).
  destruct H0 as (S0 & I0 & K0 & L0 & R0 & D0).
  assert (T0 : get_current_target m0 = Some "front"%string)
    by (unfold get_current_target; rewrite R0, I0; reflexivity).
  destruct (capture_step m0 f1 t1 "front" S0 T0) as
    (p1 & I1 & K1 & L1 & R1 & D1 & S1).
  { rewrite D0. exact C1. }
  { rewrite L0. lra. }
  fold m1 in I1, K1, L1, R1, D1, S1.
  rewrite R0, I0 in S1. simpl in S1. rewrite K0 in K1. simpl in K1.
  rewrite I0 in I1. rewrite R0 in R1. rewrite D0 in D1.
  assert (T1 : get_current_target m1 = Some "left"%string)
    by (unfold get_current_target; rewrite R1, I1; reflexivity).
  destruct (capture_step m1 f2 t2 "left" S1 T1) as
    (p2 & I2 & K2 & L2 & R2 & D2 & S2).
  { rewrite D1. exact C2. }
  { rewrite L1. exact G2. }
  fold m2 in I2, K2, L2, R2, D2, S2.
  rewrite R1, I1 in S2. simpl in S2. rewrite K1 in K2. simpl in K2.
  rewrite I1 in I2. rewrite R1 in R2. rewrite D1 in D2.
  assert (T2 : get_current_target m2 = Some "right"%string)
    by (unfold get_current_target; rewrite R2, I2; reflexivity).
  destruct (capture_step m2 f3 t3 "right" S2 T2) as
    (p3 & I3 & K3 & L3 & R3 & D3 & S3).
  { rewrite D2. exact C3. }
  { rewrite L2. exact G3. }
  fold m3 in I3, K3, L3, R3, D3, S3.
  rewrite R2, I2 in S3. simpl in S3. rewrite K2 in K3. simpl in K3.
  rewrite I2 in I3.
  split; [tauto |]. split; [rewrite K1; tauto |].
  split; [rewrite K2; tauto |]. split; [rewrite K3; tauto |].
  clear. intros self frame now Htg Hleft self'. unfold self', process_frame.
  destruct (state self) eqn:Hst; try (simpl; tauto).
  destruct (Py.max_by _ (detect frame)) as [face |] eqn:Hmax;
    [| simpl; tauto].
  destruct (FaceValidator.check_quality _ _ _ _ _) as [is_good issues].
  destruct is_good; simpl negb; cbv iota; [| simpl; tauto].
  specialize (Hleft face Hmax).
  rewrite Htg. unfold pose_gate. simpl String.eqb. cbv iota.
  assert (Hno : Py.Qltb (FaceValidator.calculate_pose (face_landmarks face))
                  0.2 = false) by (apply Qltb_false; lra).
  rewrite Hno, andb_false_r. simpl.
  repeat split; try reflexivity; assumption.
Qed.

End CaptureProps.

(** ** The frame tracker *)
Section TrackerProps.
Import Detector FrameTracker.
Context {Frame Emb Tracker : Type}.
Variable detect : Frame -> list Face.
Variable tracker_init : Frame -> Box -> Tracker.
Variable tracker_update : Tracker -> Frame -> @Update Tracker.
Variable shape : Frame -> Z * Z.
Variable crop : Frame -> Z * Z * Z * Z -> Frame.
Variable size : Frame -> Z.
Variable sface_feature : Frame -> option Face -> option Emb.
Variable sface_match : Emb -> Emb -> Q.

Local Abbreviation track := (@TrackedFace Emb Tracker).
Local Abbreviation process :=
  (process_frame detect shape crop size tracker_init tracker_update
     sface_feature sface_match).
Local Abbreviation tracker_state := (@FrameTracker.t Emb Tracker).
Local Abbreviation run_detection := (_run_detection detect tracker_init).
Local Abbreviation run_tracking := (_run_tracking tracker_update).

Implicit Types (b : Box) (dets pre : list Face) (used : gset nat).

(** *** The detection a track takes *)

Lemma free_overlap_snoc pre det used b k v :
  free_overlap (pre ++ [det]) used b k v <->
  free_overlap pre used b k v
  \/ (k = length pre /\ (k ∉ used) /\ v = iou b (det_bbox det)).
Proof.
  unfold free_overlap. split.
  - intros (d & Hd & Hk & Hv).
    destruct (decide (k < length pre)%nat) as [Hlt | Hge].
    + left. exists d. rewrite lookup_app_l in Hd by exact Hlt. tauto.
    + right. rewrite lookup_app_r in Hd by lia.
      destruct (k - length pre)%nat as [| n] eqn:E;
        [| destruct n; discriminate].
      simpl in Hd. injection Hd as ->.
      split; [lia | tauto].
  - intros [(d & Hd & Hk & Hv) | (-> & Hk & Hv)].
    + exists d. split; [| tauto].
      rewrite lookup_app_l; [exact Hd |]. eapply lookup_lt_Some, Hd.
    + exists det. split; [| tauto].
      rewrite lookup_app_r by lia. rewrite Nat.sub_diag. reflexivity.
Qed.

Lemma best_detection_inv b dets : forall pre used best_iou best,
  best_so_far pre used b best_iou best ->
  exists best_iou',
    best_so_far (pre ++ dets) used b best_iou'
      (best_detection b dets (length pre) used best_iou best).
Proof.
  induction dets as [| det dets IH]; intros pre used best_iou best Hinv.
  - simpl. rewrite app_nil_r. eauto.
  - replace (pre ++ det :: dets) with ((pre ++ [det]) ++ dets)
      by (rewrite <- app_assoc; reflexivity).
    assert (Hlen : S (length pre) = length (pre ++ [det]))
      by (rewrite length_app; simpl; lia).
    simpl best_detection. rewrite Hlen.
    destruct (decide (length pre ∈ used)) as [Hused | Hfree].
    { apply IH. destruct best as [[j d] |]; simpl in *.
      - destruct Hinv as (H1 & H2 & H3 & H4 & H5 & H6).
        split; [rewrite lookup_app_l; [exact H1 | eapply lookup_lt_Some, H1] |].
        split; [exact H2 |]. split; [exact H3 |]. split; [exact H4 |].
        split; intros k v Hk;
          apply free_overlap_snoc in Hk as [Hk | (-> & Hn & _)];
          try contradiction; eauto.
      - destruct Hinv as (H1 & H2). split; [exact H1 |].
        intros k v Hk. apply free_overlap_snoc in Hk as [Hk | (-> & Hn & _)];
          try contradiction; eauto. }
    set (v0 := iou b (det_bbox det)).
    destruct (Py.Qltb best_iou v0 && Py.Qltb 0.3 v0) eqn:E.
    + apply andb_true_iff in E as [E1 E2].
      apply Qltb_true in E1. apply Qltb_true in E2.
      apply IH. simpl.
      split; [rewrite lookup_app_r by lia; rewrite Nat.sub_diag; reflexivity |].
      split; [exact Hfree |]. split; [reflexivity |]. split; [exact E2 |].
      assert (Hprev : forall k v, free_overlap pre used b k v ->
                                  (v < v0)%Q /\ (k < length pre)%nat).
      { intros k v Hk. split.
        - destruct best as [[j d] |]; simpl in Hinv.
          + destruct Hinv as (_ & _ & _ & _ & H5 & _).
            pose proof (H5 k v Hk). lra.
          + destruct Hinv as [_ Hle]. pose proof (Hle k v Hk). lra.
        - destruct Hk as (d & Hd & _). eapply lookup_lt_Some, Hd. }
      split; intros k v Hk.
      * apply free_overlap_snoc in Hk as [Hk | (_ & _ & ->)];
          [apply Hprev in Hk as [Hk _]; fold v0; lra | apply Qle_refl].
      * intros Hlt. apply free_overlap_snoc in Hk as [Hk | (-> & _)]; [| lia].
        apply Hprev in Hk as [Hk _]. fold v0. lra.
    + apply IH.
      assert (Hv0 : match best with
                    | None => (v0 <= 0.3)%Q
                    | Some _ => (v0 <= best_iou)%Q
                    end).
      { apply andb_false_iff in E.
        destruct best as [[j d] |]; simpl in Hinv.
        - destruct Hinv as (_ & _ & _ & H4 & _).
          destruct E as [E | E]; apply Qltb_false in E; lra.
        - destruct Hinv as [-> _].
          destruct E as [E | E]; apply Qltb_false in E; lra. }
      destruct best as [[j d] |]; simpl in *.
      * destruct Hinv as (H1 & H2 & H3 & H4 & H5 & H6).
        split; [rewrite lookup_app_l; [exact H1 | eapply lookup_lt_Some, H1] |].
        split; [exact H2 |]. split; [exact H3 |]. split; [exact H4 |].
        split; intros k v Hk.
        -- apply free_overlap_snoc in Hk as [Hk | (_ & _ & ->)]; eauto.
        -- intros Hlt. apply free_overlap_snoc in Hk as [Hk | (-> & _)]; eauto.
           apply lookup_lt_Some in H1. lia.
      * destruct Hinv as (H1 & H2). split; [exact H1 |].
        intros k v Hk.
        apply free_overlap_snoc in Hk as [Hk | (_ & _ & ->)]; eauto.
Qed.

(** The detection taken by a track with box [b], given the detections
    already taken. *)
Lemma best_detection_spec b dets used :
  match best_detection b dets 0 used 0%Q None with
  | Some (j, det) =>
      dets !! j = Some det /\ (j ∉ used)
      /\ (0.3 < iou b (det_bbox det))%Q
      /\ (forall k v, free_overlap dets used b k v ->
                      (v <= iou b (det_bbox det))%Q)
      /\ (forall k v, free_overlap dets used b k v -> (k < j)%nat ->
                      (v < iou b (det_bbox det))%Q)
  | None => forall k v, free_overlap dets used b k v -> (v <= 0.3)%Q
  end.
Proof.
  destruct (best_detection_inv b dets [] used 0%Q None) as [bi H].
  { simpl. split; [reflexivity |].
    intros k v (d & Hd & _). discriminate. }
  simpl in H.
  destruct (best_detection b dets 0 used 0%Q None) as [[j det] |]; simpl in H.
  - destruct H as (H1 & H2 & -> & H4 & H5 & H6). tauto.
  - tauto.
Qed.

(** *** The two loops of a detection pass *)

Lemma set_fresh_key (d : list (Z * track)) (k : Z) (v : track) :
  ~ In k (OrderedDict.keys d) -> OrderedDict.set d k v = d ++ [(k, v)].
Proof.
  induction d as [| [k' v'] d IH]; simpl; intros Hk; [reflexivity |].
  destruct (decide (k = k')) as [-> | Hne]; [tauto |].
  rewrite IH by tauto. reflexivity.
Qed.

Lemma assigns_indices dets used (tracks : list (Z * track)) ms :
  assigns dets used tracks ms ->
  NoDup (map m_idx ms) /\ (forall j, In j (map m_idx ms) -> j ∉ used).
Proof.
  induction 1 as [used | used id tr rest j det ms Hj Hfree _ _ _ _ [IH1 IH2]
                 | used id tr rest ms _ _ IH]; simpl.
  - split; [constructor | tauto].
  - split.
    + constructor; [| exact IH1].
      intros Hin. apply list_elem_of_In, IH2 in Hin.
      apply Hin, elem_of_union_l, elem_of_singleton_2. reflexivity.
    + intros j' [<- | Hin]; [exact Hfree |].
      apply IH2 in Hin. intros Hu. apply Hin, elem_of_union_r, Hu.
  - exact IH.
Qed.

Lemma match_tracks_spec (frame : Frame) (frame_count : Z) dets :
  forall (tracks new_tracked : list (Z * track)) used,
    NoDup (OrderedDict.keys tracks) ->
    (forall id, In id (OrderedDict.keys tracks) ->
                ~ In id (OrderedDict.keys new_tracked)) ->
    exists ms,
      assigns dets used tracks ms
      /\ match_tracks tracker_init frame frame_count dets tracks
           new_tracked used
         = (new_tracked
            ++ map (matched_entry tracker_init frame frame_count) ms,
            list_to_set (map m_idx ms) ∪ used)
      /\ (forall id, In id (map m_id ms) -> In id (OrderedDict.keys tracks))
      /\ NoDup (map m_id ms).
Proof.
  induction tracks as [| [id tr] rest IH]; intros new_tracked used Hnd Hdisj.
  - exists []. simpl. rewrite app_nil_r.
    split; [constructor |].
    split; [f_equal; simpl; symmetry; apply union_empty_l_L |].
    split; [tauto | constructor].
  - simpl in Hnd. apply NoDup_cons in Hnd as [Hid Hnd].
    simpl match_tracks.
    pose proof (best_detection_spec (bbox tr) dets used) as Hbest.
    destruct (best_detection (bbox tr) dets 0 used 0%Q None) as [[j det] |].
    + destruct Hbest as (Hj & Hfree & Hiou & Hmax & Hfirst).
      rewrite set_fresh_key by (apply Hdisj; left; reflexivity).
      destruct (IH (new_tracked ++ [(id, rematch tracker_init tr det frame
                                           frame_count)])
                  ({[j]} ∪ used) Hnd) as (ms & Hms & Heq & Hsub & Hndm).
      { intros id' Hin. unfold OrderedDict.keys.
        rewrite map_app, in_app_iff. simpl.
        intros [Hold | [<- | []]].
        - apply (Hdisj id'); [right; exact Hin | exact Hold].
        - apply list_elem_of_In in Hin. contradiction. }
      exists ({| m_id := id; m_track := tr; m_idx := j; m_det := det |} :: ms).
      split; [constructor; assumption |].
      split.
      { rewrite Heq. rewrite <- app_assoc. simpl. f_equal.
        rewrite (assoc_L (∪)). f_equal. apply (comm_L (∪)). }
      split.
      { simpl. intros id' [<- | Hin]; [left; reflexivity |].
        right. apply Hsub, Hin. }
      simpl. constructor; [| exact Hndm].
      intros Hin. apply list_elem_of_In, Hsub in Hin. apply Hid.
      apply list_elem_of_In. exact Hin.
    + destruct (IH new_tracked used Hnd) as (ms & Hms & Heq & Hsub & Hndm).
      { intros id' Hin. apply Hdisj. right. exact Hin. }
      exists ms. split; [constructor; assumption |].
      split; [exact Heq |]. split; [| exact Hndm].
      intros id' Hin. right. apply Hsub, Hin.
Qed.

Lemma numbered_from_keys (frame : Frame) (frame_count : Z) dets :
  forall next,
    OrderedDict.keys
      (numbered_from (Emb := Emb) tracker_init frame frame_count next dets)
    = map (fun i => next + Z.of_nat i) (seq 0 (length dets)).
Proof.
  induction dets as [| det dets IH]; intros next; simpl; [reflexivity |].
  f_equal; [lia |].
  rewrite IH, <- seq_shift, map_map.
  apply map_ext. intros i. lia.
Qed.

Lemma add_new_faces_spec (frame : Frame) (frame_count : Z) dets used :
  forall idx (new_tracked : list (Z * track)) next,
    (forall id, In id (OrderedDict.keys new_tracked) -> id < next) ->
    add_new_faces tracker_init frame frame_count dets idx used
      new_tracked next
    = (new_tracked
       ++ numbered_from (Emb := Emb) tracker_init frame frame_count next
            (unmatched_from idx dets used),
       next + Z.of_nat (length (unmatched_from idx dets used))).
Proof.
  induction dets as [| det dets IH]; intros idx new_tracked next Hlt; simpl.
  - rewrite app_nil_r. f_equal. lia.
  - destruct (decide (idx ∈ used)); [apply IH, Hlt |].
    rewrite set_fresh_key.
    2: { intros Hin. apply Hlt in Hin. lia. }
    rewrite IH.
    + rewrite <- app_assoc. simpl. f_equal. lia.
    + intros id. unfold OrderedDict.keys. rewrite map_app, in_app_iff. simpl.
      intros [Hin | [<- | []]]; [apply Hlt in Hin |]; lia.
Qed.

(** The whole pass: the matched tracks, in track order and under their
    ids, followed by a new track for each detection left over. *)
Lemma run_detection_spec (self : tracker_state) (frame : Frame) :
  NoDup (OrderedDict.keys (tracked_faces self)) ->
  (forall id, In id (OrderedDict.keys (tracked_faces self)) ->
              id < next_face_id self) ->
  exists ms,
    assigns (detect frame) ∅ (tracked_faces self) ms
    /\ (forall id, In id (map m_id ms) ->
                   In id (OrderedDict.keys (tracked_faces self)))
    /\ NoDup (map m_id ms)
    /\ tracked_faces (run_detection self frame)
       = map (matched_entry tracker_init frame (frame_count self)) ms
         ++ numbered_from (Emb := Emb) tracker_init frame (frame_count self)
              (next_face_id self)
              (unmatched_from 0 (detect frame) (list_to_set (map m_idx ms)))
    /\ next_face_id (run_detection self frame)
       = next_face_id self
         + Z.of_nat (length (unmatched_from 0 (detect frame)
                               (list_to_set (map m_idx ms)))).
Proof.
  intros Hnd Hlt. unfold _run_detection.
  destruct (match_tracks_spec frame (frame_count self) (detect frame)
              (tracked_faces self) [] ∅ Hnd)
    as (ms & Hms & Heq & Hsub & Hndm).
  { intros id _ []. }
  exists ms. rewrite Heq. simpl app.
  rewrite union_empty_r_L.
  rewrite add_new_faces_spec.
  2: { intros id Hin. apply Hlt, Hsub. unfold OrderedDict.keys in Hin.
       rewrite map_map in Hin. exact Hin. }
  simpl. tauto.
Qed.

Lemma assigns_sources dets used (tracks : list (Z * track)) ms :
  assigns dets used tracks ms ->
  forall m, In m ms ->
    In (m_id m, m_track m) tracks /\ dets !! m_idx m = Some (m_det m).
Proof.
  induction 1 as [used | used id tr rest j det ms Hj _ _ _ _ _ IH
                 | used id tr rest ms _ _ IH]; simpl.
  - tauto.
  - intros m [<- | Hm]; simpl; [tauto |].
    apply IH in Hm. tauto.
  - intros m Hm. apply IH in Hm. tauto.
Qed.

(** One object in view: the track takes the detection and keeps its id. *)
Lemma run_detection_single (self : tracker_state) (frame : Frame)
    (id : Z) (tr : track) (det : Face) :
  tracked_faces self = [(id, tr)] ->
  detect frame = [det] ->
  (0.3 < iou (bbox tr) (det_bbox det))%Q ->
  tracked_faces (run_detection self frame)
  = [(id, rematch tracker_init tr det frame (frame_count self))]
  /\ next_face_id (run_detection self frame) = next_face_id self.
Proof.
  intros Htr Hdet Hiou. unfold _run_detection. rewrite Htr, Hdet.
  simpl match_tracks.
  destruct (decide (0%nat ∈ (∅ : gset nat))) as [Hin | _];
    [exfalso; exact (not_elem_of_empty 0%nat Hin) |].
  assert (H1 : Py.Qltb 0 (iou (bbox tr) (det_bbox det)) = true)
    by (apply Qltb_true; lra).
  assert (H2 : Py.Qltb 0.3 (iou (bbox tr) (det_bbox det)) = true)
    by (apply Qltb_true; exact Hiou).
  rewrite H1, H2. simpl.
  destruct (decide (0%nat ∈ ({[0%nat]} ∪ ∅ : gset nat))) as [_ | Hout];
    [| exfalso; apply Hout, elem_of_union_l, elem_of_singleton_2;
       reflexivity].
  simpl. split; reflexivity.
Qed.

Lemma run_detection_steady (frames : list Frame) :
  forall (self : tracker_state) (id : Z) (tr : track),
    tracked_faces self = [(id, tr)] ->
    steady detect (bbox tr) frames ->
    OrderedDict.keys (tracked_faces (fold_left run_detection frames self))
    = [id]
    /\ next_face_id (fold_left run_detection frames self) = next_face_id self.
Proof.
  induction frames as [| frame frames IH]; intros self id tr Htr Hst; simpl.
  - rewrite Htr. split; reflexivity.
  - destruct Hst as (det & Hdet & Hiou & Hst).
    destruct (run_detection_single self frame id tr det Htr Hdet Hiou)
      as [Htr' Hnext].
    destruct (IH (run_detection self frame) id _ Htr' Hst) as [Hk Hn].
    split; [exact Hk | congruence].
Qed.

(** *** A tracking-only pass *)

(** [update_tracker] counts consecutive failures: a failed update (or one
    that raises) adds one, a successful update resets the count. *)
Lemma update_tracker_counter (tr : track) (frame : Frame) (tk : Tracker) :
  tracker tr = Some tk ->
  let '(tr', success) := update_tracker tracker_update tr frame in
  if success then tracking_failures tr' = 0
  else tracking_failures tr' = tracking_failures tr + 1.
Proof.
  intros Htk. unfold update_tracker. rewrite Htk.
  destruct (tracker_update tk frame) as [tk' [[[x y] w] h] | tk' | tk'];
    reflexivity.
Qed.

Lemma update_trackers_spec (frame : Frame) (max_failures : Z)
    (tracks : list (Z * track)) :
  update_trackers tracker_update frame max_failures tracks
  = (map (fun e => (fst e, fst (update_tracker tracker_update (snd e) frame)))
       tracks,
     map fst (List.filter
                (fun e => evicted tracker_update frame max_failures (snd e))
                tracks)).
Proof.
  induction tracks as [| [id tr] rest IH]; simpl; [reflexivity |].
  rewrite IH. unfold evicted.
  destruct (update_tracker tracker_update tr frame) as [tr' success].
  simpl. destruct (negb success || (max_failures <=? tracking_failures tr'));
    reflexivity.
Qed.

(** Deleting the listed keys keeps the entries that are not listed. *)
Lemma del_listed (upd : track -> track) (ev : track -> bool)
    (d : list (Z * track)) :
  NoDup (OrderedDict.keys d) ->
  fold_left OrderedDict.del
    (map fst (List.filter (fun e => ev (snd e)) d))
    (map (fun e => (fst e, upd (snd e))) d)
  = map (fun e => (fst e, upd (snd e)))
      (List.filter (fun e => negb (ev (snd e))) d).
Proof.
  induction d as [| [k v] d IH]; intros Hnd; [reflexivity |].
  change (NoDup (k :: OrderedDict.keys d)) in Hnd.
  apply NoDup_cons in Hnd as [Hk Hnd].
  assert (Hrest : forall (rm : list Z) (d' : list (Z * track)) (w : track),
             ~ In k rm ->
             fold_left OrderedDict.del rm ((k, w) :: d')
             = (k, w) :: fold_left OrderedDict.del rm d').
  { induction rm as [| r rm IHrm]; intros d' w Hr; [reflexivity |].
    cbn [fold_left OrderedDict.del].
    destruct (decide (r = k)) as [-> | _];
      [exfalso; apply Hr; left; reflexivity |].
    apply IHrm. intros Hin. apply Hr. right. exact Hin. }
  assert (Hnot : ~ In k (map fst (List.filter (fun e => ev (snd e)) d))).
  { intros Hin. apply in_map_iff in Hin as ([k' v'] & Heq & Hin).
    cbn [fst] in Heq. subst k'. apply filter_In in Hin as [Hin _].
    apply Hk, list_elem_of_In, in_map_iff. exists (k, v'). tauto. }
  cbn [List.filter map fst snd]. destruct (ev v); cbn [negb map fst snd].
  - cbn [fold_left OrderedDict.del].
    destruct (decide (k = k)) as [_ | Hne]; [| congruence].
    apply IH, Hnd.
  - rewrite Hrest by exact Hnot. f_equal. apply IH, Hnd.
Qed.

(** The tracks that survive a tracking pass are those whose update
    succeeded this very frame: one failed update removes the track,
    whatever its failure count. *)
Lemma run_tracking_spec (self : tracker_state) (frame : Frame) :
  NoDup (OrderedDict.keys (tracked_faces self)) ->
  tracked_faces (run_tracking self frame)
  = map (fun e => (fst e, fst (update_tracker tracker_update (snd e) frame)))
      (List.filter
         (fun e => negb (evicted tracker_update frame
                           (max_tracking_failures self) (snd e)))
         (tracked_faces self)).
Proof.
  intros Hnd. unfold _run_tracking. rewrite update_trackers_spec.
  cbn [tracked_faces with_tracks].
  apply (del_listed
           (fun tr => fst (update_tracker tracker_update tr frame))
           (evicted tracker_update frame (max_tracking_failures self))), Hnd.
Qed.

Lemma run_tracking_evicts_failed (self : tracker_state) (frame : Frame)
    (id : Z) (tr : track) :
  NoDup (OrderedDict.keys (tracked_faces self)) ->
  In (id, tr) (tracked_faces self) ->
  snd (update_tracker tracker_update tr frame) = false ->
  ~ In id (OrderedDict.keys (tracked_faces (run_tracking self frame))).
Proof.
  intros Hnd Hin Hfail. rewrite run_tracking_spec by exact Hnd.
  unfold OrderedDict.keys. rewrite map_map. simpl.
  intros Hk. apply in_map_iff in Hk as ([id' tr'] & Heq & Hk).
  simpl in Heq. subst id'. apply filter_In in Hk as [Hk Hkeep].
  assert (tr' = tr).
  { clear Hkeep Hfail. induction (tracked_faces self) as [| [k v] d IH];
      [destruct Hin |].
    simpl in Hnd. apply NoDup_cons in Hnd as [Hnk Hnd].
    assert (Hkey : forall w, In (id, w) d -> id ∈ OrderedDict.keys d).
    { intros w Hw. apply list_elem_of_In, in_map_iff. exists (id, w). tauto. }
    destruct Hin as [Hin | Hin], Hk as [Hk | Hk].
    - congruence.
    - injection Hin as -> ->. apply Hkey in Hk. contradiction.
    - injection Hk as -> ->. apply Hkey in Hin. contradiction.
    - apply IH; assumption. }
  subst tr'. simpl in Hkeep. unfold evicted in Hkeep.
  rewrite Hfail in Hkeep. discriminate.
Qed.

(** *** Ids over a run of [process_frame] *)

Lemma filter_keys_NoDup (keep : Z * track -> bool) (d : list (Z * track)) :
  NoDup (OrderedDict.keys d) -> NoDup (OrderedDict.keys (List.filter keep d)).
Proof.
  induction d as [| [k v] d IH]; intros Hnd; [exact Hnd |].
  change (NoDup (k :: OrderedDict.keys d)) in Hnd.
  apply NoDup_cons in Hnd as [Hk Hnd].
  cbn [List.filter]. destruct (keep (k, v)); [| apply IH, Hnd].
  change (NoDup (k :: OrderedDict.keys (List.filter keep d))).
  apply NoDup_cons. split; [| apply IH, Hnd].
  intros Hin. apply Hk. apply list_elem_of_In in Hin.
  apply list_elem_of_In. apply in_map_iff in Hin as (e & He & Hin).
  apply in_map_iff. exists e. apply filter_In in Hin. tauto.
Qed.

Lemma run_recognition_ids (self : tracker_state) (frame : Frame)
    (use_landmarks : bool) :
  OrderedDict.keys
    (tracked_faces
       (_run_recognition shape crop size sface_feature sface_match
          self frame use_landmarks))
  = OrderedDict.keys (tracked_faces self)
  /\ next_face_id
       (_run_recognition shape crop size sface_feature sface_match
          self frame use_landmarks)
     = next_face_id self.
Proof.
  unfold _run_recognition. cbn [tracked_faces next_face_id with_tracks].
  split; [| reflexivity].
  unfold OrderedDict.keys. rewrite map_map. apply map_ext.
  intros [id tr]. reflexivity.
Qed.

Lemma run_tracking_ids (self : tracker_state) (frame : Frame) :
  ids_below_next self ->
  ids_below_next (run_tracking self frame)
  /\ next_face_id (run_tracking self frame) = next_face_id self.
Proof.
  intros [Hnd Hlt].
  assert (Hkeys : OrderedDict.keys (tracked_faces (run_tracking self frame))
                  = OrderedDict.keys
                      (List.filter
                         (fun e => negb (evicted tracker_update frame
                                           (max_tracking_failures self)
                                           (snd e)))
                         (tracked_faces self))).
  { rewrite run_tracking_spec by exact Hnd.
    unfold OrderedDict.keys. rewrite map_map. reflexivity. }
  assert (Hnext : next_face_id (run_tracking self frame) = next_face_id self).
  { unfold _run_tracking.
    destruct (update_trackers _ _ _ _) as [tracks rm]. reflexivity. }
  split; [| exact Hnext]. unfold ids_below_next. rewrite Hkeys, Hnext.
  split; [apply filter_keys_NoDup, Hnd |].
  intros id Hin. apply Hlt. apply in_map_iff in Hin as (e & He & Hin).
  apply in_map_iff. exists e. apply filter_In in Hin. tauto.
Qed.

(** C5, as the code has it.  On a detection pass the tracks are served
    in the order of the track set, and each takes the not yet taken
    detection of highest IoU above 0.3 with its box (not the pair of
    highest IoU over all tracks).  The matching is one-to-one; a matched
    track keeps its id; the new track set is the matched tracks followed
    by one new track per remaining detection, numbered upward from
    [next_face_id], above every id in use; tracks without a match are
    gone.  A single tracked object whose detection overlaps its previous
    box by more than 0.3 on every detection pass keeps its id. *)
Theorem detection_pass_reconciles :
  (forall (self : tracker_state) (frame : Frame),
      NoDup (OrderedDict.keys (tracked_faces self)) ->
      (forall id, In id (OrderedDict.keys (tracked_faces self)) ->
                  id < next_face_id self) ->
      exists ms,
        let self' := run_detection self frame in
        let fresh :=
          unmatched_from 0 (detect frame) (list_to_set (map m_idx ms)) in
        assigns (detect frame) ∅ (tracked_faces self) ms
        /\ (forall m, In m ms ->
              In (m_id m, m_track m) (tracked_faces self)
              /\ detect frame !! m_idx m = Some (m_det m))
        /\ NoDup (map m_id ms) /\ NoDup (map m_idx ms)
        /\ tracked_faces self'
           = map (matched_entry tracker_init frame (frame_count self)) ms
             ++ numbered_from (Emb := Emb) tracker_init frame
                  (frame_count self) (next_face_id self) fresh
        /\ OrderedDict.keys (tracked_faces self')
           = map m_id ms
             ++ map (fun i => next_face_id self + Z.of_nat i)
                  (seq 0 (length fresh))
        /\ next_face_id self'
           = next_face_id self + Z.of_nat (length fresh)
        /\ (forall id, In id (OrderedDict.keys (tracked_faces self)) ->
              (In id (OrderedDict.keys (tracked_faces self'))
               <-> In id (map m_id ms)))
        /\ NoDup (OrderedDict.keys (tracked_faces self'))
        /\ (forall id, In id (OrderedDict.keys (tracked_faces self')) ->
                       id < next_face_id self'))
  /\ (forall (self : tracker_state) (frames : list Frame) (id : Z)
             (tr : track),
      tracked_faces self = [(id, tr)] ->
      steady detect (bbox tr) frames ->
      OrderedDict.keys (tracked_faces (fold_left run_detection frames self))
      = [id])
  /\ (forall rec di ri mf, ids_below_next (init rec di ri mf : tracker_state))
  /\ (forall (self self' : tracker_state) (frame : Frame) out,
      ids_below_next self ->
      process self frame = Some (self', out) ->
      ids_below_next self' /\ next_face_id self <= next_face_id self').
Proof.
  assert (Pass : forall (self : tracker_state) (frame : Frame),
      NoDup (OrderedDict.keys (tracked_faces self)) ->
      (forall id, In id (OrderedDict.keys (tracked_faces self)) ->
                  id < next_face_id self) ->
      exists ms,
        let self' := run_detection self frame in
        let fresh :=
          unmatched_from 0 (detect frame) (list_to_set (map m_idx ms)) in
        assigns (detect frame) ∅ (tracked_faces self) ms
        /\ (forall m, In m ms ->
              In (m_id m, m_track m) (tracked_faces self)
              /\ detect frame !! m_idx m = Some (m_det m))
        /\ NoDup (map m_id ms) /\ NoDup (map m_idx ms)
        /\ tracked_faces self'
           = map (matched_entry tracker_init frame (frame_count self)) ms
             ++ numbered_from (Emb := Emb) tracker_init frame
                  (frame_count self) (next_face_id self) fresh
        /\ OrderedDict.keys (tracked_faces self')
           = map m_id ms
             ++ map (fun i => next_face_id self + Z.of_nat i)
                  (seq 0 (length fresh))
        /\ next_face_id self'
           = next_face_id self + Z.of_nat (length fresh)
        /\ (forall id, In id (OrderedDict.keys (tracked_faces self)) ->
              (In id (OrderedDict.keys (tracked_faces self'))
               <-> In id (map m_id ms)))
        /\ NoDup (OrderedDict.keys (tracked_faces self'))
        /\ (forall id, In id (OrderedDict.keys (tracked_faces self')) ->
                       id < next_face_id self')).
  2: { split; [exact Pass |]. split.
       { intros self frames id tr Htr Hst.
         apply (run_detection_steady frames self id tr Htr Hst). }
       split.
       { intros rec di ri mf. split; [constructor | intros id []]. }
       intros self self' frame out [Hnd Hlt] Hproc.
       unfold process_frame in Hproc.
       cbn [detection_interval recognition_interval frame_count
            tracked_faces next_face_id with_tracks] in Hproc.
       destruct ((detection_interval self =? 0)
                 || (recognition_interval self =? 0)); [discriminate |].
       set (self1 := with_tracks self (frame_count self + 1)
                       (tracked_faces self) (next_face_id self)) in *.
       assert (H1 : ids_below_next self1) by (split; assumption).
       destruct (_ || _) in Hproc.
       - injection Hproc as <- _.
         destruct (Pass self1 frame Hnd Hlt)
           as (ms & _ & _ & _ & _ & _ & _ & Hnext & _ & Hnd' & Hlt').
         cbv zeta in Hnext, Hnd', Hlt'.
         destruct (run_recognition_ids (run_detection self1 frame) frame true)
           as [Hk Hn].
         unfold ids_below_next. rewrite Hk, Hn.
         split; [split; assumption |].
         rewrite Hnext. cbn [next_face_id with_tracks self1]. lia.
       - destruct (run_tracking_ids self1 frame H1) as [Hwf Hn].
         destruct ((frame_count self + 1) mod recognition_interval self =? 0)
           in Hproc; injection Hproc as <- _.
         + destruct (run_recognition_ids (run_tracking self1 frame) frame false)
             as [Hk Hn'].
           unfold ids_below_next. rewrite Hk, Hn'.
           split; [exact Hwf | rewrite Hn; apply Z.le_refl].
         + split; [exact Hwf |]. rewrite Hn. apply Z.le_refl. }
  intros self frame Hnd Hlt.
  destruct (run_detection_spec self frame Hnd Hlt)
    as (ms & Hms & Hsub & Hndm & Htracks & Hnext).
  exists ms. cbv zeta.
  set (fresh := unmatched_from 0 (detect frame) (list_to_set (map m_idx ms)))
    in *.
  assert (Hkeys : OrderedDict.keys (tracked_faces (run_detection self frame))
                  = map m_id ms
                    ++ map (fun i => next_face_id self + Z.of_nat i)
                         (seq 0 (length fresh))).
  { rewrite Htracks. unfold OrderedDict.keys at 1. rewrite map_app.
    rewrite map_map. simpl. f_equal. apply numbered_from_keys. }
  assert (Hnew : forall id,
             In id (map (fun i => next_face_id self + Z.of_nat i)
                      (seq 0 (length fresh))) ->
             next_face_id self <= id
             < next_face_id self + Z.of_nat (length fresh)).
  { intros id Hin. apply in_map_iff in Hin as (i & <- & Hi).
    apply in_seq in Hi. lia. }
  split; [exact Hms |].
  split; [apply (assigns_sources _ _ _ _ Hms) |].
  split; [exact Hndm |].
  split; [apply (assigns_indices _ _ _ _ Hms) |].
  split; [exact Htracks |]. split; [exact Hkeys |]. split; [exact Hnext |].
  split; [| split].
  - intros id Hold. rewrite Hkeys, in_app_iff. split; [| tauto].
    intros [Hm | Hn]; [exact Hm |].
    apply Hnew in Hn. apply Hlt in Hold. lia.
  - rewrite Hkeys. apply NoDup_app. split; [exact Hndm |]. split.
    + intros id Hm Hn. apply list_elem_of_In in Hm, Hn.
      apply Hsub, Hlt in Hm. apply Hnew in Hn. lia.
    + apply NoDup_fmap_2; [| apply NoDup_seq].
      intros i j Hij. lia.
  - intros id. rewrite Hkeys, Hnext, in_app_iff.
    intros [Hm | Hn].
    + apply Hsub, Hlt in Hm. lia.
    + apply Hnew in Hn. lia.
Qed.

End TrackerProps.

(** ** Worked examples on the scripted camera *)
Section Worked.
Import Detector FrameTracker Scripted.

(** C3 on the code.  With the default [max_tracking_failures = 3], a
    track is created on a detection frame; on the next frame, a
    tracking-only pass, its tracker fails once.  The failure count of the
    track is then 1, below 3, and yet the track is removed: the frame's
    output and the track set are empty. *)
Theorem first_tracking_failure_evicts :
  let frame1 := {| seen := [face_at 0 0 10 10 50]; trackers_follow := true |} in
  let frame2 :=
    {| seen := [face_at 0 0 10 10 50]; trackers_follow := false |} in
  exists st1 out1 tr st2,
    Scripted.process_frame tracker0 frame1 = Some (st1, out1)
    /\ tracked_faces st1 = [(0, tr)]
    /\ map out_face_id out1 = [0]
    /\ max_tracking_failures st1 = 3
    /\ snd (update_tracker tracker_update tr frame2) = false
    /\ tracking_failures (fst (update_tracker tracker_update tr frame2)) = 1
    /\ Scripted.process_frame st1 frame2 = Some (st2, [])
    /\ tracked_faces st2 = [].
Proof.
  intros frame1 frame2.
  destruct (Scripted.process_frame tracker0 frame1) as [[st1 out1] |] eqn:E1;
    [| vm_compute in E1; discriminate].
  vm_compute in E1. injection E1 as <- <-.
  do 4 eexists. split; [reflexivity |]. split; [reflexivity |].
  vm_compute. repeat split; reflexivity.
Qed.

(** Two faces are in view for four frames, at (0,0,10,10) and at
    (4,0,10,10); they become the tracks 0 and 1.  The fifth frame, a
    detection pass, shows one face at (4,0,10,10): it overlaps track 0 by
    3/7 and coincides with track 1.  The code serves track 0 first, which
    takes the detection, and drops track 1; matching the highest overlap
    first pairs the detection with track 1. *)
Lemma detection_pass_counterexample :
  let two := {| seen := [face_at 0 0 10 10 50; face_at 4 0 10 10 50];
                trackers_follow := true |} in
  let one := {| seen := [face_at 4 0 10 10 50]; trackers_follow := true |} in
  match process_all tracker0 [two; two; two; two] [] with
  | Some (st4, _) =>
      let boxes := map (fun e => (fst e, bbox (snd e))) (tracked_faces st4) in
      let highest_first :=
        HighestFirst.matching boxes (map det_bbox (seen one)) in
      boxes = [(0, (0, 0, 10, 10)); (1, (4, 0, 10, 10))]
      /\ HighestFirst.pairs boxes (map det_bbox (seen one))
         = [(0, 0%nat, (inject_Z 60 / inject_Z 140)%Q);
            (1, 0%nat, (inject_Z 100 / inject_Z 100)%Q)]
      /\ map fst highest_first = [1]
      /\ match Scripted.process_frame st4 one with
         | Some (st5, out5) =>
             map out_is_tracked out5 = [false]
             /\ map out_face_id out5 = [0]
             /\ OrderedDict.keys (tracked_faces st5) = [0]
             /\ map out_face_id out5 <> map fst highest_first
         | None => False
         end
  | None => False
  end.
Proof.
  vm_compute. repeat split; try reflexivity. discriminate.
Qed.

(** One face drifting to the right, two pixels per detection pass. *)
Lemma detection_pass_reconciles_witness :
  let tr0 : @TrackedFace unit Box :=
    new_TrackedFace (0, 0, 10, 10) (face_at 0 0 10 10 50) 0 in
  let self := with_tracks tracker0 1 [(0, tr0)] 1 in
  let frames :=
    [ {| seen := [face_at 2 0 10 10 50]; trackers_follow := true |};
      {| seen := [face_at 4 0 10 10 50]; trackers_follow := true |} ] in
  OrderedDict.keys
    (tracked_faces (fold_left Scripted.run_detection frames self))
  = [0].
Proof.
  intros tr0 self frames.
  apply (proj1 (proj2 (detection_pass_reconciles seen tracker_init
                         tracker_update Scripted.shape Scripted.crop
                         Scripted.size Scripted.sface_feature
                         Scripted.sface_match))
           self frames 0 tr0 eq_refl).
  simpl. eexists. split; [reflexivity |]. split; [vm_compute; reflexivity |].
  eexists. split; [reflexivity |]. split; [vm_compute; reflexivity |].
  exact I.
Defined.

(** A session for S1: a frontal face, then the head turned either way. *)
Lemma capture_progression_witness :
  let m0 := CaptureManager.start_session capture0 "S1" in
  let m1 := fst (capture_frame m0 (portrait 50) 1762000000) in
  let m2 := fst (capture_frame m1 (portrait 43) 1762000002) in
  let m3 := fst (capture_frame m2 (portrait 57) 1762000004) in
  CaptureManager.state m3 = CaptureManager.COMPLETED
  /\ OrderedDict.keys (CaptureManager.captured_angles m3)
     = ["front"; "left"; "right"]%string.
Proof.
  assert (C : forall target nose_x,
             Poses.pose_ok target
               (FaceValidator.calculate_pose
                  (face_landmarks (face_at 10 10 100 100 nose_x))) ->
             CaptureManager.capturable seen shape roi_size laplacian_var
               mean_brightness save_image (Some "S1"%string) target
               (portrait nose_x)).
  { intros target nose_x Hpose. exists (face_at 10 10 100 100 nose_x).
    split; [reflexivity |]. split; [vm_compute; reflexivity |].
    split; [exact Hpose | reflexivity]. }
  destruct (capture_progression seen shape roi_size laplacian_var
              mean_brightness save_image generate_embedding
              capture0 "S1" (portrait 50) (portrait 43) (portrait 57)
              1762000000 1762000002 1762000004)
    as (_ & _ & _ & (Hstate & Hkeys & _) & _).
  - apply C. vm_compute. reflexivity.
  - apply C. vm_compute. reflexivity.
  - apply C. vm_compute. reflexivity.
  - vm_compute. reflexivity.
  - vm_compute. reflexivity.
  - vm_compute. reflexivity.
  - split; [exact Hstate | exact Hkeys].
Defined.

(** The same frames in the wrong order: the left turn is shown while the
    target is still front, and nothing is captured. *)
Example left_turn_before_front :
  let m0 := CaptureManager.start_session capture0 "S1" in
  let '(m1, (message, progress)) := capture_frame m0 (portrait 43) 1762000000 in
  CaptureManager.current_idx m1 = 0%nat
  /\ CaptureManager.captured_angles m1 = []
  /\ message = CaptureManager.Look_Straight.
Proof. vm_compute. repeat split. Qed.

End Worked.

(* ================================================================= *)
(** * Part III: further properties of the code *)
(* ================================================================= *)

(** Comparisons of floats that a case analysis left as booleans. *)
Ltac float_cmp :=
  repeat match goal with
         | H : Py.Qltb _ _ = true |- _ => apply Qltb_true in H
         | H : Py.Qltb _ _ = false |- _ => apply Qltb_false in H
         | H : Py.Qleb _ _ = true |- _ => apply Qleb_true in H
         | H : Py.Qleb _ _ = false |- _ => apply Qleb_false in H
         end.

(** ** Rendering to two decimals *)

(** The hundredths shown are the whole hundredths below the number or
    the next ones. *)
Lemma format_2f_cases (x : Q) :
  Py.format_2f x = Qfloor (100 * x) \/ Py.format_2f x = Qfloor (100 * x) + 1.
Proof.
  unfold Py.format_2f.
  destruct (_ ?= _)%Q; [destruct (Z.even _) | |]; tauto.
Qed.

(** 0.749 is shown as ['0.75'], and a number halfway between two
    hundredths goes to the even one. *)
Example format_2f_examples :
  Py.format_2f 0.749 = 75 /\ Py.format_2f 0.9 = 90
  /\ Py.format_2f 0.125 = 12 /\ Py.format_2f 0.375 = 38.
Proof. repeat split. Qed.

(** A number of at least [k] hundredths is shown with at least [k]. *)
Lemma format_2f_ge (k : Z) (x : Q) :
  (inject_Z k <= 100 * x)%Q -> k <= Py.format_2f x.
Proof.
  intros Hk.
  assert (Hlo : k <= Qfloor (100 * x)).
  { rewrite <- (Qfloor_Z k). apply Qfloor_resp_le. exact Hk. }
  destruct (format_2f_cases x) as [-> | ->]; lia.
Qed.

(** ** Sorting and slicing *)
Section SortMore.
Import Ranking.
Context {A : Type} (key : A -> Q).

Lemma insert_desc_Permutation (x : A) (l : list A) :
  Py.insert_desc key x l ≡ₚ x :: l.
Proof.
  induction l as [| y l IH]; simpl; [reflexivity |].
  destruct (Py.Qltb (key x) (key y)); [| reflexivity].
  rewrite IH. apply Permutation_swap.
Qed.

Lemma sort_desc_Permutation (l : list A) : Py.sort_desc key l ≡ₚ l.
Proof.
  induction l as [| x l IH]; simpl; [reflexivity |].
  rewrite insert_desc_Permutation, IH. reflexivity.
Qed.

End SortMore.

(** ** The classifier on every path *)
Section RecognizerMore.
Import Recognizer Ranking.
Context {Image FaceData Emb : Type}.
Variable sface_feature : Image -> option FaceData -> option Emb.
Variable sface_match : Emb -> Emb -> Q.

Local Abbreviation classify :=
  (match_face_with_confidence sface_feature sface_match).
Local Abbreviation top_matches := (get_top_matches sface_feature sface_match).
Local Abbreviation all_scores := (_compute_all_scores sface_match).
Local Abbreviation score := (best_score_for_student sface_match).
Local Abbreviation qualified :=
  (fun entry : string * Q * Info => Py.Qleb MIN_CONFIDENCE (score_of entry)).

Lemma all_scores_nonneg (self : t) (target : Emb) (e : string * Q * Info) :
  In e (all_scores self (Some target)) -> (0 <= score_of e)%Q.
Proof.
  intros He. apply (all_scores_In sface_match) in He as (refs & _ & ->).
  apply (best_score_max sface_match).
Qed.

(** The answers of [match_face_with_confidence], by cases. *)
Lemma classify_cases (self : t) (image : Image) (face_data : option FaceData) :
  (classify self image face_data = (None, UNKNOWN, 0%Q, ∅)
   /\ (recognizer self = false
       \/ _generate_embedding sface_feature self image face_data = None
       \/ embeddings self = []))
  \/ exists target bid bs refs,
       recognizer self = true
       /\ _generate_embedding sface_feature self image face_data = Some target
       /\ In (bid, refs) (embeddings self)
       /\ bs = score target refs
       /\ (0 <= bs)%Q
       /\ (((0.75 <= bs)%Q
            /\ classify self image face_data
               = (Some bid, RECOGNIZED, bs,
                  default ∅ (student_map self !! bid)))
           \/ ((0.50 <= bs)%Q /\ (bs < 0.75)%Q
               /\ classify self image face_data
                  = (Some bid, MAYBE, bs,
                     default ∅ (student_map self !! bid)))
           \/ ((bs < 0.50)%Q
               /\ classify self image face_data = (None, UNKNOWN, bs, ∅))).
Proof.
  unfold match_face_with_confidence.
  destruct (recognizer self) eqn:Hrec; simpl negb; cbv iota;
    [| left; tauto].
  destruct (_generate_embedding sface_feature self image face_data)
    as [target |] eqn:Hemb; [| left; tauto].
  destruct (all_scores self (Some target)) as [| [[bid bs] binfo] rest] eqn:Hs.
  { left. split; [reflexivity |]. right. right.
    unfold _compute_all_scores in Hs.
    apply (f_equal (@length _)) in Hs.
    rewrite sort_desc_length, length_map in Hs.
    destruct (embeddings self); [reflexivity | discriminate]. }
  right.
  assert (Hin : In (bid, bs, binfo) (all_scores self (Some target)))
    by (rewrite Hs; left; reflexivity).
  pose proof (all_scores_nonneg _ _ _ Hin) as Hpos.
  apply (all_scores_In sface_match) in Hin as (refs & Href & Heq).
  unfold id_of, score_of in *. simpl in Href, Heq, Hpos.
  injection Heq as Hbs Hbinfo.
  exists target, bid, bs, refs.
  split; [reflexivity |]. split; [reflexivity |]. split; [exact Href |].
  split; [exact Hbs |]. split; [exact Hpos |].
  unfold HIGH_CONFIDENCE, LOW_CONFIDENCE. rewrite <- Hbinfo.
  destruct (Py.Qleb 0.75 bs) eqn:E1.
  { apply Qleb_true in E1. left. tauto. }
  apply Qleb_false in E1.
  destruct (Py.Qleb 0.50 bs) eqn:E2.
  { apply Qleb_true in E2. right. left. tauto. }
  apply Qleb_false in E2. right. right. tauto.
Qed.

(** X1. Whatever path [match_face_with_confidence] takes (model missing,
    no embedding, nobody enrolled, or a best score), the status it
    returns is the band of the confidence it returns, a student is named
    exactly when the status is not UNKNOWN, the student named is
    enrolled and comes with the entry of the student map, and UNKNOWN
    comes with an empty info. *)
Theorem classification_consistent (self : t) (image : Image)
    (face_data : option FaceData) :
  let '(best_id, status, confidence, info) :=
    classify self image face_data in
  (0 <= confidence)%Q
  /\ (status = RECOGNIZED <-> (0.75 <= confidence)%Q)
  /\ (status = MAYBE <-> (0.50 <= confidence)%Q /\ (confidence < 0.75)%Q)
  /\ (status = UNKNOWN <-> (confidence < 0.50)%Q)
  /\ (best_id = None <-> status = UNKNOWN)
  /\ (status = UNKNOWN -> info = ∅)
  /\ (forall sid, best_id = Some sid ->
        (exists refs, In (sid, refs) (embeddings self))
        /\ info = default ∅ (student_map self !! sid)).
Proof.
  destruct (classify_cases self image face_data)
    as [[-> _] | (target & bid & bs & refs & _ & _ & Href & _ & Hpos
                  & [[Hb ->] | [(Hb1 & Hb2 & ->) | [Hb ->]]])].
  - split; [lra |]. split; [split; [discriminate | lra] |].
    split; [split; [discriminate | lra] |].
    split; [split; [lra | reflexivity] |].
    split; [tauto |]. split; [reflexivity | discriminate].
  - split; [exact Hpos |]. split; [tauto |].
    split; [split; [discriminate | lra] |].
    split; [split; [discriminate | lra] |].
    split; [split; discriminate |]. split; [discriminate |].
    intros sid [= <-]. split; [exists refs; exact Href | reflexivity].
  - split; [exact Hpos |]. split; [split; [discriminate | lra] |].
    split; [tauto |].
    split; [split; [discriminate | lra] |].
    split; [split; discriminate |]. split; [discriminate |].
    intros sid [= <-]. split; [exists refs; exact Href | reflexivity].
  - split; [exact Hpos |]. split; [split; [discriminate | lra] |].
    split; [split; [discriminate | lra] |].
    split; [tauto |]. split; [tauto |]. split; [reflexivity | discriminate].
Qed.

(** X2. [recognize] names a student only with a confidence of at least
    0.50, and then an enrolled one with the entry of the student map;
    without a student the info is empty and the confidence is below
    0.50; the confidence is never negative.  Without the model, or
    without an embedding of the probe, the answer is [(None, 0.0, {})]. *)
Theorem recognize_names_from_half (self : t) (image : Image)
    (face_data : option FaceData) :
  let '(best_id, confidence, info) :=
    RecognizerApi.recognize sface_feature sface_match self image face_data in
  (0 <= confidence)%Q
  /\ (forall sid, best_id = Some sid ->
        (0.50 <= confidence)%Q
        /\ (exists refs, In (sid, refs) (embeddings self))
        /\ info = default ∅ (student_map self !! sid))
  /\ (best_id = None -> (confidence < 0.50)%Q /\ info = ∅)
  /\ (recognizer self = false
      \/ _generate_embedding sface_feature self image face_data = None ->
      best_id = None /\ confidence = 0%Q).
Proof.
  unfold RecognizerApi.recognize.
  assert (Hfail :
    (0 <= 0)%Q
    /\ (forall sid, @None string = Some sid ->
          (0.50 <= 0)%Q
          /\ (exists refs, In (sid, refs) (embeddings self))
          /\ (∅ : Info) = default ∅ (student_map self !! sid))
    /\ (@None string = None -> (0 < 0.50)%Q /\ (∅ : Info) = ∅)
    /\ (recognizer self = false
        \/ _generate_embedding sface_feature self image face_data = None ->
        @None string = None /\ 0%Q = 0%Q)).
  { split; [lra |]. split; [discriminate |].
    split; [intros _; split; [lra | reflexivity] | tauto]. }
  destruct (classify_cases self image face_data)
    as [[Hc Hwhy] | (target & bid & bs & refs & Hrec & Hemb & Href & _ & Hpos
                     & Hc)].
  - destruct (recognizer self); simpl negb; cbv iota; [| exact Hfail].
    destruct (_generate_embedding sface_feature self image face_data);
      [| exact Hfail].
    rewrite Hc. split; [lra |]. split; [discriminate |].
    split; [intros _; split; [lra | reflexivity] |].
    intros [Hf | Hf]; discriminate.
  - rewrite Hrec, Hemb. simpl negb. cbv iota.
    destruct Hc as [[Hb ->] | [(Hb1 & Hb2 & ->) | [Hb ->]]].
    + split; [exact Hpos |]. split.
      * intros sid [= <-]. split; [lra |].
        split; [exists refs; exact Href | reflexivity].
      * split; [discriminate |]. intros [Hf | Hf]; discriminate.
    + split; [exact Hpos |]. split.
      * intros sid [= <-]. split; [lra |].
        split; [exists refs; exact Href | reflexivity].
      * split; [discriminate |]. intros [Hf | Hf]; discriminate.
    + split; [exact Hpos |]. split; [discriminate |].
      split; [intros _; split; [exact Hb | reflexivity] |].
      intros [Hf | Hf]; discriminate.
Qed.

(** X3. [_compute_all_scores] ranks one entry for every enrolled student:
    the ids of the ranking are the enrolled ids in some order.  No score
    is negative, every entry carries the student's entry of the student
    map, and a student enrolled without a reference scores 0. *)
Theorem all_scores_one_per_student (self : t) (target : Emb) :
  map id_of (all_scores self (Some target)) ≡ₚ map fst (embeddings self)
  /\ (forall e, In e (all_scores self (Some target)) ->
        (0 <= score_of e)%Q
        /\ snd e = default ∅ (student_map self !! id_of e))
  /\ (forall sid, In (sid, []) (embeddings self) ->
        In (sid, 0%Q, default ∅ (student_map self !! sid))
          (all_scores self (Some target))).
Proof.
  split; [| split].
  - unfold _compute_all_scores. rewrite sort_desc_Permutation, map_map.
    erewrite map_ext; [reflexivity |]. intros [sid refs]. reflexivity.
  - intros e He. split; [eapply all_scores_nonneg, He |].
    apply (all_scores_In sface_match) in He as (refs & _ & ->). reflexivity.
  - intros sid Hin. apply (all_scores_In sface_match). exists []. simpl.
    split; [exact Hin | reflexivity].
Qed.

(** X4. For a count [top_n >= 0], [get_top_matches] returns the first
    [top_n] entries of the ranking that reach 0.40: cutting the ranking
    before the filter loses no qualifying student, since the ranking is
    descending. *)
Theorem top_matches_are_best_qualified (self : t) (image : Image)
    (face_data : option FaceData) (target : Emb) (top_n : Z) :
  recognizer self = true ->
  sface_feature image face_data = Some target ->
  0 <= top_n ->
  top_matches self image face_data top_n
  = firstn (Z.to_nat top_n)
      (List.filter qualified (all_scores self (Some target))).
Proof.
  intros Hrec Hemb Hn. unfold get_top_matches, _generate_embedding.
  rewrite Hrec, Hemb. simpl negb. cbv iota.
  unfold Py.slice_to.
  destruct (0 <=? top_n) eqn:E; [| lia].
  apply (descending_filter_firstn score_of MIN_CONFIDENCE).
  unfold _compute_all_scores. apply sort_desc_descending.
Qed.

(** X5. The two entry points agree: when the classifier names a student,
    [get_top_matches] for a count of at least one starts with that
    student, at the same score and with the same info. *)
Theorem top_match_is_classified (self : t) (image : Image)
    (face_data : option FaceData) (sid : string) (status : Status)
    (confidence : Q) (info : Info) (top_n : Z) :
  classify self image face_data = (Some sid, status, confidence, info) ->
  1 <= top_n ->
  exists rest,
    top_matches self image face_data top_n = (sid, confidence, info) :: rest.
Proof.
  unfold match_face_with_confidence, get_top_matches.
  destruct (negb (recognizer self)); [discriminate |].
  destruct (_generate_embedding sface_feature self image face_data)
    as [target |]; [| discriminate].
  destruct (all_scores self (Some target)) as [| [[bid bs] binfo] rest];
    [discriminate |].
  unfold HIGH_CONFIDENCE, LOW_CONFIDENCE, MIN_CONFIDENCE, Py.slice_to.
  intros Hc Hn.
  destruct (0 <=? top_n) eqn:E; [| lia].
  destruct (Z.to_nat top_n) as [| n] eqn:En; [lia |].
  cbn [firstn List.filter]. unfold score_of at 1. cbn [fst snd].
  assert (Hq : Py.Qleb 0.40 bs = true /\ (bid, bs, binfo) = (sid, confidence, info)).
  { destruct (Py.Qleb 0.75 bs) eqn:E1.
    - injection Hc as -> _ -> ->. apply Qleb_true in E1.
      split; [apply Qleb_true; lra | reflexivity].
    - destruct (Py.Qleb 0.50 bs) eqn:E2; [| discriminate].
      injection Hc as -> _ -> ->. apply Qleb_true in E2.
      split; [apply Qleb_true; lra | reflexivity]. }
  destruct Hq as [-> ->]. eexists. reflexivity.
Qed.

End RecognizerMore.

(** ** The attendance log, the decision engine and the reports *)
Section AttendanceMore.
Import AttendanceManager AttendanceReports.
Implicit Types (self s : t) (c : Call) (id : Py.value).

Local Abbreviation last_time self id := (default 0%Q (last_marked self !! id)).

(** One call is refused inside the cooldown, fails on the database
    write, or returns [True] and files one record, with its row when
    there is a database. *)
Lemma mark_step self c :
  let now := time_time (call_clock c) in
  let id := call_student_id c in
  ((now - last_time self id < cooldown_seconds self)%Q
   /\ mark self c
      = (self, (false, Already_Marked_Wait
                         (Py.int (cooldown_seconds self
                                  - (now - last_time self id))))))
  \/ ((cooldown_seconds self <= now - last_time self id)%Q
      /\ is_Some (db self) /\ call_insert_ok c = false
      /\ mark self c = (self, (false, Database_Error)))
  \/ ((cooldown_seconds self <= now - last_time self id)%Q
      /\ snd (mark self c) = (true, Marked_Present)
      /\ exists record,
           record_key record
           = (id, clock_hms (call_clock c),
              Text (Py.format_2f (call_confidence c)), call_marked_by c)
           /\ rec_name record = call_name c
           /\ today_log (fst (mark self c)) = today_log self ++ [record]
           /\ last_marked (fst (mark self c)) = <[id := now]> (last_marked self)
           /\ cooldown_seconds (fst (mark self c)) = cooldown_seconds self
           /\ match db self with
              | Some rows =>
                  call_insert_ok c = true
                  /\ exists row,
                       db (fst (mark self c)) = Some (rows ++ [row])
                       /\ row_key row = record_key record
                       /\ row_confidence row = call_confidence c
                       /\ row_date row = clock_date (call_clock c)
              | None => db (fst (mark self c)) = None
              end).
Proof.
  intros now id. unfold mark, mark_attendance. fold now id.
  destruct (Py.Qltb _ _) eqn:E.
  { apply Qltb_true in E. left. split; [exact E | reflexivity]. }
  apply Qltb_false in E. right.
  set (record := {| rec_id := id; rec_name := call_name c;
                    rec_time := clock_hms (call_clock c);
                    rec_status := "Present";
                    rec_confidence := Text (Py.format_2f (call_confidence c));
                    rec_marked_by := call_marked_by c |}).
  destruct (db self) as [rows |].
  - unfold db_mark_attendance. destruct (call_insert_ok c); simpl.
    + right. split; [exact E |]. split; [reflexivity |].
      exists record. split; [reflexivity |]. split; [reflexivity |].
      split; [reflexivity |]. split; [reflexivity |].
      split; [reflexivity |]. split; [reflexivity |].
      eexists. split; [reflexivity |]. split; [reflexivity |].
      split; reflexivity.
    + left. split; [exact E |]. split; [eexists; reflexivity |].
      split; reflexivity.
  - right. simpl. split; [exact E |]. split; [reflexivity |].
    exists record. split; [reflexivity |]. split; [reflexivity |].
    split; [reflexivity |]. split; [reflexivity |].
    split; reflexivity.
Qed.

(** X6. Over any sequence of [mark_attendance] calls the cache and the
    database stay in step: the log grows by exactly one record for each
    call that returns [True] and by none for the others, earlier records
    are kept in place, and with a database the table grows by the rows
    of the same marks in the same order: each new record has the student,
    the time and the marker of its row, and as its confidence the string
    that shows the row's confidence to two decimals.  Without a database
    no row appears. *)
Theorem log_and_database_in_step (calls : list Call) :
  forall self,
    exists new_records,
      today_log (after_calls self calls) = today_log self ++ new_records
      /\ length new_records = successes self calls
      /\ get_todays_count (after_calls self calls)
         = get_todays_count self + Z.of_nat (successes self calls)
      /\ match db self with
         | Some rows =>
             exists new_rows,
               db (after_calls self calls) = Some (rows ++ new_rows)
               /\ map row_key new_rows = map record_key new_records
         | None => db (after_calls self calls) = None
         end.
Proof.
  assert (Hcount : forall self self' new_records n,
            today_log self' = today_log self ++ new_records ->
            length new_records = n ->
            get_todays_count self' = get_todays_count self + Z.of_nat n).
  { intros self self' new n Hlog <-. unfold get_todays_count.
    rewrite Hlog, length_app. lia. }
  induction calls as [| c calls IH]; intros self.
  - exists []. simpl. rewrite app_nil_r.
    split; [reflexivity |]. split; [reflexivity |].
    split; [unfold get_todays_count; lia |].
    destruct (db self) as [rows |]; [| reflexivity].
    exists []. rewrite app_nil_r. split; reflexivity.
  - change (after_calls self (c :: calls))
      with (after_calls (fst (mark self c)) calls).
    cbn [successes].
    destruct (IH (fst (mark self c))) as (new & Hlog & Hlen & _ & Hdb).
    destruct (mark_step self c) as [[_ Hno] | [(_ & _ & _ & Hno) |
      (_ & Hyes & record & Hkey & _ & Hlog1 & _ & _ & Hdb1)]].
    1, 2: rewrite Hno in *; cbn [fst snd] in *;
      exists new; (split; [exact Hlog |]); (split; [exact Hlen |]);
      (split; [eapply Hcount; eassumption | exact Hdb]).
    rewrite Hyes. cbn [fst snd].
      exists (record :: new).
      assert (Hlog' : today_log (after_calls (fst (mark self c)) calls)
                      = today_log self ++ record :: new).
      { rewrite Hlog, Hlog1, <- app_assoc. reflexivity. }
      split; [exact Hlog' |].
      split; [simpl; rewrite Hlen; reflexivity |].
      split; [eapply Hcount; [exact Hlog' | simpl; rewrite Hlen; reflexivity] |].
      destruct (db self) as [rows |].
      * destruct Hdb1 as (_ & row & Hrows & Hrk & _).
        rewrite Hrows in Hdb. destruct Hdb as (new_rows & Hdb & Hmap).
        exists (row :: new_rows). rewrite Hdb, <- app_assoc.
        split; [reflexivity |]. simpl. rewrite Hrk, Hmap. reflexivity.
      * rewrite Hdb1 in Hdb. exact Hdb.
Qed.

(** X7. For a student id that is truthy, the decision engine and
    [mark_attendance] read the cooldown alike at the same clock reading:
    the decision says [can_mark = False] exactly when the call is refused
    as already marked, both report the same remaining time, and a call
    that the decision would auto-mark fails only on the database
    write. *)
Theorem decision_agrees_with_mark self (clock : Clock) (insert_ok : bool) id
    (name : string) (confidence : Q) (marked_by : string) :
  Py.truthy id = true ->
  let d := should_mark_attendance self (time_time clock) confidence id in
  let r := snd (mark_attendance self clock insert_ok id name confidence
                  marked_by) in
  (can_mark d = false <-> exists time_left,
                            r = (false, Already_Marked_Wait time_left))
  /\ (forall time_left, r = (false, Already_Marked_Wait time_left) ->
        action d = COOLDOWN /\ message d = Already_marked_wait time_left)
  /\ (action d = AUTO_MARK ->
      r = (true, Marked_Present) \/ r = (false, Database_Error)).
Proof.
  intros Hid d r.
  set (c := {| call_clock := clock; call_insert_ok := insert_ok;
               call_student_id := id; call_name := name;
               call_confidence := confidence;
               call_marked_by := marked_by |}).
  change r with (snd (mark self c)).
  assert (Hd : (time_time clock - last_time self id < cooldown_seconds self)%Q
               /\ d = {| action := COOLDOWN; status := NOT_RECOGNIZED;
                         requires_verification := true;
                         message :=
                           Already_marked_wait
                             (Py.int (cooldown_seconds self
                                      - (time_time clock - last_time self id)));
                         can_mark := false |}
               \/ (cooldown_seconds self <= time_time clock - last_time self id)%Q
                  /\ can_mark d = true /\ action d <> COOLDOWN).
  { unfold d, should_mark_attendance. rewrite Hid.
    destruct (Py.Qltb _ _) eqn:E.
    - apply Qltb_true in E. left. split; [exact E | reflexivity].
    - apply Qltb_false in E. right. split; [exact E |].
      unfold decide_by_confidence.
      repeat match goal with
             | |- context [if ?b then _ else _] => destruct b
             end; simpl; split; (reflexivity || discriminate). }
  destruct (mark_step self c) as [[Hin Hm] | [(Hin & _ & _ & Hm) |
    (Hin & Hm & _)]]; cbn [call_clock call_student_id c] in Hin;
    rewrite Hm; cbn [snd];
    destruct Hd as [[Hin' ->] | (Hout' & Hcan & Hact)]; try lra.
  - cbn [can_mark action message].
    split; [split; [intros _; eexists; reflexivity | reflexivity] |].
    split; [| discriminate].
    intros tl [= <-]. split; reflexivity.
  - rewrite Hcan.
    split; [split; [discriminate | intros [tl Htl]; discriminate] |].
    split; [intros tl; discriminate | tauto].
  - rewrite Hcan.
    split; [split; [discriminate | intros [tl Htl]; discriminate] |].
    split; [intros tl; discriminate | tauto].
Qed.

(** X8. After a call that returned [True] for a truthy student id, the
    decision engine answers COOLDOWN for that student at every clock
    reading less than [cooldown_seconds] after the mark, whatever the
    confidence: [can_mark] is [False], the status stays NOT_RECOGNIZED,
    and the message carries the remaining time rounded down to whole
    seconds. *)
Theorem marked_student_waits self c (now' confidence : Q) :
  fst (snd (mark self c)) = true ->
  Py.truthy (call_student_id c) = true ->
  (now' - time_time (call_clock c) < cooldown_seconds self)%Q ->
  let d := should_mark_attendance (fst (mark self c)) now' confidence
             (call_student_id c) in
  let remaining :=
    (cooldown_seconds self - (now' - time_time (call_clock c)))%Q in
  action d = COOLDOWN /\ can_mark d = false /\ status d = NOT_RECOGNIZED
  /\ exists time_left,
       message d = Already_marked_wait time_left
       /\ 0 <= time_left
       /\ (inject_Z time_left <= remaining)%Q
       /\ (remaining < inject_Z (time_left + 1))%Q.
Proof.
  intros Hok Hid Hwin d remaining.
  destruct (mark_step self c) as [[_ Hm] | [(_ & _ & _ & Hm) |
    (_ & _ & record & _ & _ & _ & Hlm & Hcd & _)]];
    [rewrite Hm in Hok; discriminate | rewrite Hm in Hok; discriminate |].
  unfold d, should_mark_attendance. rewrite Hid, Hlm, Hcd, lookup_insert_eq.
  cbn [default from_option id].
  assert (E : Py.Qltb (now' - time_time (call_clock c)) (cooldown_seconds self)
              = true) by (apply Qltb_true; exact Hwin).
  rewrite E. cbn [action can_mark status message].
  split; [reflexivity |]. split; [reflexivity |]. split; [reflexivity |].
  eexists. split; [reflexivity |]. fold remaining.
  assert (Hpos : (0 < remaining)%Q) by (unfold remaining; lra).
  unfold Py.int.
  assert (Hle : Qle_bool 0 remaining = true)
    by (apply Qle_bool_iff; lra).
  rewrite Hle.
  split; [| split; [apply Qfloor_le | apply Qlt_floor]].
  change 0 with (Qfloor 0). apply Qfloor_resp_le. lra.
Qed.

(** The cooldown table [__init__] builds from a history. *)
Lemma seed_skips (id : Py.value) (history : list (LogRecord * option Q)) :
  (forall r stamp, In (r, Some stamp) history -> rec_id r <> id) ->
  forall lm : gmap Py.value Q,
    fold_left
      (fun lm '(rec, ts) =>
         match ts with
         | Some stamp => <[rec_id rec := stamp]> lm
         | None => lm
         end)
      history lm !! id
    = lm !! id.
Proof.
  induction history as [| [r [stamp |]] history IH]; intros Hno lm;
    [reflexivity | |]; cbn [fold_left].
  - rewrite IH by (intros r' s' Hin; apply (Hno r' s'); right; exact Hin).
    apply lookup_insert_ne. apply (Hno r stamp). left. reflexivity.
  - apply IH. intros r' s' Hin. apply (Hno r' s'). right. exact Hin.
Qed.

(** X9. [__init__] with a database seeds the cooldown table from today's
    history: a student's entry is the timestamp of the last record of the
    history that names the student and whose time string parses, a
    student without such a record has no entry, and the history itself
    becomes the log.  A call for the student less than [cooldown_seconds]
    after that timestamp is refused. *)
Theorem init_seeds_cooldown (cooldown : Q) (rows : list DbRow)
    (before : list (LogRecord * option Q)) (rec : LogRecord) (stamp : Q)
    (after : list (LogRecord * option Q)) :
  (forall r stamp', In (r, Some stamp') after -> rec_id r <> rec_id rec) ->
  let history := before ++ (rec, Some stamp) :: after in
  let self := init cooldown (Some rows) history in
  last_marked self !! rec_id rec = Some stamp
  /\ (forall id, (forall r stamp', In (r, Some stamp') history ->
                                   rec_id r <> id) ->
                 last_marked self !! id = None)
  /\ today_log self = map fst history
  /\ (forall c, call_student_id c = rec_id rec ->
        (time_time (call_clock c) - stamp < cooldown)%Q ->
        fst (snd (mark self c)) = false /\ fst (mark self c) = self).
Proof.
  intros Hlast history self.
  assert (Hseed : last_marked self !! rec_id rec = Some stamp).
  { unfold self, init, history. cbn [last_marked].
    rewrite fold_left_app. cbn [fold_left].
    rewrite seed_skips by exact Hlast. apply lookup_insert_eq. }
  split; [exact Hseed |]. split; [| split; [reflexivity |]].
  - intros id Hno. unfold self, init. cbn [last_marked].
    rewrite seed_skips by exact Hno. apply lookup_empty.
  - intros c Hc Hwin.
    destruct (mark_step self c) as [[_ Hm] | [(Hout & _) | (Hout & _)]].
    + rewrite Hm. split; reflexivity.
    + rewrite Hc, Hseed in Hout. cbn [default from_option id] in Hout.
      change (cooldown_seconds self) with cooldown in Hout. lra.
    + rewrite Hc, Hseed in Hout. cbn [default from_option id] in Hout.
      change (cooldown_seconds self) with cooldown in Hout. lra.
Qed.

Section Stats.
Variable float_confidence : LogRecord -> option Q.

Local Abbreviation stats_of := (get_confidence_stats float_confidence).

Lemma confidences_spec (log : list LogRecord) :
  (forall r, In r log -> is_Some (float_confidence r)) ->
  exists cs,
    confidences float_confidence log = Some cs
    /\ length cs = length log
    /\ (forall c : Q, In c cs ->
          exists r, In r log /\ float_confidence r = Some c).
Proof.
  induction log as [| r log IH]; intros Hall.
  - exists []. split; [reflexivity |]. split; [reflexivity |]. intros c [].
  - destruct (Hall r (or_introl eq_refl)) as [c Hc].
    destruct IH as (cs & Hcs & Hlen & Hsrc).
    { intros r' Hr'. apply Hall. right. exact Hr'. }
    exists (c :: cs). cbn [confidences]. rewrite Hc, Hcs.
    split; [reflexivity |]. split; [simpl; rewrite Hlen; reflexivity |].
    intros x [<- | Hin].
    + exists r. split; [left; reflexivity | exact Hc].
    + destruct (Hsrc x Hin) as (r' & Hr' & Hx).
      exists r'. split; [right; exact Hr' | exact Hx].
Qed.

Lemma sum_bounds (lo hi : Q) (cs : list Q) :
  (forall c : Q, In c cs -> (lo <= c)%Q /\ (c <= hi)%Q) ->
  forall acc,
    (acc + inject_Z (Z.of_nat (length cs)) * lo <= fold_left Qplus cs acc)%Q
    /\ (fold_left Qplus cs acc
        <= acc + inject_Z (Z.of_nat (length cs)) * hi)%Q.
Proof.
  induction cs as [| c cs IH]; intros Hb acc.
  - cbn [fold_left length]. change (inject_Z (Z.of_nat 0)) with 0%Q.
    split; lra.
  - destruct (Hb c (or_introl eq_refl)) as [Hlo Hhi].
    destruct (IH (fun x Hx => Hb x (or_intror Hx)) (acc + c)%Q)
      as [IHlo IHhi].
    cbn [fold_left length].
    rewrite Nat2Z.inj_succ, <- Z.add_1_r, inject_Z_plus.
    split; [eapply Qle_trans; [| exact IHlo] | eapply Qle_trans; [exact IHhi |]];
      change (inject_Z 1) with 1%Q; lra.
Qed.

Lemma exclusive_counts (p q : Q -> bool) (cs : list Q) :
  (forall c : Q, p c = true -> q c = true -> False) ->
  (length (List.filter p cs) + length (List.filter q cs) <= length cs)%nat.
Proof.
  intros Hex. induction cs as [| c cs IH]; simpl; [lia |].
  destruct (p c) eqn:Hp, (q c) eqn:Hq; simpl; try lia.
  exfalso. eapply Hex; eassumption.
Qed.

(** X10. When every confidence of the log reads as a number,
    [get_confidence_stats] returns (its division is guarded by the check
    for an empty log); the two counts are disjoint, so together they do
    not exceed [get_todays_count]; an empty log gives all zeros; and the
    average of a non-empty log lies between any two bounds that hold for
    all its confidences. *)
Theorem confidence_stats_bounds self :
  (forall r, In r (today_log self) -> is_Some (float_confidence r)) ->
  exists stats,
    stats_of self = Some stats
    /\ 0 <= high_confidence_count stats
    /\ 0 <= low_confidence_count stats
    /\ high_confidence_count stats + low_confidence_count stats
       <= get_todays_count self
    /\ (today_log self = [] ->
        stats = {| high_confidence_count := 0; low_confidence_count := 0;
                   avg_confidence := 0%Q |})
    /\ (forall lo hi,
          today_log self <> [] ->
          (forall r (c : Q), In r (today_log self) -> float_confidence r = Some c ->
                       (lo <= c)%Q /\ (c <= hi)%Q) ->
          (lo <= avg_confidence stats)%Q /\ (avg_confidence stats <= hi)%Q).
Proof.
  intros Hall. unfold get_confidence_stats, get_todays_count.
  destruct (today_log self) as [| r0 log] eqn:Hlog.
  { eexists. split; [reflexivity |]. simpl.
    split; [lia |]. split; [lia |]. split; [lia |].
    split; [reflexivity |]. intros lo hi Hne. congruence. }
  destruct (confidences_spec (r0 :: log) Hall) as (cs & -> & Hlen & Hsrc).
  set (n := inject_Z (Z.of_nat (length cs))).
  assert (Hn : (0 < n)%Q).
  { unfold n. rewrite Hlen. cbn [length].
    change 0%Q with (inject_Z 0). rewrite <- Zlt_Qlt. lia. }
  unfold PyList.fdiv.
  destruct (Qeq_bool n 0) eqn:E.
  { apply Qeq_bool_iff in E. rewrite E in Hn. exfalso.
    apply (Qlt_irrefl _ Hn). }
  eexists. split; [reflexivity |]. cbn [high_confidence_count
    low_confidence_count avg_confidence].
  split; [lia |]. split; [lia |]. split.
  { rewrite <- Hlen.
    pose proof (exclusive_counts (Py.Qleb HIGH_CONFIDENCE)
                  (fun c : Q => Py.Qltb c LOW_CONFIDENCE) cs) as Hex.
    assert (Hdis : forall c : Q, Py.Qleb HIGH_CONFIDENCE c = true ->
                     Py.Qltb c LOW_CONFIDENCE = true -> False).
    { intros c H1 H2. apply Qleb_true in H1. apply Qltb_true in H2.
      unfold HIGH_CONFIDENCE, LOW_CONFIDENCE in *. lra. }
    specialize (Hex Hdis). lia. }
  split; [discriminate |].
  intros lo hi _ Hb.
  destruct (sum_bounds lo hi cs) with (acc := 0%Q) as [Hlo Hhi].
  { intros c Hc. destruct (Hsrc c Hc) as (r & Hr & Hrc).
    exact (Hb r c Hr Hrc). }
  fold n in Hlo, Hhi. unfold PyList.sum.
  split.
  - apply Qle_shift_div_l; [exact Hn |]. lra.
  - apply Qle_shift_div_r; [exact Hn |]. lra.
Qed.

End Stats.

End AttendanceMore.

(** ** The quality gate and the capture session *)
Section QualityGate.
Import Detector FaceValidator.
Context {Frame : Type}.
Variable roi_size : Frame -> Z * Z * Z * Z -> Z.
Variable laplacian_var : Frame -> Z * Z * Z * Z -> Q.
Variable mean_brightness : Frame -> Z * Z * Z * Z -> Q.

(** X11. [check_quality] accepts a face exactly when it reports no issue,
    and that is when the box is at least 60 by 60 pixels, its region of
    the frame (the corner clipped at 0) is not empty, the Laplacian
    variance reaches 100 and the mean brightness lies in [40, 220].  An
    empty region is reported alone, and a face is never reported both
    too dark and too bright. *)
Theorem check_quality_accepts (frame : Frame) (fx fy fw fh : Q) :
  let w := Py.int fw in
  let h := Py.int fh in
  let roi := (Z.max 0 (Py.int fx), Z.max 0 (Py.int fy), w, h) in
  let result :=
    check_quality roi_size laplacian_var mean_brightness frame
      (fx, fy, fw, fh) in
  (fst result = true <-> snd result = [])
  /\ (fst result = true <->
      (60 <= w /\ 60 <= h /\ roi_size frame roi <> 0
       /\ (100 <= laplacian_var frame roi)%Q
       /\ (40 <= mean_brightness frame roi)%Q
       /\ (mean_brightness frame roi <= 220)%Q))
  /\ (roi_size frame roi = 0 -> result = (false, [Invalid_ROI]))
  /\ (In Invalid_ROI (snd result) -> roi_size frame roi = 0)
  /\ ~ (In Too_Dark (snd result) /\ In Too_Bright (snd result)).
Proof.
  intros w h roi result.
  assert (Hroi : (if Py.int fx <? 0 then 0 else Py.int fx,
                  if Py.int fy <? 0 then 0 else Py.int fy, w, h) = roi).
  { unfold roi. repeat f_equal;
      match goal with
      | |- (if ?a <? 0 then _ else _) = _ =>
          destruct (Z.ltb_spec a 0); lia
      end. }
  unfold result, check_quality. cbv zeta. fold w h. rewrite Hroi.
  destruct (Z.eqb_spec (roi_size frame roi) 0) as [Hz | Hnz].
  { cbn [fst snd]. split; [split; discriminate |].
    split; [split; [discriminate | tauto] |].
    split; [reflexivity |]. split; [intros _; exact Hz |].
    intros [[H | []] _]. discriminate. }
  destruct (Z.ltb_spec w 60) as [Hw | Hw];
    destruct (Z.ltb_spec h 60) as [Hh | Hh]; cbn [orb];
    destruct (Py.Qltb (laplacian_var frame roi) 100) eqn:Hb;
    destruct (Py.Qltb (mean_brightness frame roi) 40) eqn:Hd;
    destruct (Py.Qltb 220 (mean_brightness frame roi)) eqn:Hl;
    float_cmp; cbn [app fst snd];
    (split; [split; (discriminate || reflexivity) |]);
    (split; [split; [try discriminate; intros _;
                     repeat split; (lia || lra || assumption)
                    | intros (? & ? & ? & ? & ? & ?);
                      try reflexivity; exfalso; (lia || lra)] |]);
    (split; [intros Hz; contradiction |]);
    (split; [cbn [In]; intros H;
             repeat (destruct H as [H | H]; try discriminate);
             contradiction |]);
    cbn [In]; intros [Hdk Hbr];
    repeat (destruct Hdk as [Hdk | Hdk]; try discriminate);
    repeat (destruct Hbr as [Hbr | Hbr]; try discriminate);
    try contradiction; lra.
Qed.

End QualityGate.

Section CaptureMore.
Import Detector CaptureManager CaptureSession.
Context {Frame Emb : Type}.
Variable detect : Frame -> list Face.
Variable shape : Frame -> Z * Z.
Variable roi_size : Frame -> Z * Z * Z * Z -> Z.
Variable laplacian_var : Frame -> Z * Z * Z * Z -> Q.
Variable mean_brightness : Frame -> Z * Z * Z * Z -> Q.
Variable save_image :
  option string -> Frame -> Z * Z * Z * Z -> string -> bool * string.
Variable generate_embedding : Frame -> Face -> option Emb.

Local Abbreviation step :=
  (process_frame detect shape roi_size laplacian_var mean_brightness
     save_image generate_embedding).
Local Abbreviation can_capture :=
  (capturable detect shape roi_size laplacian_var mean_brightness save_image).
Local Abbreviation manager := (CaptureManager.t (Emb := Emb)).
Local Abbreviation run :=
  (Runs.after_frames detect shape roi_size laplacian_var mean_brightness
     save_image generate_embedding).

Lemma pose_gate_ok (tg : string) (yaw : Q) :
  fst (pose_gate (Some tg) yaw) = true -> Poses.pose_ok tg yaw.
Proof.
  unfold Poses.pose_ok.
  destruct (String.eqb tg "front") eqn:E1.
  { apply String.eqb_eq in E1. subst tg. apply pose_gate_front. }
  destruct (String.eqb tg "left") eqn:E2.
  { apply String.eqb_eq in E2. subst tg. apply pose_gate_left. }
  destruct (String.eqb tg "right") eqn:E3.
  { apply String.eqb_eq in E3. subst tg. apply pose_gate_right. }
  unfold pose_gate. rewrite E1, E2, E3. discriminate.
Qed.

Lemma update_status_store (self : manager) :
  db_and_recognizer (update_status self) = db_and_recognizer self
  /\ db_embeddings (update_status self) = db_embeddings self.
Proof.
  unfold update_status. destruct (get_current_target self) as [tg |].
  - repeat match goal with
           | |- context [if ?b then _ else _] => destruct b
           end; split; reflexivity.
  - split; reflexivity.
Qed.

(** One frame either changes nothing but the status message, or captures
    the current target. *)
Lemma step_cases (self : manager) (frame : Frame) (now : Q) :
  let self' := fst (step self frame now) in
  same_progress self self'
  \/ (exists tg path,
        state self = CAPTURING
        /\ get_current_target self = Some tg
        /\ can_capture (current_student_id self) tg frame
        /\ (1 < now - last_capture_time self)%Q
        /\ current_idx self' = S (current_idx self)
        /\ captured_angles self'
           = OrderedDict.set (captured_angles self) tg path
        /\ last_capture_time self' = now
        /\ required_angles self' = required_angles self
        /\ current_student_id self' = current_student_id self
        /\ db_and_recognizer self' = db_and_recognizer self
        /\ (db_embeddings self' = db_embeddings self
            \/ exists emb,
                 db_and_recognizer self = true
                 /\ db_embeddings self'
                    = db_embeddings self
                      ++ [(current_student_id self, emb, tg)])
        /\ state self'
           = match nth_error (required_angles self) (S (current_idx self)) with
             | Some _ => CAPTURING
             | None => COMPLETED
             end).
Proof.
  assert (Hsame : forall s : manager, same_progress s s)
    by (intros s; repeat split).
  assert (Hmsg : forall (s : manager) m, same_progress s (set_message s m))
    by (intros s m; repeat split).
  intros self'. unfold self', process_frame.
  destruct (state self) eqn:Hst; [left; apply Hsame | | left; apply Hsame].
  destruct (Py.max_by _ (detect frame)) as [face |] eqn:Hmax;
    [| left; apply Hsame].
  destruct (FaceValidator.check_quality _ _ _ _ _) as [is_good issues] eqn:Hq.
  destruct is_good; simpl negb; cbv iota; [| left; apply Hsame].
  destruct (pose_gate (get_current_target self)
              (FaceValidator.calculate_pose (face_landmarks face)))
    as [passed prompt] eqn:Hg.
  destruct passed; cbn [andb].
  2: { cbn [fst]. left. destruct prompt; [apply Hmsg | apply Hsame]. }
  assert (Hp : prompt = None).
  { pose proof (pose_gate_pass (get_current_target self)
                  (FaceValidator.calculate_pose (face_landmarks face))) as H.
    rewrite Hg in H. specialize (H eq_refl). congruence. }
  subst prompt.
  destruct (Py.Qltb 1.0 (now - last_capture_time self)) eqn:Hgap;
    [| left; apply Hsame].
  destruct (get_current_target self) as [tg |] eqn:Htg; [| left; apply Hsame].
  destruct (save_image (current_student_id self) frame
              (padded_crop shape frame face) tg) as [success path] eqn:Hsave.
  destruct success; [| left; apply Hsame].
  right. exists tg, path. cbn [fst].
  split; [reflexivity |]. split; [reflexivity |].
  split.
  { exists face. split; [exact Hmax |]. rewrite Hq. split; [reflexivity |].
    split; [| rewrite Hsave; reflexivity].
    apply pose_gate_ok. rewrite Hg. reflexivity. }
  split; [apply Qltb_true in Hgap; lra |].
  unfold record_capture.
  match goal with
  | |- context [update_status ?m] =>
      destruct (update_status_fields m) as (H1 & H2 & H3 & H4 & H5 & H6);
      destruct (update_status_store m) as [H7 H8]
  end.
  rewrite H1, H2, H3, H4, H5, H6, H7, H8.
  cbn [current_idx captured_angles last_capture_time required_angles
       current_student_id db_and_recognizer db_embeddings state].
  unfold get_current_target.
  cbn [current_idx required_angles]. rewrite Hst.
  repeat (split; [reflexivity |]).
  split; [| reflexivity].
  destruct (db_and_recognizer self); [| left; reflexivity].
  destruct (generate_embedding frame face) as [emb |];
    [right; exists emb; split; reflexivity | left; reflexivity].
Qed.

(** X12. In a session that is capturing, a frame advances the index
    exactly when its largest face passes the quality gate, shows the
    pose asked for, is saved, and more than one second has passed since
    the last capture.  A frame advances the index by at most one; a frame
    that does not advance it changes nothing but the status message; and
    an embedding is stored only together with a capture, for the student
    and the pose of that capture. *)
Theorem capture_exactly_when_capturable (self : manager) (frame : Frame)
    (now : Q) (tg : string) :
  state self = CAPTURING ->
  get_current_target self = Some tg ->
  let self' := fst (step self frame now) in
  (current_idx self' = S (current_idx self) <->
   can_capture (current_student_id self) tg frame
   /\ (1 < now - last_capture_time self)%Q)
  /\ (current_idx self' = current_idx self
      \/ current_idx self' = S (current_idx self))
  /\ (current_idx self' = current_idx self -> same_progress self self')
  /\ (db_embeddings self' = db_embeddings self
      \/ exists emb,
           current_idx self' = S (current_idx self)
           /\ db_embeddings self'
              = db_embeddings self ++ [(current_student_id self, emb, tg)]).
Proof.
  intros Hst Htg self'.
  destruct (step_cases self frame now) as [Hsame |
    (tg' & path & _ & Htg' & Hcan & Hgap & Hidx & _ & _ & _ & _ & _ & Hemb & _)].
  - fold self' in Hsame.
    destruct Hsame as (_ & Hemb & _ & _ & _ & Hidx & _).
    split; [split |].
    + intros H. rewrite Hidx in H. lia.
    + intros [Hcan Hgap].
      destruct (capture_step detect shape roi_size laplacian_var
                  mean_brightness save_image generate_embedding
                  self frame now tg Hst Htg Hcan Hgap) as (path & H & _).
      exact H.
    + split; [left; exact Hidx |].
      split; [| left; exact Hemb].
      intros _. destruct (step_cases self frame now) as [H | (? & ? & H)];
        [exact H |].
      destruct H as (_ & _ & _ & _ & H & _). fold self' in H. lia.
  - fold self' in Hidx, Hemb. rewrite Htg in Htg'. injection Htg' as <-.
    split; [split; [intros _; split; assumption | intros _; exact Hidx] |].
    split; [right; exact Hidx |].
    split; [intros H; rewrite Hidx in H; lia |].
    destruct Hemb as [Hemb | (emb & _ & Hemb)]; [left; exact Hemb |].
    right. exists emb. split; [exact Hidx | exact Hemb].
Qed.

Lemma set_fresh {K V : Type} `{EqDecision K} (d : list (K * V)) (k : K)
    (v : V) :
  ~ In k (OrderedDict.keys d) -> OrderedDict.set d k v = d ++ [(k, v)].
Proof.
  induction d as [| [k' v'] d IH]; intros Hk; simpl; [reflexivity |].
  destruct (decide (k = k')) as [-> | _].
  - exfalso. apply Hk. left. reflexivity.
  - f_equal. apply IH. intros Hin. apply Hk. right. exact Hin.
Qed.

Lemma get_app_l {K V : Type} `{EqDecision K} (d d' : list (K * V)) (k : K)
    (v : V) :
  OrderedDict.get d k = Some v -> OrderedDict.get (d ++ d') k = Some v.
Proof.
  induction d as [| [k' v'] d IH]; simpl; [discriminate |].
  destruct (decide (k = k')); [tauto | exact IH].
Qed.

(** One frame keeps a session in order, never lowers the index and never
    replaces a saved capture. *)
Lemma step_in_session (sid : string) (self : manager) (frame : Frame)
    (now : Q) :
  in_session sid self ->
  let self' := fst (step self frame now) in
  in_session sid self'
  /\ (current_idx self <= current_idx self')%nat
  /\ (forall angle path,
        OrderedDict.get (captured_angles self) angle = Some path ->
        OrderedDict.get (captured_angles self') angle = Some path).
Proof.
  intros (Hreq & Hle & Hkeys & Hdone & Hcap & Hsid) self'.
  pose proof (step_cases self frame now) as Hc. cbv zeta in Hc.
  fold self' in Hc.
  destruct Hc as [Hsame |
    (tg & path & Hst & Htg & _ & _ & Hidx & Hcapt & _ & Hreq' & Hsid' & _ & _
     & Hst')].
  - destruct Hsame as (_ & _ & E3 & E4 & E5 & E6 & _ & E8).
    unfold in_session. rewrite E3, E4, E5, E6, E8.
    split; [repeat split; tauto || lia |]. split; [lia | tauto].
  - apply Hcap in Hst. unfold get_current_target in Htg.
    rewrite Hreq in Htg, Hkeys, Hst'.
    assert (Hfresh : ~ In tg (OrderedDict.keys (captured_angles self))).
    { rewrite Hkeys.
      destruct (current_idx self) as [| [| [| n]]]; [| | | lia];
        injection Htg as <-; cbn [firstn In];
        intros H; repeat (destruct H as [H | H]; try discriminate);
        exact H. }
    rewrite (set_fresh _ _ _ Hfresh) in Hcapt.
    split; [| split; [lia |]].
    + unfold in_session. rewrite Hreq', Hsid', Hidx, Hcapt, Hst', Hreq.
      unfold OrderedDict.keys in *. rewrite map_app, Hkeys.
      destruct (current_idx self) as [| [| [| n]]]; [| | | lia];
        injection Htg as <-; cbn [map fst app firstn nth_error];
        (split; [reflexivity |]); (split; [lia |]);
        (split; [reflexivity |]);
        (split; [split; (discriminate || lia || reflexivity) |]);
        (split; [split; (discriminate || lia || reflexivity) |]);
        exact Hsid.
    + intros angle p Hget. rewrite Hcapt. apply get_app_l, Hget.
Qed.

Lemma run_in_session (sid : string) (frames : list (Frame * Q)) :
  forall self : manager,
    in_session sid self ->
    in_session sid (run self frames)
    /\ (current_idx self <= current_idx (run self frames))%nat
    /\ (forall angle path,
          OrderedDict.get (captured_angles self) angle = Some path ->
          OrderedDict.get (captured_angles (run self frames)) angle
          = Some path).
Proof.
  induction frames as [| [frame now] frames IH]; intros self Hin.
  - change (run self []) with self.
    split; [exact Hin |]. split; [lia | tauto].
  - destruct (step_in_session sid self frame now Hin) as (H1 & H2 & H3).
    destruct (IH _ H1) as (I1 & I2 & I3).
    change (run self ((frame, now) :: frames))
      with (run (fst (step self frame now)) frames).
    split; [exact I1 |]. split; [lia |].
    intros angle path Hget. apply I3, H3, Hget.
Qed.

(** X13. Whatever frames follow [start_session], and at whatever clock
    readings, the session stays in order: the three poses remain
    required, the index never exceeds three, the captured poses are the
    required poses before the index, in order, the state is COMPLETED
    exactly at index three and CAPTURING below, and the progress lies in
    [0, 1].  Further frames never lower the index and never replace a
    saved capture. *)
Theorem session_stays_in_order (self0 : manager) (student_id : string)
    (frames more : list (Frame * Q)) :
  let s := run (start_session self0 student_id) frames in
  let s' := run s more in
  in_session student_id s
  /\ (0 <= progress s)%Q /\ (progress s <= 1)%Q
  /\ (current_idx s <= current_idx s')%nat
  /\ (forall angle path,
        OrderedDict.get (captured_angles s) angle = Some path ->
        OrderedDict.get (captured_angles s') angle = Some path).
Proof.
  intros s s'.
  assert (H0 : in_session student_id (start_session self0 student_id)).
  { unfold in_session, start_session, update_status, get_current_target.
    cbn. split; [reflexivity |]. split; [lia |]. split; [reflexivity |].
    split; [split; [discriminate | lia] |].
    split; [split; [lia | reflexivity] | reflexivity]. }
  destruct (run_in_session student_id frames _ H0) as (Hs & _ & _).
  fold s in Hs.
  destruct (run_in_session student_id more _ Hs) as (_ & Hidx & Hkeep).
  fold s' in Hidx, Hkeep.
  split; [exact Hs |].
  destruct Hs as (_ & Hle & _).
  assert (Hp : (0 <= progress s)%Q /\ (progress s <= 1)%Q).
  { unfold progress.
    destruct (current_idx s) as [| [| [| [| n]]]]; [| | | | lia];
      split; vm_compute; discriminate. }
  tauto.
Qed.

(** X14. The crop that is saved never reaches outside the frame; and when
    the face box lies inside the frame the crop covers it, with a margin
    of at most a fifth of the box on each side. *)
Theorem padded_crop_in_frame (frame : Frame) (face : Face) :
  let x := Py.int (face_x face) in
  let y := Py.int (face_y face) in
  let w := Py.int (face_w face) in
  let h := Py.int (face_h face) in
  let '(x1, y1, x2, y2) := padded_crop shape frame face in
  (0 <= x1 /\ 0 <= y1 /\ x2 <= snd (shape frame) /\ y2 <= fst (shape frame))
  /\ (0 <= x -> 0 <= w -> x + w <= snd (shape frame) ->
      x1 <= x /\ x + w <= x2 /\ x - x1 <= w / 5 /\ x2 - (x + w) <= w / 5)
  /\ (0 <= y -> 0 <= h -> y + h <= fst (shape frame) ->
      y1 <= y /\ y + h <= y2 /\ y - y1 <= h / 5 /\ y2 - (y + h) <= h / 5).
Proof.
  intros x y w h. unfold padded_crop. fold x y w h.
  assert (Hpad : forall n, 0 <= n -> Py.int (inject_Z n * 0.2)%Q = n / 5).
  { intros n Hn. unfold Py.int.
    assert (Hle : Qle_bool 0 (inject_Z n * 0.2) = true).
    { apply Qle_bool_iff. apply Qmult_le_0_compat; [| lra].
      change 0%Q with (inject_Z 0). rewrite <- Zle_Qle. exact Hn. }
    rewrite Hle. unfold Qfloor, inject_Z, Qmult. cbn [Qnum Qden].
    change (Z.pos (1 * 10)) with (5 * 2).
    apply Z.div_mul_cancel_r; lia. }
  destruct (shape frame) as [h_img w_img]. cbn [fst snd].
  split; [lia |]. split.
  - intros Hx Hw Hfit. rewrite (Hpad w Hw).
    pose proof (Z.div_pos w 5 Hw ltac:(lia)). lia.
  - intros Hy Hh Hfit. rewrite (Hpad h Hh).
    pose proof (Z.div_pos h 5 Hh ltac:(lia)). lia.
Qed.

End CaptureMore.

(** ** The frame tracker over a run *)
Section TrackerMore.
Import Detector FrameTracker TrackerInvariants.
Context {Frame Emb Tracker : Type}.
Variable detect : Frame -> list Face.
Variable tracker_init : Frame -> Box -> Tracker.
Variable tracker_update : Tracker -> Frame -> @Update Tracker.
Variable shape : Frame -> Z * Z.
Variable crop : Frame -> Z * Z * Z * Z -> Frame.
Variable size : Frame -> Z.
Variable sface_feature : Frame -> option Face -> option Emb.
Variable sface_match : Emb -> Emb -> Q.

Local Abbreviation track := (@TrackedFace Emb Tracker).
Local Abbreviation tracker_state := (@FrameTracker.t Emb Tracker).
Local Abbreviation process :=
  (process_frame detect shape crop size tracker_init tracker_update
     sface_feature sface_match).
Local Abbreviation run_detection := (_run_detection detect tracker_init).
Local Abbreviation run_tracking := (_run_tracking tracker_update).
Local Abbreviation run_recognition :=
  (_run_recognition shape crop size sface_feature sface_match).
Local Abbreviation classify :=
  (Recognizer.match_face_with_confidence sface_feature sface_match).
Local Abbreviation reachable :=
  (Runs.reachable detect shape crop size tracker_init tracker_update
     sface_feature sface_match).

(** *** Detections and tracks *)

Lemma unmatched_from_take (dets : list Face) (used : gset nat) (j : nat)
    (det : Face) :
  forall idx,
    (idx <= j)%nat ->
    dets !! (j - idx)%nat = Some det ->
    j ∉ used ->
    unmatched_from idx dets used
    ≡ₚ det :: unmatched_from idx dets ({[j]} ∪ used).
Proof.
  induction dets as [| d dets IH]; intros idx Hle Hj Hfree;
    [discriminate |].
  cbn [unmatched_from].
  destruct (decide (idx = j)) as [-> | Hne].
  - rewrite Nat.sub_diag in Hj. injection Hj as ->.
    destruct (decide (j ∈ used)) as [Hin | _]; [contradiction |].
    destruct (decide (j ∈ {[j]} ∪ used)) as [_ | Hout];
      [| exfalso; apply Hout, elem_of_union_l, elem_of_singleton_2;
         reflexivity].
    f_equal.
    assert (Hsame : forall l i, (j < i)%nat ->
              unmatched_from i l ({[j]} ∪ used) = unmatched_from i l used).
    { induction l as [| x l IHl]; intros i Hi; [reflexivity |].
      cbn [unmatched_from]. rewrite (IHl (S i)) by lia.
      destruct (decide (i ∈ used)) as [Hu | Hu].
      - destruct (decide (i ∈ {[j]} ∪ used)) as [_ | Hout];
          [reflexivity |].
        exfalso. apply Hout, elem_of_union_r, Hu.
      - destruct (decide (i ∈ {[j]} ∪ used)) as [Hin | _]; [| reflexivity].
        exfalso. apply elem_of_union in Hin as [Hin | Hin];
          [apply elem_of_singleton in Hin; lia | contradiction]. }
    rewrite Hsame by lia. reflexivity.
  - assert (Hstep : (j - idx = S (j - S idx))%nat) by lia.
    rewrite Hstep in Hj. cbn [lookup list_lookup] in Hj.
    specialize (IH (S idx) ltac:(lia) Hj Hfree).
    destruct (decide (idx ∈ used)) as [Hu | Hu].
    + destruct (decide (idx ∈ {[j]} ∪ used)) as [_ | Hout];
        [exact IH |].
      exfalso. apply Hout, elem_of_union_r, Hu.
    + destruct (decide (idx ∈ {[j]} ∪ used)) as [Hin | _].
      * exfalso. apply elem_of_union in Hin as [Hin | Hin];
          [apply elem_of_singleton in Hin; lia | contradiction].
      * rewrite IH. apply Permutation_swap.
Qed.

Lemma unmatched_from_empty (dets : list Face) (idx : nat) :
  unmatched_from idx dets ∅ = dets.
Proof.
  revert idx. induction dets as [| d dets IH]; intros idx; [reflexivity |].
  cbn [unmatched_from].
  destruct (decide (idx ∈ (∅ : gset nat))) as [Hin | _];
    [exfalso; exact (not_elem_of_empty idx Hin) |].
  rewrite IH. reflexivity.
Qed.

(** The detections the tracks take and the detections left over are,
    together, the detections that were free. *)
Lemma assigns_partition (dets : list Face) (used : gset nat)
    (tracks : list (Z * track)) (ms : list Match) :
  assigns dets used tracks ms ->
  map m_det ms
  ++ unmatched_from 0 dets (list_to_set (map m_idx ms) ∪ used)
  ≡ₚ unmatched_from 0 dets used.
Proof.
  induction 1 as [used | used id tr rest j det ms Hj Hfree _ _ _ _ IH
                 | used id tr rest ms _ _ IH].
  - cbn [map list_to_set app]. rewrite union_empty_l_L. reflexivity.
  - cbn [map list_to_set app m_det m_idx].
    rewrite (unmatched_from_take dets used j det 0%nat);
      [| lia | rewrite Nat.sub_0_r; exact Hj | exact Hfree].
    apply Permutation_skip.
    rewrite <- IH.
    replace ({[j]} ∪ list_to_set (map m_idx ms) ∪ used)
      with (list_to_set (map m_idx ms) ∪ ({[j]} ∪ used) : gset nat);
      [reflexivity |].
    rewrite (comm_L (∪) {[j]} (list_to_set (map m_idx ms))).
    rewrite assoc_L; [reflexivity | apply _].
  - exact IH.
Qed.

Lemma numbered_from_In (frame : Frame) (frame_count : Z) (dets : list Face) :
  forall next id (tr : track),
    In (id, tr) (numbered_from tracker_init frame frame_count next dets) ->
    exists det, In det dets
                /\ tr = fresh_track tracker_init det id frame frame_count.
Proof.
  induction dets as [| d dets IH]; intros next id tr; [intros [] |].
  cbn [numbered_from]. intros [[= <- <-] | Hin].
  - exists d. split; [left; reflexivity | reflexivity].
  - destruct (IH _ _ _ Hin) as (det & Hdet & ->).
    exists det. split; [right; exact Hdet | reflexivity].
Qed.

Lemma numbered_from_face_data (frame : Frame) (frame_count : Z)
    (dets : list Face) :
  forall next,
    map (fun e : Z * track => face_data (snd e))
      (numbered_from tracker_init frame frame_count next dets)
    = map Some dets.
Proof.
  induction dets as [| d dets IH]; intros next; [reflexivity |].
  cbn [numbered_from map]. rewrite IH. reflexivity.
Qed.

(** The tracks a detection pass leaves, and the detections they hold. *)
Lemma run_detection_faces (self : tracker_state) (frame : Frame) :
  ids_below_next self ->
  let tracks := tracked_faces (run_detection self frame) in
  map (fun e => face_data (snd e)) tracks ≡ₚ map Some (detect frame)
  /\ (forall id tr, In (id, tr) tracks ->
        exists det,
          In det (detect frame)
          /\ face_data tr = Some det
          /\ bbox tr = det_bbox det
          /\ tracker tr = Some (tracker_init frame (det_bbox det))
          /\ last_detected_frame tr = frame_count self
          /\ ((forall id0 tr0, In (id0, tr0) (tracked_faces self) ->
                               face_id tr0 = id0) ->
              face_id tr = id)).
Proof.
  intros [Hnd Hlt] tracks.
  destruct (run_detection_spec detect tracker_init shape crop size
              sface_feature self frame Hnd Hlt)
    as (ms & Hms & _ & _ & Htracks & _).
  fold tracks in Htracks.
  assert (Hperm : map (fun e : Z * track => face_data (snd e)) tracks
                  ≡ₚ map Some (detect frame)).
  { rewrite Htracks, map_app, map_map, numbered_from_face_data.
    cbn [matched_entry snd rematch init_tracker face_data].
    rewrite <- (map_map m_det Some), <- map_app.
    apply Permutation_map.
    pose proof (assigns_partition _ _ _ _ Hms) as Hp.
    rewrite union_empty_r_L, unmatched_from_empty in Hp. exact Hp. }
  split; [exact Hperm |].
  intros id tr Hin. rewrite Htracks in Hin. apply in_app_iff in Hin.
  destruct Hin as [Hin | Hin].
  - apply in_map_iff in Hin as (m & Hm & Hin).
    unfold matched_entry in Hm. injection Hm as <- <-.
    destruct (assigns_sources _ _ _ _ Hms m Hin) as [Hsrc Hdet].
    exists (m_det m). split.
    { apply list_elem_of_In. eapply list_elem_of_lookup_2. exact Hdet. }
    repeat (split; [reflexivity |]).
    intros Hids. cbn. apply Hids, Hsrc.
  - apply numbered_from_In in Hin as (det & Hdet & ->).
    exists det. split.
    { clear -Hdet. revert Hdet.
      generalize (list_to_set (map m_idx ms) : gset nat).
      generalize 0%nat. induction (detect frame) as [| d l IH];
        intros i used Hin; [destruct Hin |].
      cbn [unmatched_from] in Hin.
      destruct (decide (i ∈ used)); [right; eapply IH, Hin |].
      destruct Hin as [-> | Hin]; [left; reflexivity | right; eapply IH, Hin]. }
    repeat (split; [reflexivity |]). intros _. reflexivity.
Qed.

(** X15. After a detection pass there is exactly one track for every
    face the detector reported: the detections held by the tracks are
    the detections of the frame, in some order.  Every track sits on the
    box of its detection, carries a tracker initialised on that box and
    the number of the current frame, and is filed under its own face
    id. *)
Theorem detection_pass_tracks_detections (self : tracker_state)
    (frame : Frame) :
  ids_below_next self ->
  let tracks := tracked_faces (run_detection self frame) in
  map (fun e => face_data (snd e)) tracks ≡ₚ map Some (detect frame)
  /\ length tracks = length (detect frame)
  /\ (forall id tr, In (id, tr) tracks ->
        exists det,
          In det (detect frame)
          /\ face_data tr = Some det
          /\ bbox tr = det_bbox det
          /\ tracker tr = Some (tracker_init frame (det_bbox det))
          /\ last_detected_frame tr = frame_count self
          /\ ((forall id0 tr0, In (id0, tr0) (tracked_faces self) ->
                               face_id tr0 = id0) ->
              face_id tr = id)).
Proof.
  intros Hids tracks.
  destruct (run_detection_faces self frame Hids) as [Hperm Hall].
  fold tracks in Hperm, Hall.
  split; [exact Hperm |]. split; [| exact Hall].
  apply Permutation_length in Hperm. rewrite !length_map in Hperm.
  exact Hperm.
Qed.

(** *** What the passes leave on a track *)

Lemma classify_banded (rec : Recognizer.t (Emb := Emb)) (image : Frame)
    (fd : option Face) :
  banded (classify rec image fd).
Proof.
  unfold banded.
  destruct (classify_cases sface_feature sface_match rec image fd)
    as [[-> _] | (target & bid & bs & refs & _ & _ & _ & _ & Hpos
                  & [[Hb ->] | [(Hb1 & Hb2 & ->) | [Hb ->]]])].
  - split; [lra |]. split; [split; [discriminate | lra] |].
    split; [split; [discriminate | lra] |].
    split; [split; [lra | reflexivity] | tauto].
  - split; [exact Hpos |]. split; [tauto |].
    split; [split; [discriminate | lra] |].
    split; [split; [discriminate | lra] |]. split; discriminate.
  - split; [exact Hpos |]. split; [split; [discriminate | lra] |].
    split; [tauto |].
    split; [split; [discriminate | lra] |]. split; discriminate.
  - split; [exact Hpos |]. split; [split; [discriminate | lra] |].
    split; [split; [discriminate | lra] |]. split; tauto.
Qed.

(** Recognition touches the recognition result only; with landmarks it
    always files a result. *)
Lemma recognize_track_settled (self : tracker_state) (frame : Frame)
    (use_landmarks : bool) (id : Z) (tr : track) :
  tracked_ok id tr ->
  use_landmarks = true \/ settled id tr ->
  settled id
    (recognize_track shape crop size sface_feature sface_match self frame
       use_landmarks tr)
  /\ bbox (recognize_track shape crop size sface_feature sface_match self
             frame use_landmarks tr) = bbox tr.
Proof.
  intros Hok Hwhy.
  assert (Hres : forall r, banded r ->
            settled id (with_result tr r) /\ bbox (with_result tr r) = bbox tr).
  { intros r Hr. split; [| reflexivity]. split; [exact Hok |].
    exists r. split; [reflexivity | exact Hr]. }
  unfold recognize_track.
  destruct use_landmarks.
  - destruct (face_data tr) as [det |] eqn:Hfd.
    + apply Hres, classify_banded.
    + destruct Hok as (_ & _ & _ & [det Hdet]). congruence.
  - destruct Hwhy as [Hf | Hset]; [discriminate |].
    destruct (bbox tr) as [[[x y] w] h] eqn:Hb.
    destruct (shape frame) as [h_img w_img].
    destruct (0 <? size _).
    + apply Hres, classify_banded.
    + split; [exact Hset | exact Hb].
Qed.

Lemma run_recognition_settled (self : tracker_state) (frame : Frame)
    (use_landmarks : bool) :
  (forall id tr, In (id, tr) (tracked_faces self) -> tracked_ok id tr) ->
  use_landmarks = true
  \/ (forall id tr, In (id, tr) (tracked_faces self) -> settled id tr) ->
  forall id tr,
    In (id, tr) (tracked_faces (run_recognition self frame use_landmarks)) ->
    settled id tr.
Proof.
  intros Hok Hwhy id tr Hin. unfold _run_recognition in Hin.
  cbn [tracked_faces with_tracks] in Hin.
  apply in_map_iff in Hin as ([id0 tr0] & [= <- <-] & Hin).
  apply recognize_track_settled; [apply Hok, Hin |].
  destruct Hwhy as [H | H]; [left; exact H | right; apply H, Hin].
Qed.

Lemma run_detection_ok (self : tracker_state) (frame : Frame) :
  ids_below_next self ->
  (forall id tr, In (id, tr) (tracked_faces self) -> tracked_ok id tr) ->
  forall id tr,
    In (id, tr) (tracked_faces (run_detection self frame)) ->
    tracked_ok id tr.
Proof.
  intros [Hnd Hlt] Hok id tr Hin.
  destruct (run_detection_spec detect tracker_init shape crop size
              sface_feature self frame Hnd Hlt)
    as (ms & Hms & _ & _ & Htracks & _).
  rewrite Htracks in Hin. apply in_app_iff in Hin. destruct Hin as [Hin | Hin].
  - apply in_map_iff in Hin as (m & Hm & Hin).
    unfold matched_entry in Hm. injection Hm as <- <-.
    destruct (assigns_sources _ _ _ _ Hms m Hin) as [Hsrc _].
    destruct (Hok _ _ Hsrc) as (H1 & H2 & _ & _).
    split; [exact H1 |]. split; [exact H2 |].
    split; eexists; reflexivity.
  - apply numbered_from_In in Hin as (det & _ & ->).
    split; [reflexivity |]. split; [reflexivity |].
    split; eexists; reflexivity.
Qed.

Lemma run_detection_ids (self : tracker_state) (frame : Frame) :
  ids_below_next self ->
  ids_below_next (run_detection self frame)
  /\ next_face_id self <= next_face_id (run_detection self frame).
Proof.
  intros [Hnd Hlt].
  destruct (run_detection_spec detect tracker_init shape crop size
              sface_feature self frame Hnd Hlt)
    as (ms & Hms & Hsub & Hndm & Htracks & Hnext).
  set (fresh := unmatched_from 0 (detect frame) (list_to_set (map m_idx ms)))
    in *.
  assert (Hkeys : OrderedDict.keys (tracked_faces (run_detection self frame))
                  = map m_id ms
                    ++ map (fun i => next_face_id self + Z.of_nat i)
                         (seq 0 (length fresh))).
  { rewrite Htracks. unfold OrderedDict.keys at 1. rewrite map_app.
    rewrite map_map. simpl. f_equal.
    apply (numbered_from_keys tracker_init). }
  assert (Hnew : forall id,
             In id (map (fun i => next_face_id self + Z.of_nat i)
                      (seq 0 (length fresh))) ->
             next_face_id self <= id
             < next_face_id self + Z.of_nat (length fresh)).
  { intros id Hin. apply in_map_iff in Hin as (i & <- & Hi).
    apply in_seq in Hi. lia. }
  split; [| lia]. split.
  - rewrite Hkeys. apply NoDup_app. split; [exact Hndm |]. split.
    + intros id Hm Hn. apply list_elem_of_In in Hm, Hn.
      apply Hsub, Hlt in Hm. apply Hnew in Hn. lia.
    + apply NoDup_fmap_2; [| apply NoDup_seq].
      intros i j Hij. lia.
  - intros id. rewrite Hkeys, Hnext, in_app_iff.
    intros [Hm | Hn].
    + apply Hsub, Hlt in Hm. lia.
    + apply Hnew in Hn. lia.
Qed.

(** A track is kept by a tracking pass exactly when its tracker found
    the face on this frame and the failure limit is positive. *)
Lemma kept_iff_found (frame : Frame) (max_failures : Z) (tr : track) :
  evicted tracker_update frame max_failures tr = false <->
  0 < max_failures
  /\ exists tk tk' x y w h,
       tracker tr = Some tk
       /\ tracker_update tk frame = Found tk' (x, y, w, h)
       /\ fst (update_tracker tracker_update tr frame)
          = with_tracking tr (Some tk') (Py.int x, Py.int y, Py.int w, Py.int h)
              0.
Proof.
  unfold evicted, update_tracker.
  destruct (tracker tr) as [tk |].
  2: { cbn. split; [discriminate |].
       intros (_ & tk & tk' & x & y & w & h & Hf & _). discriminate. }
  destruct (tracker_update tk frame) as [tk' [[[x y] w] h] | tk' | tk'] eqn:Hu;
    cbn [fst snd negb orb with_tracking tracking_failures].
  - split.
    + intros H. apply Z.leb_gt in H. split; [exact H |].
      exists tk, tk', x, y, w, h.
      split; [reflexivity |]. split; [exact Hu | reflexivity].
    + intros [H _]. apply Z.leb_gt. exact H.
  - split; [discriminate |].
    intros (_ & tk0 & tk1 & x & y & w & h & [= <-] & Hf & _).
    rewrite Hu in Hf. discriminate.
  - split; [discriminate |].
    intros (_ & tk0 & tk1 & x & y & w & h & [= <-] & Hf & _).
    rewrite Hu in Hf. discriminate.
Qed.

Lemma run_tracking_In (self : tracker_state) (frame : Frame) (id : Z)
    (tr' : track) :
  NoDup (OrderedDict.keys (tracked_faces self)) ->
  In (id, tr') (tracked_faces (run_tracking self frame)) <->
  exists tr,
    In (id, tr) (tracked_faces self)
    /\ evicted tracker_update frame (max_tracking_failures self) tr = false
    /\ tr' = fst (update_tracker tracker_update tr frame).
Proof.
  intros Hnd.
  rewrite (run_tracking_spec tracker_update self frame Hnd).
  rewrite in_map_iff. split.
  - intros ([id0 tr] & [= <- <-] & Hin). apply filter_In in Hin as [Hin Hk].
    exists tr. split; [exact Hin |]. split; [| reflexivity].
    cbn [snd] in Hk. apply negb_true_iff in Hk. exact Hk.
  - intros (tr & Hin & Hk & ->). exists (id, tr). split; [reflexivity |].
    apply filter_In. split; [exact Hin |]. cbn [snd]. rewrite Hk. reflexivity.
Qed.

Lemma run_tracking_settled (self : tracker_state) (frame : Frame) :
  NoDup (OrderedDict.keys (tracked_faces self)) ->
  (forall id tr, In (id, tr) (tracked_faces self) -> settled id tr) ->
  forall id tr,
    In (id, tr) (tracked_faces (run_tracking self frame)) -> settled id tr.
Proof.
  intros Hnd Hset id tr' Hin.
  apply (run_tracking_In self frame id tr' Hnd) in Hin as (tr & Hin & Hk & ->).
  apply kept_iff_found in Hk
    as (_ & tk & tk' & x & y & w & h & _ & _ & ->).
  destruct (Hset _ _ Hin) as ((H1 & _ & _ & H4) & r & Hr & Hb).
  split.
  - split; [exact H1 |]. split; [reflexivity |].
    split; [eexists; reflexivity | exact H4].
  - exists r. split; [exact Hr | exact Hb].
Qed.

Local Abbreviation detection_frame := (@is_detection_frame Emb Tracker).

Lemma process_cases (self self' : tracker_state) (frame : Frame)
    (out : list Output) :
  process self frame = Some (self', out) ->
  let self1 :=
    with_tracks self (frame_count self + 1) (tracked_faces self)
      (next_face_id self) in
  detection_interval self <> 0 /\ recognition_interval self <> 0
  /\ out = map (output_of (detection_frame self)) (tracked_faces self')
  /\ ((detection_frame self = true
       /\ self' = run_recognition (run_detection self1 frame) frame true)
      \/ (detection_frame self = false
          /\ (((frame_count self + 1) mod recognition_interval self = 0
               /\ self' = run_recognition (run_tracking self1 frame) frame
                            false)
              \/ ((frame_count self + 1) mod recognition_interval self <> 0
                  /\ self' = run_tracking self1 frame)))).
Proof.
  unfold process_frame.
  cbn [detection_interval recognition_interval frame_count tracked_faces
       next_face_id with_tracks].
  destruct (Z.eqb_spec (detection_interval self) 0) as [| Hd];
    [discriminate |].
  destruct (Z.eqb_spec (recognition_interval self) 0) as [| Hr];
    [discriminate |].
  cbn [orb]. intros H. injection H as <- <-.
  split; [exact Hd |]. split; [exact Hr |].
  unfold is_detection_frame.
  destruct (_ || _); cbn [orb].
  - split; [reflexivity |]. left. split; reflexivity.
  - split; [reflexivity |]. right. split; [reflexivity |].
    destruct (Z.eqb_spec ((frame_count self + 1) mod recognition_interval self)
                0) as [Hz | Hnz];
      [left | right]; (split; [assumption | reflexivity]).
Qed.

(** The invariant of a run: distinct ids below the next id, and every
    track settled. *)
Lemma process_settled (self self' : tracker_state) (frame : Frame)
    (out : list Output) :
  ids_below_next self ->
  (forall id tr, In (id, tr) (tracked_faces self) -> settled id tr) ->
  process self frame = Some (self', out) ->
  ids_below_next self'
  /\ (forall id tr, In (id, tr) (tracked_faces self') -> settled id tr).
Proof.
  intros Hids Hset Hproc.
  destruct (process_cases _ _ _ _ Hproc) as (_ & _ & _ & Hcase).
  cbv zeta in Hcase.
  set (self1 := with_tracks self (frame_count self + 1) (tracked_faces self)
                  (next_face_id self)) in *.
  assert (Hids1 : ids_below_next self1) by exact Hids.
  assert (Hset1 : forall id tr, In (id, tr) (tracked_faces self1) ->
                                settled id tr) by exact Hset.
  destruct Hcase as [[_ ->] | [_ [[_ ->] | [_ ->]]]].
  - destruct (run_detection_ids self1 frame Hids1) as [Hids2 _].
    destruct (run_recognition_ids shape crop size sface_feature sface_match
                (run_detection self1 frame) frame true) as [Hk Hn].
    split; [unfold ids_below_next; rewrite Hk, Hn; exact Hids2 |].
    apply run_recognition_settled; [| left; reflexivity].
    apply run_detection_ok; [exact Hids1 |].
    intros id tr Hin. apply Hset1, Hin.
  - destruct (run_tracking_ids detect tracker_init tracker_update shape crop
                size sface_feature self1 frame Hids1) as [Hids2 _].
    destruct (run_recognition_ids shape crop size sface_feature sface_match
                (run_tracking self1 frame) frame false) as [Hk Hn].
    split; [unfold ids_below_next; rewrite Hk, Hn; exact Hids2 |].
    assert (Hs : forall id tr,
              In (id, tr) (tracked_faces (run_tracking self1 frame)) ->
              settled id tr)
      by (apply run_tracking_settled; [apply Hids1 | exact Hset1]).
    apply run_recognition_settled; [| right; exact Hs].
    intros id tr Hin. apply Hs, Hin.
  - destruct (run_tracking_ids detect tracker_init tracker_update shape crop
                size sface_feature self1 frame Hids1) as [Hids2 _].
    split; [exact Hids2 |].
    apply run_tracking_settled; [apply Hids1 | exact Hset1].
Qed.

Lemma reachable_settled (self : tracker_state) :
  reachable self ->
  ids_below_next self
  /\ (forall id tr, In (id, tr) (tracked_faces self) -> settled id tr).
Proof.
  induction 1 as [rec di ri mf | self _ _ | self frame self' out _ IH Hproc].
  - split; [split; [constructor | intros id []] | intros id tr []].
  - split; [split; [constructor | intros id []] | intros id tr []].
  - destruct IH as [Hids Hset].
    exact (process_settled _ _ _ _ Hids Hset Hproc).
Qed.

Lemma output_banded (rd : bool) (id : Z) (tr : track) :
  settled id tr ->
  let o := output_of rd (id, tr) in
  banded_output o /\ out_face_id o = id /\ out_bbox o = bbox tr
  /\ out_is_tracked o = negb rd
  /\ exists student_id status confidence info,
       recognition_result tr = Some (student_id, status, confidence, info)
       /\ out_student_id o = student_id /\ out_status o = status
       /\ out_confidence o = confidence
       /\ out_name o = default "Unknown"%string (info !! "name"%string).
Proof.
  intros (_ & [[[sid st] conf] info] & Hr & Hb). unfold output_of.
  rewrite Hr. cbn.
  split; [exact Hb |]. repeat (split; [reflexivity |]).
  exists sid, st, conf, info. repeat split; reflexivity.
Qed.

(** X16. In every state a tracker reaches from its construction by
    [process_frame] and [reset], each live track is filed under its own
    face id, holds a tracker and the detection it was last matched to,
    and carries a recognition result whose status is the band of its
    confidence; its failure counter is 0, so the counter never holds a
    positive number between frames.  The ids of the live tracks are
    distinct and below [next_face_id]. *)
Theorem live_tracks_are_settled (self : tracker_state) :
  reachable self ->
  ids_below_next self
  /\ (forall id tr, In (id, tr) (tracked_faces self) ->
        face_id tr = id
        /\ tracking_failures tr = 0
        /\ is_Some (tracker tr)
        /\ is_Some (face_data tr)
        /\ exists r, recognition_result tr = Some r /\ banded r).
Proof.
  intros Hreach. destruct (reachable_settled self Hreach) as [Hids Hset].
  split; [exact Hids |].
  intros id tr Hin. destruct (Hset id tr Hin) as ((H1 & H2 & H3 & H4) & H5).
  tauto.
Qed.

(** X17. On a reachable tracker [process_frame] fails exactly when an
    interval is 0.  Otherwise it counts the frame and reports one entry
    for every live track, in the order of the track set, under distinct
    face ids, with the box of the track; every entry shows the cached
    recognition result of its track (never the placeholder for a missing
    result), so its status is the band of its confidence and a student is
    named exactly when the status is not UNKNOWN; and [is_tracked] tells
    whether the frame was a tracking pass. *)
Theorem process_frame_reports_live_tracks (self : tracker_state)
    (frame : Frame) :
  reachable self ->
  (process self frame = None <->
   detection_interval self = 0 \/ recognition_interval self = 0)
  /\ (forall self' out,
        process self frame = Some (self', out) ->
        frame_count self' = frame_count self + 1
        /\ map out_face_id out = OrderedDict.keys (tracked_faces self')
        /\ NoDup (map out_face_id out)
        /\ map out_bbox out = map (fun e => bbox (snd e)) (tracked_faces self')
        /\ (forall o, In o out ->
              banded_output o
              /\ out_is_tracked o = negb (detection_frame self)
              /\ exists id tr student_id status confidence info,
                   In (id, tr) (tracked_faces self')
                   /\ recognition_result tr
                      = Some (student_id, status, confidence, info)
                   /\ o = {| out_bbox := bbox tr; out_face_id := id;
                             out_is_tracked := negb (detection_frame self);
                             out_student_id := student_id;
                             out_status := status;
                             out_confidence := confidence;
                             out_name :=
                               default "Unknown"%string
                                 (info !! "name"%string) |})).
Proof.
  intros Hreach. split.
  { unfold process_frame.
    cbn [detection_interval recognition_interval with_tracks].
    destruct (Z.eqb_spec (detection_interval self) 0) as [Hd | Hd];
      destruct (Z.eqb_spec (recognition_interval self) 0) as [Hr | Hr];
      cbn [orb];
      (split; [intros H; try discriminate; tauto
              | intros [H | H]; try reflexivity; contradiction]). }
  intros self' out Hproc.
  destruct (reachable_settled self Hreach) as [Hids Hset].
  destruct (process_settled _ _ _ _ Hids Hset Hproc) as [[Hnd' _] Hset'].
  destruct (process_cases _ _ _ _ Hproc) as (_ & _ & -> & Hcase).
  cbv zeta in Hcase.
  assert (Hkeys : map out_face_id
                    (map (output_of (detection_frame self))
                       (tracked_faces self'))
                  = OrderedDict.keys (tracked_faces self')).
  { unfold OrderedDict.keys. rewrite map_map. apply map_ext.
    intros [id tr]. unfold output_of.
    destruct (recognition_result tr) as [[[[? ?] ?] ?] |]; reflexivity. }
  split.
  { destruct Hcase as [[_ ->] | [_ [[_ ->] | [_ ->]]]]; unfold _run_recognition,
      _run_tracking, _run_detection;
      repeat match goal with
             | |- context [let '(_, _) := ?p in _] => destruct p
             end; reflexivity. }
  split; [exact Hkeys |]. split; [rewrite Hkeys; exact Hnd' |].
  split.
  { rewrite map_map. apply map_ext_in. intros [id tr] Hin.
    apply (output_banded (detection_frame self) id tr (Hset' id tr Hin)). }
  intros o Hin. apply in_map_iff in Hin as ([id tr] & <- & Hin).
  destruct (output_banded (detection_frame self) id tr (Hset' id tr Hin))
    as (Hb & Hid & Hbox & Htr & sid & st & conf & info & Hr & Hs1 & Hs2 & Hs3
        & Hs4).
  split; [exact Hb |]. split; [exact Htr |].
  exists id, tr, sid, st, conf, info. split; [exact Hin |].
  split; [exact Hr |].
  unfold output_of. rewrite Hr. reflexivity.
Qed.

(** X18. A tracking pass keeps exactly the tracks whose tracker found the
    face on this frame, provided the failure limit is positive (a limit
    of 0 or less removes every track).  A kept track moves to the box
    the tracker reports, truncated to whole pixels, and keeps its id, its
    detection data, its cached recognition result and the frame number of
    its last detection. *)
Theorem tracking_pass_keeps_found (self : tracker_state) (frame : Frame) :
  NoDup (OrderedDict.keys (tracked_faces self)) ->
  (forall id tr',
     In (id, tr') (tracked_faces (run_tracking self frame)) <->
     0 < max_tracking_failures self
     /\ exists tr tk tk' x y w h,
          In (id, tr) (tracked_faces self)
          /\ tracker tr = Some tk
          /\ tracker_update tk frame = Found tk' (x, y, w, h)
          /\ tr' = {| bbox := (Py.int x, Py.int y, Py.int w, Py.int h);
                      face_data := face_data tr;
                      face_id := face_id tr;
                      tracker := Some tk';
                      embedding := embedding tr;
                      recognition_result := recognition_result tr;
                      last_detected_frame := last_detected_frame tr;
                      tracking_failures := 0 |})
  /\ (max_tracking_failures self <= 0 ->
      tracked_faces (run_tracking self frame) = []).
Proof.
  intros Hnd. split.
  - intros id tr'. rewrite (run_tracking_In self frame id tr' Hnd). split.
    + intros (tr & Hin & Hk & ->).
      apply kept_iff_found in Hk
        as (Hmax & tk & tk' & x & y & w & h & Htk & Hu & ->).
      split; [exact Hmax |].
      exists tr, tk, tk', x, y, w, h. repeat split; assumption.
    + intros (Hmax & tr & tk & tk' & x & y & w & h & Hin & Htk & Hu & ->).
      exists tr. split; [exact Hin |].
      assert (Hk : evicted tracker_update frame (max_tracking_failures self) tr
                   = false).
      { apply kept_iff_found. split; [exact Hmax |].
        exists tk, tk', x, y, w, h. split; [exact Htk |].
        split; [exact Hu |].
        unfold update_tracker. rewrite Htk, Hu. reflexivity. }
      split; [exact Hk |].
      unfold update_tracker. rewrite Htk, Hu. reflexivity.
  - intros Hmax.
    destruct (tracked_faces (run_tracking self frame)) as [| [id tr'] rest]
      eqn:Htr; [reflexivity |].
    assert (Hin : In (id, tr') (tracked_faces (run_tracking self frame)))
      by (rewrite Htr; left; reflexivity).
    apply (run_tracking_In self frame id tr' Hnd) in Hin as (tr & _ & Hk & _).
    apply kept_iff_found in Hk as [Hpos _]. lia.
Qed.

(** *** What a frame shows *)

Local Abbreviation answer :=
  (classified sface_feature sface_match).

Lemma omap_fmap_Some {A B : Type} (f : A -> B) (l : list A) :
  omap (fun o : option A => f <$> o) (map Some l) = map f l.
Proof.
  induction l as [| x l IH]; [reflexivity |].
  cbn [map omap list_omap fmap option_fmap option_map]. rewrite IH.
  reflexivity.
Qed.

(** X19. On a detection frame the output shows every face the detector
    reported, and each with the classifier's answer for this very frame
    and detection: box of the detection, student, status, confidence and
    name.  The entries are as many as the detections and none is marked
    as tracked. *)
Theorem detection_frame_shows_each_face (self self' : tracker_state)
    (frame : Frame) (out : list Output) :
  ids_below_next self ->
  process self frame = Some (self', out) ->
  detection_frame self = true ->
  map shown out ≡ₚ map (answer (recognizer self) frame) (detect frame)
  /\ length out = length (detect frame)
  /\ (forall o, In o out -> out_is_tracked o = false).
Proof.
  intros Hids Hproc Hdet.
  destruct (process_cases _ _ _ _ Hproc) as (_ & _ & -> & Hcase).
  cbv zeta in Hcase.
  set (self1 := with_tracks self (frame_count self + 1) (tracked_faces self)
                  (next_face_id self)) in *.
  destruct Hcase as [[_ ->] | [Hno _]]; [| congruence].
  rewrite Hdet.
  assert (Hids1 : ids_below_next self1) by exact Hids.
  destruct (run_detection_faces self1 frame Hids1) as [Hperm Hall].
  cbv zeta in Hperm, Hall.
  unfold _run_recognition. cbn [tracked_faces with_tracks].
  set (T := tracked_faces (run_detection self1 frame)) in *.
  assert (Hrec : recognizer (run_detection self1 frame) = recognizer self).
  { unfold _run_detection.
    repeat match goal with
           | |- context [let '(_, _) := ?p in _] => destruct p
           end. reflexivity. }
  assert (Hshown :
    map shown
      (map (output_of true)
         (map (fun '(id, tracked) =>
                 (id, recognize_track shape crop size sface_feature
                        sface_match (run_detection self1 frame) frame true
                        tracked)) T))
    = omap (fun o : option Face => answer (recognizer self) frame <$> o)
        (map (fun e => face_data (snd e)) T)).
  { clear Hperm. induction T as [| [id tr] T IH]; [reflexivity |].
    destruct (Hall id tr (or_introl eq_refl)) as (det & _ & Hfd & Hb & _).
    cbn [map omap list_omap snd]. rewrite <- IH
      by (intros id' tr' Hin; apply Hall; right; exact Hin).
    rewrite Hfd. cbn [fmap option_fmap option_map]. f_equal.
    unfold recognize_track. rewrite Hfd, Hrec.
    unfold classified, output_of, shown.
    destruct (Recognizer.match_face_with_confidence _ _ _ _ _)
      as [[[sid st] conf] info].
    cbn. rewrite Hb. reflexivity. }
  assert (Hp : map shown
                 (map (output_of true)
                    (map (fun '(id, tracked) =>
                            (id, recognize_track shape crop size sface_feature
                                   sface_match (run_detection self1 frame)
                                   frame true tracked)) T))
               ≡ₚ map (answer (recognizer self) frame) (detect frame)).
  { rewrite Hshown, Hperm. rewrite omap_fmap_Some. reflexivity. }
  split; [exact Hp |]. split.
  - apply Permutation_length in Hp. rewrite !length_map in Hp.
    rewrite !length_map. exact Hp.
  - intros o Hin. apply in_map_iff in Hin as ([id tr] & <- & _).
    unfold output_of. destruct (recognition_result tr) as [[[[? ?] ?] ?] |];
      reflexivity.
Qed.

(** X20. On a frame that is neither a detection nor a recognition frame
    the output shows the cached results: every entry belongs to a track
    that was live before the frame and whose tracker found the face on
    this frame, it is marked as tracked, it shows the box the tracker
    reports, and its student, status, confidence and name are those of
    the recognition result the track already carried. *)
Theorem tracking_frame_shows_cached_results (self self' : tracker_state)
    (frame : Frame) (out : list Output) :
  ids_below_next self ->
  process self frame = Some (self', out) ->
  detection_frame self = false ->
  (frame_count self + 1) mod recognition_interval self <> 0 ->
  forall o, In o out ->
    out_is_tracked o = true
    /\ exists tr tk tk' x y w h,
         In (out_face_id o, tr) (tracked_faces self)
         /\ tracker tr = Some tk
         /\ tracker_update tk frame = Found tk' (x, y, w, h)
         /\ out_bbox o = (Py.int x, Py.int y, Py.int w, Py.int h)
         /\ (forall student_id status confidence info,
               recognition_result tr
               = Some (student_id, status, confidence, info) ->
               out_student_id o = student_id
               /\ out_status o = status
               /\ out_confidence o = confidence
               /\ out_name o
                  = default "Unknown"%string (info !! "name"%string)).
Proof.
  intros [Hnd Hlt] Hproc Hdet Hrec o Hin.
  destruct (process_cases _ _ _ _ Hproc) as (_ & _ & -> & Hcase).
  cbv zeta in Hcase.
  set (self1 := with_tracks self (frame_count self + 1) (tracked_faces self)
                  (next_face_id self)) in *.
  destruct Hcase as [[Hyes _] | [_ [[Hz _] | [_ ->]]]];
    [congruence | contradiction |].
  rewrite Hdet in Hin.
  apply in_map_iff in Hin as ([id tr'] & <- & Hin).
  apply (run_tracking_In self1 frame id tr' Hnd) in Hin
    as (tr & Hin & Hk & ->).
  apply kept_iff_found in Hk
    as (_ & tk & tk' & x & y & w & h & Htk & Hu & ->).
  assert (Ho : forall r,
            recognition_result tr = r ->
            output_of false
              (id, with_tracking tr (Some tk')
                     (Py.int x, Py.int y, Py.int w, Py.int h) 0)
            = match r with
              | Some (student_id, status, confidence, info) =>
                  {| out_bbox := (Py.int x, Py.int y, Py.int w, Py.int h);
                     out_face_id := id; out_is_tracked := true;
                     out_student_id := student_id; out_status := status;
                     out_confidence := confidence;
                     out_name :=
                       default "Unknown"%string (info !! "name"%string) |}
              | None =>
                  {| out_bbox := (Py.int x, Py.int y, Py.int w, Py.int h);
                     out_face_id := id; out_is_tracked := true;
                     out_student_id := None;
                     out_status := Recognizer.UNKNOWN;
                     out_confidence := 0%Q;
                     out_name := "Processing..."%string |}
              end).
  { intros r <-. unfold output_of, with_tracking.
    cbn [recognition_result bbox].
    destruct (recognition_result tr) as [[[[? ?] ?] ?] |]; reflexivity. }
  rewrite (Ho _ eq_refl).
  destruct (recognition_result tr) as [[[[sid st] conf] info] |] eqn:Hr;
    cbn [out_is_tracked out_face_id out_bbox out_student_id out_status
         out_confidence out_name].
  - split; [reflexivity |]. exists tr, tk, tk', x, y, w, h.
    split; [exact Hin |]. split; [exact Htk |]. split; [exact Hu |].
    split; [reflexivity |].
    intros sid' st' conf' info' H. rewrite Hr in H. inversion H; subst.
    repeat split; reflexivity.
  - split; [reflexivity |]. exists tr, tk, tk', x, y, w, h.
    split; [exact Hin |]. split; [exact Htk |]. split; [exact Hu |].
    split; [reflexivity |]. intros ? ? ? ? H. rewrite Hr in H.
    discriminate.
Qed.

(** *** The marking loop of the attendance view *)

Lemma process_outputs_banded (self self' : tracker_state) (frame : Frame)
    (out : list Output) :
  reachable self ->
  process self frame = Some (self', out) ->
  forall o, In o out -> banded_output o.
Proof.
  intros Hreach Hproc o Hin.
  destruct (reachable_settled self Hreach) as [Hids Hset].
  destruct (process_settled _ _ _ _ Hids Hset Hproc) as [_ Hset'].
  destruct (process_cases _ _ _ _ Hproc) as (_ & _ & -> & _).
  apply in_map_iff in Hin as ([id tr] & <- & Hin).
  apply (output_banded _ id tr (Hset' id tr Hin)).
Qed.

(** The loop files records for results with status RECOGNIZED only, one
    at most for each. *)
Lemma mark_results_log
    (results : list (Output * (AttendanceManager.Clock * bool))) :
  forall att : AttendanceManager.t,
    exists new,
      AttendanceManager.today_log (AttendanceView.mark_results att results)
      = AttendanceManager.today_log att ++ new
      /\ (length new <= length results)%nat
      /\ (forall r, In r new ->
            exists o clock insert_ok,
              In (o, (clock, insert_ok)) results
              /\ out_status o = Recognizer.RECOGNIZED
              /\ AttendanceManager.rec_id r
                 = AttendanceView.py_id (out_student_id o)
              /\ AttendanceManager.rec_confidence r
                 = AttendanceManager.Text (Py.format_2f (out_confidence o))
              /\ AttendanceManager.rec_name r = out_name o
              /\ AttendanceManager.rec_time r
                 = AttendanceManager.clock_hms clock
              /\ AttendanceManager.rec_marked_by r
                 = "face_recognition"%string).
Proof.
  induction results as [| [o [clock ok]] results IH]; intros att.
  - exists []. rewrite app_nil_r. split; [reflexivity |].
    split; [reflexivity | intros r []].
  - set (c := {| AttendanceManager.call_clock := clock;
                 AttendanceManager.call_insert_ok := ok;
                 AttendanceManager.call_student_id :=
                   AttendanceView.py_id (out_student_id o);
                 AttendanceManager.call_name := out_name o;
                 AttendanceManager.call_confidence := out_confidence o;
                 AttendanceManager.call_marked_by := "face_recognition" |}).
    assert (Hstep : AttendanceView.mark_results att ((o, (clock, ok)) :: results)
                    = AttendanceView.mark_results
                        (match out_status o with
                         | Recognizer.RECOGNIZED =>
                             fst (AttendanceManager.mark att c)
                         | _ => att
                         end) results) by reflexivity.
    rewrite Hstep.
    assert (Hskip : forall att',
              AttendanceManager.today_log att' = AttendanceManager.today_log att ->
              exists new,
                AttendanceManager.today_log
                  (AttendanceView.mark_results att' results)
                = AttendanceManager.today_log att ++ new
                /\ (length new <= length ((o, (clock, ok)) :: results))%nat
                /\ (forall r, In r new ->
                      exists o' clock' insert_ok,
                        In (o', (clock', insert_ok))
                          ((o, (clock, ok)) :: results)
                        /\ out_status o' = Recognizer.RECOGNIZED
                        /\ AttendanceManager.rec_id r
                           = AttendanceView.py_id (out_student_id o')
                        /\ AttendanceManager.rec_confidence r
                           = AttendanceManager.Text
                               (Py.format_2f (out_confidence o'))
                        /\ AttendanceManager.rec_name r = out_name o'
                        /\ AttendanceManager.rec_time r
                           = AttendanceManager.clock_hms clock'
                        /\ AttendanceManager.rec_marked_by r
                           = "face_recognition"%string)).
    { intros att' Hlog. destruct (IH att') as (new & Hnew & Hlen & Hsrc).
      exists new. rewrite Hnew, Hlog. split; [reflexivity |].
      split; [cbn [length]; lia |].
      intros r Hr. destruct (Hsrc r Hr) as (o' & clock' & ok' & Hin & Hrest).
      exists o', clock', ok'. split; [right; exact Hin | exact Hrest]. }
    destruct (out_status o) eqn:Hst; [| apply Hskip; reflexivity
                                      | apply Hskip; reflexivity].
    destruct (mark_step att c) as [[_ Hm] | [(_ & _ & _ & Hm) |
      (_ & _ & record & Hkey & Hname & Hlog & _)]].
    + rewrite Hm. apply Hskip. reflexivity.
    + rewrite Hm. apply Hskip. reflexivity.
    + destruct (IH (fst (AttendanceManager.mark att c)))
        as (new & Hnew & Hlen & Hsrc).
      exists (record :: new). rewrite Hnew, Hlog, <- app_assoc.
      split; [reflexivity |]. split; [cbn [length]; lia |].
      intros r [<- | Hr].
      * exists o, clock, ok. split; [left; reflexivity |].
        split; [exact Hst |].
        unfold AttendanceReports.record_key in Hkey.
        cbn [c AttendanceManager.call_student_id
             AttendanceManager.call_clock AttendanceManager.call_confidence
             AttendanceManager.call_marked_by AttendanceManager.call_name]
          in Hkey, Hname.
        injection Hkey as H1 H2 H3 H4. tauto.
      * destruct (Hsrc r Hr) as (o' & clock' & ok' & Hin & Hrest).
        exists o', clock', ok'. split; [right; exact Hin | exact Hrest].
Qed.

(** X21. The attendance view marks from the tracker's output, and only
    faces the classifier recognised: every record the loop of
    [update_loop] adds for the output of [process_frame] on a reachable
    tracker belongs to an entry of that output with status RECOGNIZED
    and a confidence of at least 0.75, names its student, holds that
    confidence as the string of two decimals [mark_attendance] renders,
    which shows at least 0.75, and is marked by face recognition.  At
    most one record is added for each entry. *)
Theorem view_marks_recognized_only (self self' : tracker_state)
    (frame : Frame) (out : list Output)
    (results : list (Output * (AttendanceManager.Clock * bool)))
    (att : AttendanceManager.t) :
  reachable self ->
  process self frame = Some (self', out) ->
  map fst results = out ->
  exists new,
    AttendanceManager.today_log (AttendanceView.mark_results att results)
    = AttendanceManager.today_log att ++ new
    /\ (length new <= length out)%nat
    /\ (forall r, In r new ->
          (exists hundredths,
             AttendanceManager.rec_confidence r
             = AttendanceManager.Text hundredths
             /\ 75 <= hundredths)
          /\ AttendanceManager.rec_marked_by r = "face_recognition"%string
          /\ exists o s_id,
               In o out
               /\ out_status o = Recognizer.RECOGNIZED
               /\ (0.75 <= out_confidence o)%Q
               /\ out_student_id o = Some s_id
               /\ AttendanceManager.rec_id r = Py.Str s_id
               /\ AttendanceManager.rec_confidence r
                  = AttendanceManager.Text (Py.format_2f (out_confidence o))
               /\ AttendanceManager.rec_name r = out_name o).
Proof.
  intros Hreach Hproc Hout.
  destruct (mark_results_log results att) as (new & Hnew & Hlen & Hsrc).
  exists new. split; [exact Hnew |].
  split; [rewrite <- Hout, length_map; exact Hlen |].
  intros r Hr.
  destruct (Hsrc r Hr) as (o & clock & ok & Hin & Hst & Hid & Hconf & Hname
                           & _ & Hby).
  assert (Ho : In o out).
  { rewrite <- Hout. apply in_map_iff. exists (o, (clock, ok)).
    split; [reflexivity | exact Hin]. }
  destruct (process_outputs_banded _ _ _ _ Hreach Hproc o Ho)
    as (_ & Hrec & _ & Hunk & Hnone).
  assert (Hhigh : (0.75 <= out_confidence o)%Q) by apply Hrec, Hst.
  split.
  { exists (Py.format_2f (out_confidence o)). split; [exact Hconf |].
    apply format_2f_ge. unfold inject_Z. lra. }
  split; [exact Hby |].
  destruct (out_student_id o) as [s_id |] eqn:Hsid.
  - exists o, s_id. repeat split; assumption.
  - exfalso. assert (Hu : out_status o = Recognizer.UNKNOWN)
      by (apply Hnone; reflexivity).
    congruence.
Qed.

End TrackerMore.

(** ** Overlap of boxes *)
Section IoUMore.
Import FrameTracker.

(** X22. For boxes whose four numbers fit in 32 bits: the overlap
    measure does not depend on the order of the two boxes, a box of
    positive width and height overlaps itself by 1, and a box without
    width or height overlaps no box. *)
Theorem compute_iou_symmetric :
  (forall box1 box2,
     Geometry.within_32_bits box1 -> Geometry.within_32_bits box2 ->
     _compute_iou box1 box2 = _compute_iou box2 box1)
  /\ (forall x y w h,
        Geometry.within_32_bits (x, y, w, h) ->
        0 < w -> 0 < h ->
        exists v, _compute_iou (x, y, w, h) (x, y, w, h) = Some v
                  /\ (v == 1)%Q)
  /\ (forall x y w h box2,
        Geometry.within_32_bits (x, y, w, h) ->
        Geometry.within_32_bits box2 ->
        w <= 0 \/ h <= 0 ->
        _compute_iou (x, y, w, h) box2 = Some 0%Q).
Proof.
  split; [| split].
  - intros [[[x1 y1] w1] h1] [[[x2 y2] w2] h2] _ _. unfold _compute_iou.
    rewrite (Z.max_comm x2 x1), (Z.max_comm y2 y1),
      (Z.min_comm (int64 (x2 + w2))), (Z.min_comm (int64 (y2 + h2))),
      (Z.add_comm (int64 (w2 * h2))).
    reflexivity.
  - intros x y w h Hfit Hw Hh.
    assert (Hnn : Geometry.nonneg_size (x, y, w, h))
      by (unfold Geometry.nonneg_size; lia).
    destruct (compute_iou_exact (x, y, w, h) (x, y, w, h) Hnn Hnn
                (within_32_bits_no_overflow _ _ Hfit Hfit Hnn Hnn))
      as [[Hno _] | (_ & [Hi _] & ->)].
    + exfalso. apply Hno. exists x, y.
      unfold Geometry.inside. lia.
    + eexists. split; [reflexivity |].
      revert Hi.
      unfold Geometry.union_area, Geometry.intersection_area, Geometry.area.
      rewrite !Z.max_id, !Z.min_id.
      replace (x + w - x) with w by lia. replace (y + h - y) with h by lia.
      rewrite !Z.max_r by lia.
      replace (w * h + w * h - w * h) with (w * h) by lia.
      intros Hi.
      apply Qmult_inv_r. intros H0.
      unfold Qeq, inject_Z in H0. cbn [Qnum Qden] in H0. lia.
  - intros x y w h [[[x2 y2] w2] h2] Hfit Hfit2 Hempty.
    unfold Geometry.within_32_bits in Hfit, Hfit2.
    unfold _compute_iou.
    rewrite (int64_exact (x + w)), (int64_exact (y + h)),
      (int64_exact (x2 + w2)), (int64_exact (y2 + h2))
      by (unfold Geometry.in_int64; lia).
    destruct (Z.leb_spec (Z.min (x + w) (x2 + w2)) (Z.max x x2)) as [_ | H1];
      [reflexivity |].
    destruct (Z.leb_spec (Z.min (y + h) (y2 + h2)) (Z.max y y2)) as [_ | H2];
      [reflexivity |].
    exfalso. lia.
Qed.

End IoUMore.

(** ** The template tracker *)
Section TemplateMore.
Import FrameTracker TemplateTracker.
Context {Frame : Type}.
Variable shape : Frame -> Z * Z.
Variable match_template :
  Region (Frame := Frame) -> Region (Frame := Frame) -> option (Q * (Z * Z)).

Local Abbreviation tracker := (TemplateTracker.t (Frame := Frame)).
Local Abbreviation init := (TemplateTracker.init shape).
Local Abbreviation update := (TemplateTracker.update shape match_template).
Local Abbreviation within := (TemplateTracker.within shape).

(** X23. [init] records the box truncated to whole pixels and succeeds
    exactly when the box has positive width and height after it is
    clipped to the frame.  The template it then cuts lies within the
    frame, is no larger than the box, and is the region of the box
    itself when the box lies within the frame; a failed [init] leaves
    the template as it was. *)
Theorem template_init_clips (self : tracker) (frame : Frame)
    (bx by_ bw bh : Q) :
  let x := Py.int bx in
  let y := Py.int by_ in
  let w := Py.int bw in
  let h := Py.int bh in
  let result := init self frame (bx, by_, bw, bh) in
  bbox (fst result) = Some (x, y, w, h)
  /\ (snd result = true <->
      0 < w /\ 0 < h
      /\ Z.max 0 x < snd (shape frame) /\ Z.max 0 y < fst (shape frame))
  /\ (snd result = false -> template (fst result) = template self)
  /\ (snd result = true ->
      exists tx ty tw th,
        template (fst result) = Some (frame, (tx, ty, tw, th))
        /\ within frame (tx, ty, tw, th)
        /\ 0 < tw <= w /\ 0 < th <= h
        /\ (within frame (x, y, w, h) -> (tx, ty, tw, th) = (x, y, w, h))).
Proof.
  intros x y w h result. unfold result, TemplateTracker.init.
  fold x y w h. unfold TemplateTracker.within.
  destruct (shape frame) as [h_img w_img]. cbn [fst snd].
  destruct (Z.ltb_spec 0 (Z.min w (w_img - Z.max 0 x))) as [Hw | Hw];
    destruct (Z.ltb_spec 0 (Z.min h (h_img - Z.max 0 y))) as [Hh | Hh];
    cbn [andb fst snd bbox template].
  - split; [reflexivity |]. split; [split; [intros _; lia | reflexivity] |].
    split; [discriminate |]. intros _.
    eexists _, _, _, _. split; [reflexivity |].
    split; [lia |]. split; [lia |]. split; [lia |].
    intros (H1 & H2 & H3 & H4). repeat f_equal; lia.
  - split; [reflexivity |]. split; [split; [discriminate | lia] |].
    split; [reflexivity | discriminate].
  - split; [reflexivity |]. split; [split; [discriminate | lia] |].
    split; [reflexivity | discriminate].
  - split; [reflexivity |]. split; [split; [discriminate | lia] |].
    split; [reflexivity | discriminate].
Qed.

(** X24. [update] never changes the size of the box or the template.  An
    update that fails (no template, a search window smaller than the
    box, a correlation of at most 0.4, or an OpenCV error) leaves the
    tracker as it was and returns the old box.  An update that succeeds
    found the template in a search window within the frame with a
    correlation above 0.4; when the template has the size of the box and
    [matchTemplate] reports a placement of the template in the window,
    the new box lies within the window, hence within the frame. *)
Theorem template_update_keeps_size (self : tracker) (frame : Frame)
    (x y w h : Z) :
  bbox self = Some (x, y, w, h) ->
  exists self' ok x' y',
    update self frame = Some (self', (ok, Some (x', y', w, h)))
    /\ bbox self' = Some (x', y', w, h)
    /\ template self' = template self
    /\ (ok = false -> self' = self /\ x' = x /\ y' = y)
    /\ (template self = None -> ok = false)
    /\ (ok = true ->
        exists tpl sx sy sw sh max_val,
          template self = Some tpl
          /\ match_template (frame, (sx, sy, sw, sh)) tpl
             = Some (max_val, (x' - sx, y' - sy))
          /\ (0.4 < max_val)%Q
          /\ within frame (sx, sy, sw, sh)
          /\ (reports_placements match_template ->
              (exists tframe tx ty, tpl = (tframe, (tx, ty, w, h))) ->
              within frame (x', y', w, h)
              /\ sx <= x' <= sx + sw - w /\ sy <= y' <= sy + sh - h)).
Proof.
  intros Hb.
  assert (Hfail : exists self' ok x' y',
    Some (self, (false, bbox self)) = Some (self', (ok, Some (x', y', w, h)))
    /\ bbox self' = Some (x', y', w, h)
    /\ template self' = template self
    /\ (ok = false -> self' = self /\ x' = x /\ y' = y)
    /\ (template self = None -> ok = false)
    /\ (ok = true ->
        exists tpl sx sy sw sh max_val,
          template self = Some tpl
          /\ match_template (frame, (sx, sy, sw, sh)) tpl
             = Some (max_val, (x' - sx, y' - sy))
          /\ (0.4 < max_val)%Q
          /\ within frame (sx, sy, sw, sh)
          /\ (reports_placements match_template ->
              (exists tframe tx ty, tpl = (tframe, (tx, ty, w, h))) ->
              within frame (x', y', w, h)
              /\ sx <= x' <= sx + sw - w /\ sy <= y' <= sy + sh - h))).
  { exists self, false, x, y. rewrite Hb.
    split; [reflexivity |]. split; [reflexivity |]. split; [reflexivity |].
    split; [tauto |]. split; [reflexivity | discriminate]. }
  unfold TemplateTracker.update.
  destruct (template self) as [tpl |] eqn:Htpl; [| exact Hfail].
  rewrite Hb.
  destruct (shape frame) as [h_img w_img] eqn:Hshape.
  set (sx := Z.max 0 (x - w / 2)).
  set (sy := Z.max 0 (y - h / 2)).
  set (sw := Z.min (w_img - sx) (w + 2 * (w / 2))).
  set (sh := Z.min (h_img - sy) (h + 2 * (h / 2))).
  destruct (Z.ltb_spec sw w) as [Hsw | Hsw]; cbn [orb];
    [rewrite <- Hb; exact Hfail |].
  destruct (Z.ltb_spec sh h) as [Hsh | Hsh]; [rewrite <- Hb; exact Hfail |].
  destruct (match_template (frame, (sx, sy, sw, sh)) tpl)
    as [[max_val [loc_x loc_y]] |] eqn:Hm; [| rewrite <- Hb; exact Hfail].
  destruct (Py.Qltb 0.4 max_val) eqn:Hv; [| rewrite <- Hb; exact Hfail].
  apply Qltb_true in Hv.
  exists {| template := Some tpl; bbox := Some (sx + loc_x, sy + loc_y, w, h) |},
    true, (sx + loc_x), (sy + loc_y).
  split; [reflexivity |]. split; [reflexivity |]. split; [reflexivity |].
  split; [discriminate |]. split; [discriminate |]. intros _.
  exists tpl, sx, sy, sw, sh, max_val.
  split; [reflexivity |].
  split; [rewrite Hm; repeat f_equal; lia |].
  split; [exact Hv |].
  assert (Hwin : 0 <= sx /\ 0 <= sy /\ sx + sw <= w_img /\ sy + sh <= h_img)
    by (unfold sx, sy, sw, sh; lia).
  split; [unfold TemplateTracker.within; rewrite Hshape; exact Hwin |].
  intros Hrep (tframe & tx & ty & ->).
  destruct (Hrep _ _ _ _ _ _ _ _ _ _ _ _ _ Hm) as [Hx Hy].
  unfold TemplateTracker.within. rewrite Hshape. lia.
Qed.

End TemplateMore.

(** ** The frame-rate counter *)
Section FPSMore.
Import FPSCounter.

Lemma update_fst (self : FPSCounter.t) (now : Q) :
  fst (update self now)
  = {| times :=
         if Z.of_nat (length (times self ++ [now])) >? avg_frames self
         then PyList.slice_from (times self ++ [now]) (- avg_frames self)
         else times self ++ [now];
       avg_frames := avg_frames self |}.
Proof.
  unfold update. cbv zeta.
  destruct (_ <? 2); [reflexivity |]. destruct (Py.Qleb _ _); reflexivity.
Qed.

Lemma update_window (self : FPSCounter.t) (now : Q) (history : list Q) :
  1 <= avg_frames self ->
  times self = skipn (length history - Z.to_nat (avg_frames self)) history ->
  times (fst (update self now))
  = skipn (length (history ++ [now]) - Z.to_nat (avg_frames self))
      (history ++ [now])
  /\ avg_frames (fst (update self now)) = avg_frames self.
Proof.
  intros Havg Htimes. rewrite update_fst.
  cbn [times avg_frames]. split; [| reflexivity].
  set (a := Z.to_nat (avg_frames self)) in *.
  assert (Ha : (1 <= a)%nat) by (unfold a; lia).
  rewrite Htimes, !length_app, length_skipn. cbn [length].
  destruct (Z.gtb_spec
              (Z.of_nat ((length history - (length history - a)) + 1))
              (avg_frames self)) as [Hfull | Hroom].
  - assert (Hlen : (a <= length history)%nat) by (unfold a in *; lia).
    unfold PyList.slice_from.
    destruct (Z.leb_spec 0 (- avg_frames self)) as [H | _]; [lia |].
    rewrite length_app, length_skipn. cbn [length].
    replace (Z.to_nat
               (Z.of_nat (length history - (length history - a) + 1)
                + - avg_frames self)) with 1%nat by (unfold a in *; lia).
    rewrite !drop_app_le by (rewrite ?length_skipn; lia).
    rewrite drop_drop. f_equal. f_equal. lia.
  - assert (Hlen : (length history < a)%nat) by (unfold a in *; lia).
    replace (length history - a)%nat with 0%nat by lia.
    replace (length history + 1 - a)%nat with 0%nat by lia.
    reflexivity.
Qed.

(** X25. [update] never raises and never reports a negative rate: its
    division is reached only with an elapsed time above 0.  And with
    a window of [n >= 1] frames, the counter holds, after any number of
    updates, the last [n] clock readings (all of them while there are
    fewer than [n]). *)
Theorem fps_window_holds_last_readings :
  (forall (self : FPSCounter.t) (now : Q),
      exists v, snd (update self now) = Some v /\ (0 <= v)%Q)
  /\ (forall (n : Z) (readings : list Q),
        1 <= n ->
        let self := after_updates (init n) readings in
        times self = skipn (length readings - Z.to_nat n) readings
        /\ avg_frames self = n
        /\ Z.of_nat (length (times self)) <= n).
Proof.
  split.
  - intros self now. unfold update. cbv zeta.
    set (times' := if _ >? _ then _ else _).
    destruct (Z.ltb_spec (Z.of_nat (length times')) 2) as [_ | Hlen];
      [exists 0%Q; split; [reflexivity | lra] |].
    destruct (Py.Qleb (List.last times' 0 - hd 0 times')%Q 0) eqn:E;
      [exists 0%Q; split; [reflexivity | lra] |].
    apply Qleb_false in E. cbn [snd]. unfold PyList.fdiv.
    destruct (Qeq_bool _ 0) eqn:E0.
    { apply Qeq_bool_iff in E0. rewrite E0 in E. exfalso.
      apply (Qlt_irrefl _ E). }
    eexists. split; [reflexivity |].
    apply Qle_shift_div_l; [exact E |]. rewrite Qmult_0_l.
    change 0%Q with (inject_Z 0). rewrite <- Zle_Qle. lia.
  - intros n readings Hn self.
    assert (Hrun : forall history (s : FPSCounter.t),
              avg_frames s = n ->
              times s = skipn (length history - Z.to_nat n) history ->
              times (after_updates s readings)
              = skipn (length (history ++ readings) - Z.to_nat n)
                  (history ++ readings)
              /\ avg_frames (after_updates s readings) = n).
    { induction readings as [| now readings IH]; intros history s Hs Ht.
      - rewrite app_nil_r. split; assumption.
      - change (after_updates s (now :: readings))
          with (after_updates (fst (update s now)) readings).
        destruct (update_window s now history) as [Hw Ha];
          [lia | rewrite Hs; exact Ht |].
        rewrite Hs in Hw, Ha.
        destruct (IH (history ++ [now]) _ Ha Hw) as [I1 I2].
        rewrite <- app_assoc in I1. split; assumption. }
    destruct (Hrun [] (init n) eq_refl eq_refl) as [Ht Ha].
    fold self in Ht, Ha. cbn [app] in Ht.
    split; [exact Ht |]. split; [exact Ha |].
    rewrite Ht, length_skipn. lia.
Qed.

Lemma spaced_apart (t0 d : Q) (a b : nat) :
  ((t0 + inject_Z (Z.of_nat (a + b)) * d)
   - (t0 + inject_Z (Z.of_nat a) * d)
   == inject_Z (Z.of_nat b) * d)%Q.
Proof. rewrite Nat2Z.inj_add, inject_Z_plus. ring. Qed.

Lemma steady_rate (m : nat) (d elapsed : Q) :
  (1 <= m)%nat -> (0 < d)%Q ->
  (elapsed == inject_Z (Z.of_nat m) * d)%Q ->
  (0 < elapsed)%Q
  /\ exists v, PyList.fdiv (inject_Z (Z.of_nat m)) elapsed = Some v
               /\ (v == 1 / d)%Q.
Proof.
  intros Hm Hd He.
  assert (Hmq : (0 < inject_Z (Z.of_nat m))%Q).
  { change 0%Q with (inject_Z 0). rewrite <- Zlt_Qlt. lia. }
  assert (Hpos : (0 < elapsed)%Q).
  { rewrite He. apply Qmult_lt_0_compat; assumption. }
  split; [exact Hpos |].
  unfold PyList.fdiv. destruct (Qeq_bool elapsed 0) eqn:E0.
  { apply Qeq_bool_iff in E0. rewrite E0 in Hpos. exfalso.
    apply (Qlt_irrefl _ Hpos). }
  eexists. split; [reflexivity |]. rewrite He. field.
  split; intros H; [rewrite H in Hd | rewrite H in Hmq];
    eapply Qlt_irrefl; eassumption.
Qed.

(** X26. At a steady pace the counter reports the pace: when the window
    holds readings that lie [d > 0] apart and the next reading comes [d]
    after the last, [update] returns [1 / d], whether or not the window
    is full (for a window of at least two frames). *)
Theorem fps_steady_rate (self : FPSCounter.t) (now t0 d : Q)
    (first k : nat) :
  times self = evenly_spaced t0 d first k ->
  (1 <= k)%nat ->
  Z.of_nat k <= avg_frames self ->
  2 <= avg_frames self ->
  (0 < d)%Q ->
  (now == t0 + inject_Z (Z.of_nat (first + k)) * d)%Q ->
  exists v, snd (update self now) = Some v /\ (v == 1 / d)%Q.
Proof.
  intros Htimes Hk Hfit Havg Hd Hnow.
  unfold update. cbv zeta. rewrite Htimes.
  unfold evenly_spaced. rewrite length_app, length_map, length_seq.
  cbn [length].
  assert (Hlast : forall l : list Q, List.last (l ++ [now]) 0%Q = now)
    by (intros l; apply last_last).
  destruct k as [| k]; [lia |]. cbn [seq map].
  set (rest := map (fun i => (t0 + inject_Z (Z.of_nat i) * d)%Q)
                 (seq (S first) k)).
  assert (Hrest : length rest = k)
    by (unfold rest; rewrite length_map, length_seq; reflexivity).
  destruct (Z.gtb_spec (Z.of_nat (S k + 1)) (avg_frames self)) as [Hfull | Hroom].
  - (* the window is full: the oldest reading is dropped *)
    unfold PyList.slice_from.
    destruct (Z.leb_spec 0 (- avg_frames self)) as [H | _]; [lia |].
    cbn [app length]. rewrite length_app, Hrest. cbn [length].
    replace (Z.to_nat (Z.of_nat (S (k + 1)) + - avg_frames self))
      with 1%nat by lia.
    cbn [skipn].
    destruct k as [| k]; [lia |].
    unfold rest. cbn [seq map app]. cbn [skipn]. cbn [hd length].
    rewrite length_app, length_map, length_seq. cbn [length].
    destruct (Z.ltb_spec (Z.of_nat (S (k + 1))) 2) as [H | _]; [lia |].
    change ((t0 + inject_Z (Z.of_nat (S first)) * d)%Q
            :: map (fun i => (t0 + inject_Z (Z.of_nat i) * d)%Q)
                 (seq (S (S first)) k) ++ [now])
      with (((t0 + inject_Z (Z.of_nat (S first)) * d)%Q
             :: map (fun i => (t0 + inject_Z (Z.of_nat i) * d)%Q)
                  (seq (S (S first)) k)) ++ [now]).
    rewrite Hlast.
    destruct (steady_rate (S k) d
                (now - (t0 + inject_Z (Z.of_nat (S first)) * d))%Q)
      as (Hpos & v & Hv & Hvd); [lia | exact Hd | |].
    { rewrite Hnow.
      replace (first + S (S k))%nat with (S first + S k)%nat by lia.
      apply spaced_apart. }
    assert (E : Py.Qleb (now - (t0 + inject_Z (Z.of_nat (S first)) * d)) 0
                = false) by (apply Qleb_false; exact Hpos).
    rewrite E. cbn [snd].
    replace (Z.of_nat (S (k + 1)) - 1) with (Z.of_nat (S k)) by lia.
    exists v. split; assumption.
  - (* room is left: the window grows *)
    cbn [app hd].
    change ((t0 + inject_Z (Z.of_nat first) * d)%Q :: rest ++ [now])
      with (((t0 + inject_Z (Z.of_nat first) * d)%Q :: rest) ++ [now]).
    rewrite Hlast, ?length_app. cbn [length]. rewrite ?Hrest.
    destruct (Z.ltb_spec (Z.of_nat (S k + 1)) 2) as [H | _]; [lia |].
    destruct (steady_rate (S k) d
                (now - (t0 + inject_Z (Z.of_nat first) * d))%Q)
      as (Hpos & v & Hv & Hvd); [lia | exact Hd | |].
    { rewrite Hnow. apply spaced_apart. }
    assert (E : Py.Qleb (now - (t0 + inject_Z (Z.of_nat first) * d)) 0
                = false) by (apply Qleb_false; exact Hpos).
    rewrite E. cbn [snd].
    match goal with
    | |- context [PyList.fdiv (inject_Z ?n) _] =>
        replace n with (Z.of_nat (S k)) by lia
    end.
    exists v. split; assumption.
Qed.

End FPSMore.

(** ** Loading the face database *)
Section DictLemmas.
Context {K V : Type} `{EqDecision K}.

Lemma get_set (d : list (K * V)) (k k' : K) (v : V) :
  OrderedDict.get (OrderedDict.set d k v) k'
  = if decide (k' = k) then Some v else OrderedDict.get d k'.
Proof.
  induction d as [| [k0 v0] d IH]; simpl.
  - destruct (decide (k' = k)); reflexivity.
  - destruct (decide (k = k0)) as [-> | Hne]; simpl.
    + destruct (decide (k' = k0)); reflexivity.
    + rewrite IH. destruct (decide (k' = k0)) as [-> | _]; [| reflexivity].
      destruct (decide (k0 = k)); [congruence | reflexivity].
Qed.

Lemma get_keys (d : list (K * V)) (k : K) :
  In k (OrderedDict.keys d) <-> is_Some (OrderedDict.get d k).
Proof.
  induction d as [| [k0 v0] d IH]; simpl.
  - split; [intros [] | intros [v Hv]; discriminate].
  - destruct (decide (k = k0)) as [-> | Hne].
    + split; [intros _; eexists; reflexivity | intros _; left; reflexivity].
    + rewrite <- IH. split; [| tauto].
      intros [-> | Hin]; [congruence | exact Hin].
Qed.

Lemma In_keys_set (d : list (K * V)) (k x : K) (v : V) :
  In x (OrderedDict.keys (OrderedDict.set d k v))
  <-> x = k \/ In x (OrderedDict.keys d).
Proof.
  rewrite !get_keys, get_set.
  destruct (decide (x = k)) as [-> | Hne].
  - split; [tauto | intros _; eexists; reflexivity].
  - tauto.
Qed.

Lemma keys_set_NoDup (d : list (K * V)) (k : K) (v : V) :
  NoDup (OrderedDict.keys d) -> NoDup (OrderedDict.keys (OrderedDict.set d k v)).
Proof.
  induction d as [| [k0 v0] d IH]; intros Hnd; simpl.
  - apply NoDup_singleton.
  - change (NoDup (k0 :: OrderedDict.keys d)) in Hnd.
    apply NoDup_cons in Hnd as [Hk0 Hnd].
    destruct (decide (k = k0)) as [-> | Hne].
    + change (NoDup (k0 :: OrderedDict.keys d)).
      apply NoDup_cons. split; assumption.
    + change (NoDup (k0 :: OrderedDict.keys (OrderedDict.set d k v))).
      apply NoDup_cons. split; [| apply IH, Hnd].
      intros Hin. apply list_elem_of_In, In_keys_set in Hin.
      destruct Hin as [-> | Hin]; [congruence |].
      apply Hk0, list_elem_of_In, Hin.
Qed.

Lemma get_In (d : list (K * V)) (k : K) (v : V) :
  NoDup (OrderedDict.keys d) ->
  In (k, v) d <-> OrderedDict.get d k = Some v.
Proof.
  induction d as [| [k0 v0] d IH]; intros Hnd; simpl.
  - split; [intros [] | discriminate].
  - change (NoDup (k0 :: OrderedDict.keys d)) in Hnd.
    apply NoDup_cons in Hnd as [Hk0 Hnd].
    destruct (decide (k = k0)) as [-> | Hne].
    + split.
      * intros [[= ->] | Hin]; [reflexivity |].
        exfalso. apply Hk0, list_elem_of_In, in_map_iff.
        exists (k0, v). split; [reflexivity | exact Hin].
      * intros [= ->]. left. reflexivity.
    + rewrite <- (IH Hnd). split; [| tauto].
      intros [[= -> ->] | Hin]; [congruence | exact Hin].
Qed.

End DictLemmas.

Section DatabaseMore.
Import Recognizer Ranking Database DatabaseRows.
Context {Image FaceData Emb Blob : Type}.
Variable sface_feature : Image -> option FaceData -> option Emb.
Variable sface_match : Emb -> Emb -> Q.
Variable frombuffer : Blob -> option Emb.

Local Abbreviation refs_of := (references_of frombuffer).
Local Abbreviation all_scores := (_compute_all_scores sface_match).
Local Abbreviation score := (best_score_for_student sface_match).
Local Abbreviation load :=
  (RecognizerApi.load_database (Emb := Emb) frombuffer).

(** The grouping loop from any dictionary on. *)
Lemma group_rows_spec (rows : list (string * Blob)) :
  (forall row, In row rows -> is_Some (frombuffer (snd row))) ->
  forall acc : list (string * list Emb),
    NoDup (OrderedDict.keys acc) ->
    exists embs,
      group_rows frombuffer acc rows = Some embs
      /\ NoDup (OrderedDict.keys embs)
      /\ (forall s_id,
            OrderedDict.get embs s_id
            = match OrderedDict.get acc s_id, refs_of s_id rows with
              | Some a, refs => Some (a ++ refs)
              | None, [] => None
              | None, refs => Some refs
              end).
Proof.
  induction rows as [| [s blob] rows IH]; intros Hdec acc Hnd.
  - exists acc. split; [reflexivity |]. split; [exact Hnd |].
    intros s_id. cbn. destruct (OrderedDict.get acc s_id);
      [rewrite app_nil_r |]; reflexivity.
  - destruct (Hdec (s, blob) (or_introl eq_refl)) as [e He]. cbn [snd] in He.
    cbn [group_rows]. rewrite He.
    set (acc1 := match OrderedDict.get acc s with
                 | None => OrderedDict.set acc s []
                 | Some _ => acc
                 end).
    assert (Hnd1 : NoDup (OrderedDict.keys acc1)).
    { unfold acc1. destruct (OrderedDict.get acc s);
        [exact Hnd | apply keys_set_NoDup, Hnd]. }
    assert (Hget1 : forall s_id,
              OrderedDict.get acc1 s_id
              = if decide (s_id = s)
                then Some (default [] (OrderedDict.get acc s))
                else OrderedDict.get acc s_id).
    { intros s_id. unfold acc1.
      destruct (OrderedDict.get acc s) as [a |] eqn:Hs.
      - destruct (decide (s_id = s)) as [-> | _]; [exact Hs | reflexivity].
      - rewrite get_set. reflexivity. }
    destruct (IH (fun row Hin => Hdec row (or_intror Hin))
                (OrderedDict.set acc1 s
                   (default [] (OrderedDict.get acc1 s) ++ [e]))
                (keys_set_NoDup _ _ _ Hnd1))
      as (embs & Hrun & Hnd' & Hget).
    exists embs. split; [exact Hrun |]. split; [exact Hnd' |].
    intros s_id. rewrite Hget, get_set, !Hget1.
    unfold references_of. cbn [omap list_omap fst snd].
    destruct (decide (s = s)) as [_ | Hne]; [| congruence].
    destruct (decide (s_id = s)) as [-> | Hne].
    + destruct (decide (s = s)) as [_ | Hne]; [| congruence].
      rewrite He. cbn [default from_option id].
      destruct (OrderedDict.get acc s) as [a |]; cbn [default from_option id];
        [rewrite <- app_assoc |]; reflexivity.
    + destruct (decide (s = s_id)) as [Heq | _]; [congruence |].
      reflexivity.
Qed.

(** X27. When every blob holds an embedding, [get_all_embeddings] returns
    one entry for every student that has a row and none for any other:
    the keys are distinct, and a student's list holds the embeddings of
    the student's rows, in the order of the rows, so no list is empty.
    A blob that does not hold an embedding makes the call raise. *)
Theorem embeddings_grouped_by_student (rows : list (string * Blob)) :
  ((forall row, In row rows -> is_Some (frombuffer (snd row))) ->
   exists embs,
     get_all_embeddings frombuffer rows = Some embs
     /\ NoDup (OrderedDict.keys embs)
     /\ (forall s_id, In s_id (OrderedDict.keys embs) <->
                      In s_id (map fst rows))
     /\ (forall s_id refs,
           In (s_id, refs) embs <->
           refs <> [] /\ refs = refs_of s_id rows))
  /\ ((exists row, In row rows /\ frombuffer (snd row) = None) ->
      get_all_embeddings frombuffer rows = None).
Proof.
  split.
  - intros Hdec.
    destruct (group_rows_spec rows Hdec [] (NoDup_nil_2 (A := string)))
      as (embs & Hrun & Hnd & Hget).
    cbn [OrderedDict.get] in Hget.
    exists embs. split; [exact Hrun |]. split; [exact Hnd |].
    assert (Hrefs : forall s_id,
              refs_of s_id rows <> [] <-> In s_id (map fst rows)).
    { intros s_id. clear -Hdec. induction rows as [| [s blob] rows IH].
      - cbn. tauto.
      - unfold references_of in *. cbn [omap list_omap map fst snd In].
        destruct (decide (s = s_id)) as [-> | Hne].
        + destruct (Hdec (s_id, blob) (or_introl eq_refl)) as [e He].
          cbn [snd] in He. rewrite He. split; [tauto | discriminate].
        + rewrite IH by (intros row Hin; apply Hdec; right; exact Hin).
          tauto. }
    split.
    + intros s_id. rewrite get_keys, Hget, <- Hrefs.
      destruct (refs_of s_id rows); split;
        try (intros [? ?]; discriminate); try congruence;
        intros _; eexists; reflexivity.
    + intros s_id refs. rewrite (get_In _ _ _ Hnd), Hget.
      destruct (refs_of s_id rows) as [| e l]; split;
        try discriminate; try (intros [? ?]; congruence).
      intros [= <-]. split; [discriminate | reflexivity].
  - intros ([s blob] & Hin & Hnone). cbn [snd] in Hnone.
    unfold get_all_embeddings. generalize (@nil (string * list Emb)).
    induction rows as [| [s0 blob0] rows IH]; intros acc; [destruct Hin |].
    cbn [group_rows]. destruct Hin as [[= -> ->] | Hin].
    + rewrite Hnone. reflexivity.
    + destruct (frombuffer blob0); [apply IH, Hin | reflexivity].
Qed.

Lemma student_map_skips (s_id : string) (rows : list (string * string)) :
  ~ In s_id (map fst rows) ->
  forall acc : gmap string Info,
    fold_left
      (fun student_map '(s, name) =>
         <[s := {["name"%string := name; "id"%string := s]}]> student_map)
      rows acc !! s_id
    = acc !! s_id.
Proof.
  induction rows as [| [s n] rows IH]; intros Hout acc; [reflexivity |].
  cbn [fold_left]. rewrite IH by (intros Hin; apply Hout; right; exact Hin).
  apply lookup_insert_ne. intros ->. apply Hout. left. reflexivity.
Qed.

Lemma student_map_entry (s_id name : string) (rows : list (string * string)) :
  NoDup (map fst rows) ->
  In (s_id, name) rows ->
  get_student_map rows !! s_id
  = Some {["name"%string := name; "id"%string := s_id]}.
Proof.
  unfold get_student_map. generalize (∅ : gmap string Info).
  induction rows as [| [s n] rows IH]; intros acc Hnd Hin; [destruct Hin |].
  cbn [map fst] in Hnd. apply NoDup_cons in Hnd as [Hs Hnd].
  cbn [fold_left]. destruct Hin as [[= -> ->] | Hin].
  - rewrite student_map_skips
      by (intros Hin; apply Hs, list_elem_of_In, Hin).
    apply lookup_insert_eq.
  - apply IH; assumption.
Qed.

(** X28. After [load_database] has read tables whose blobs all hold an
    embedding, the ranking of a probe has exactly one entry for every
    student with an embedding row; the entry's score is the best
    similarity over the embeddings of the student's rows, and with
    distinct ids in the students table it shows the name stored for the
    student.  When only the students query fails, the new embeddings are
    in place with the old student map.  Without the model, without
    tables, or with a blob that holds no embedding, [load_database]
    leaves the recognizer as it was. *)
Theorem loaded_database_ranks_each_student (self : Recognizer.t (Emb := Emb))
    (embedding_rows : list (string * Blob))
    (student_rows : list (string * string)) (target : Emb) :
  (recognizer self = true ->
   (forall row, In row embedding_rows -> is_Some (frombuffer (snd row))) ->
   let self' := load self (Some (embedding_rows, Some student_rows)) in
   recognizer self' = true
   /\ NoDup (map id_of (all_scores self' (Some target)))
   /\ (forall s_id, In s_id (map id_of (all_scores self' (Some target)))
                    <-> In s_id (map fst embedding_rows))
   /\ (forall e, In e (all_scores self' (Some target)) ->
         refs_of (id_of e) embedding_rows <> []
         /\ score_of e = score target (refs_of (id_of e) embedding_rows)
         /\ (forall r, In r (refs_of (id_of e) embedding_rows) ->
                       (sface_match target r <= score_of e)%Q)
         /\ (forall name,
               NoDup (map fst student_rows) ->
               In (id_of e, name) student_rows ->
               snd e !! "name"%string = Some name))
   /\ embeddings (load self (Some (embedding_rows, None))) = embeddings self'
   /\ student_map (load self (Some (embedding_rows, None)))
      = student_map self)
  /\ (forall students,
        recognizer self = false
        \/ (exists row, In row embedding_rows /\ frombuffer (snd row) = None) ->
        load self (Some (embedding_rows, students)) = self)
  /\ load self None = self.
Proof.
  split; [| split].
  - intros Hrec Hdec self'.
    destruct (group_rows_spec embedding_rows Hdec [] (NoDup_nil_2 (A := string)))
      as (embs & Hrun & Hnd & Hget).
    cbn [OrderedDict.get] in Hget.
    assert (Hself : self' = {| recognizer := true; embeddings := embs;
                               student_map := get_student_map student_rows |}).
    { unfold self', RecognizerApi.load_database, get_all_embeddings.
      rewrite Hrec, Hrun. reflexivity. }
    assert (Hids : map id_of (all_scores self' (Some target))
                   ≡ₚ OrderedDict.keys embs).
    { rewrite Hself. unfold _compute_all_scores. cbn [embeddings student_map].
      rewrite sort_desc_Permutation, map_map.
      unfold OrderedDict.keys. erewrite map_ext; [reflexivity |].
      intros [sid refs]. reflexivity. }
    assert (Hrefs : forall s_id,
              refs_of s_id embedding_rows <> []
              <-> In s_id (map fst embedding_rows)).
    { intros s_id. clear -Hdec.
      induction embedding_rows as [| [s blob] rows IH].
      - cbn. tauto.
      - unfold references_of in *. cbn [omap list_omap map fst snd In].
        destruct (decide (s = s_id)) as [-> | Hne].
        + destruct (Hdec (s_id, blob) (or_introl eq_refl)) as [e He].
          cbn [snd] in He. rewrite He. split; [tauto | discriminate].
        + rewrite IH by (intros row Hin; apply Hdec; right; exact Hin).
          tauto. }
    split; [rewrite Hself; reflexivity |].
    split; [rewrite Hids; exact Hnd |].
    split; [| split].
    + intros s_id.
      assert (Hiff : In s_id (map id_of (all_scores self' (Some target)))
                     <-> In s_id (OrderedDict.keys embs))
        by (rewrite <- !list_elem_of_In, Hids; reflexivity).
      rewrite Hiff, get_keys, Hget, <- Hrefs.
      destruct (refs_of s_id embedding_rows); split;
        try (intros [? ?]; discriminate); try congruence;
        intros _; eexists; reflexivity.
    + intros e He. apply (all_scores_In sface_match) in He
        as (refs & Hin & Heq).
      rewrite Hself in Hin, Heq. cbn [embeddings student_map] in Hin, Heq.
      apply (get_In _ _ _ Hnd) in Hin. rewrite Hget in Hin.
      destruct (refs_of (id_of e) embedding_rows) as [| r0 l] eqn:Hr;
        [discriminate |].
      injection Hin as <-.
      split; [discriminate |].
      assert (Hscore : score_of e = score target (r0 :: l))
        by (rewrite Heq at 1; reflexivity).
      split; [exact Hscore |]. split.
      * intros r Hr'. rewrite Hscore.
        destruct (best_score_max sface_match target (r0 :: l))
          as (_ & Hmax & _).
        apply Hmax, Hr'.
      * intros name Hnd' Hname. rewrite Heq. cbn [snd].
        rewrite (student_map_entry _ _ _ Hnd' Hname). cbn [default].
        reflexivity.
    + rewrite Hself. unfold RecognizerApi.load_database, get_all_embeddings.
      rewrite Hrec, Hrun. split; reflexivity.
  - intros students [Hrec | ([s blob] & Hin & Hnone)];
      unfold RecognizerApi.load_database.
    + rewrite Hrec. reflexivity.
    + destruct (recognizer self); [| reflexivity]. cbn [negb].
      replace (get_all_embeddings frombuffer embedding_rows) with
        (@None (list (string * list Emb))); [reflexivity |].
      symmetry. cbn [snd] in Hnone.
      unfold get_all_embeddings. generalize (@nil (string * list Emb)).
      induction embedding_rows as [| [s0 blob0] rows IH]; intros acc;
        [destruct Hin |].
      cbn [group_rows]. destruct Hin as [[= -> ->] | Hin].
      * rewrite Hnone. reflexivity.
      * destruct (frombuffer blob0); [apply IH, Hin | reflexivity].
  - unfold RecognizerApi.load_database. destruct (negb _); reflexivity.
Qed.

End DatabaseMore.

(** ** Worked examples *)
Section WorkedMore.
Import Detector FrameTracker Scripted.

Local Abbreviation clock0 :=
  {| AttendanceManager.time_time := 1762000000;
     AttendanceManager.clock_hms := "09:00:00";
     AttendanceManager.clock_date := "2026-11-03" |}.

(** A request for the best match of a frontal face: S1 at 0.9. *)
Lemma top_matches_are_best_qualified_witness :
  Recognizer.get_top_matches Classroom.feature Classroom.similarity
    Classroom.enrolled (portrait 50) None 1
  = firstn 1
      (List.filter
         (fun entry =>
            Py.Qleb Recognizer.MIN_CONFIDENCE (Recognizer.score_of entry))
         (Recognizer._compute_all_scores Classroom.similarity
            Classroom.enrolled (Some 1%Q))).
Proof.
  apply (top_matches_are_best_qualified Classroom.feature
           Classroom.similarity);
    [reflexivity | reflexivity | lia].
Defined.

Lemma top_match_is_classified_witness :
  exists rest,
    Recognizer.get_top_matches Classroom.feature Classroom.similarity
      Classroom.enrolled (portrait 50) None 2
    = ("S1"%string, 0.9%Q, Classroom.ada) :: rest.
Proof.
  apply (top_match_is_classified Classroom.feature Classroom.similarity
           Classroom.enrolled (portrait 50) None "S1" Recognizer.RECOGNIZED
           0.9%Q Classroom.ada 2);
    [vm_compute; reflexivity | lia].
Defined.

(** S1 is marked at nine o'clock and asks again 100 seconds later. *)
Lemma decision_agrees_with_mark_witness :
  AttendanceManager.action
    (AttendanceManager.should_mark_attendance fresh_manager 1762000000 0.9
       (Py.Str "S1")) = AttendanceManager.AUTO_MARK
  /\ snd (AttendanceManager.mark_attendance fresh_manager clock0 true
            (Py.Str "S1") "Ada" 0.9 "face_recognition")
     = (true, AttendanceManager.Marked_Present).
Proof.
  destruct (decision_agrees_with_mark fresh_manager clock0 true (Py.Str "S1")
              "Ada" 0.9 "face_recognition" eq_refl) as (_ & _ & Hauto).
  assert (Hact : AttendanceManager.action
                   (AttendanceManager.should_mark_attendance fresh_manager
                      1762000000 0.9 (Py.Str "S1"))
                 = AttendanceManager.AUTO_MARK) by (vm_compute; reflexivity).
  split; [exact Hact |].
  destruct (Hauto Hact) as [H | H]; [exact H |].
  vm_compute in H. discriminate.
Defined.

Lemma marked_student_waits_witness :
  AttendanceManager.action
    (AttendanceManager.should_mark_attendance
       (fst (AttendanceManager.mark fresh_manager (call_at 1762000000 true)))
       1762000100 0.9 (Py.Str "S1"))
  = AttendanceManager.COOLDOWN.
Proof.
  apply (marked_student_waits fresh_manager (call_at 1762000000 true)
           1762000100 0.9);
    [reflexivity | reflexivity | vm_compute; reflexivity].
Defined.

(** A manager started after S1 was marked at 09:00:00. *)
Lemma init_seeds_cooldown_witness :
  let rec := {| AttendanceManager.rec_id := Py.Str "S1";
                AttendanceManager.rec_name := "Ada";
                AttendanceManager.rec_time := "09:00:00";
                AttendanceManager.rec_status := "Present";
                AttendanceManager.rec_confidence :=
                  AttendanceManager.Number 0.9;
                AttendanceManager.rec_marked_by := "face_recognition" |} in
  AttendanceManager.last_marked
    (AttendanceManager.init 900 (Some []) [(rec, Some 1762000000%Q)])
  !! Py.Str "S1" = Some 1762000000%Q.
Proof.
  intros rec.
  apply (init_seeds_cooldown 900 [] [] rec 1762000000 []).
  intros r stamp [].
Defined.

Lemma confidence_stats_bounds_witness :
  exists stats,
    AttendanceReports.get_confidence_stats
      AttendanceReports.float_of_confidence
      (fst (AttendanceManager.mark fresh_manager (call_at 1762000000 true)))
    = Some stats.
Proof.
  destruct (confidence_stats_bounds
              AttendanceReports.float_of_confidence
              (fst (AttendanceManager.mark fresh_manager
                      (call_at 1762000000 true))))
    as (stats & Hstats & _).
  - intros r _. unfold AttendanceReports.float_of_confidence.
    destruct (AttendanceManager.rec_confidence r); eexists; reflexivity.
  - exists stats. exact Hstats.
Defined.

(** The first frame of a session for S1. *)
Lemma capture_exactly_when_capturable_witness :
  let m0 := CaptureManager.start_session capture0 "S1" in
  let m1 := fst (capture_frame m0 (portrait 50) 1762000000) in
  CaptureManager.current_idx m1 = CaptureManager.current_idx m0
  \/ CaptureManager.current_idx m1 = S (CaptureManager.current_idx m0).
Proof.
  intros m0 m1.
  apply (capture_exactly_when_capturable seen shape roi_size laplacian_var
           mean_brightness save_image generate_embedding m0 (portrait 50)
           1762000000 "front");
    reflexivity.
Defined.

(** One face in view of a fresh tracker. *)
Lemma detection_pass_tracks_detections_witness :
  length (tracked_faces (Scripted.run_detection tracker0 (portrait 50)))
  = length (seen (portrait 50)).
Proof.
  apply (detection_pass_tracks_detections seen tracker_init Scripted.shape
           Scripted.crop Scripted.size Scripted.sface_feature
           tracker0 (portrait 50)).
  split; [constructor | intros id []].
Defined.

(** The tracker of the scripted class after its first frame: S1 is in
    view and recognised. *)
Lemma after_first_reachable :
  Runs.reachable seen Scripted.shape Scripted.crop Scripted.size tracker_init
    tracker_update Classroom.feature Classroom.similarity
    Classroom.after_first.
Proof.
  eapply Runs.reachable_step with (self := Classroom.tracker)
                                  (frame := portrait 50).
  - apply Runs.reachable_init.
  - vm_compute. reflexivity.
Defined.

Lemma live_tracks_are_settled_witness :
  ids_below_next Classroom.after_first.
Proof.
  apply (live_tracks_are_settled seen tracker_init tracker_update
           Scripted.shape Scripted.crop Scripted.size Classroom.feature
           Classroom.similarity Classroom.after_first after_first_reachable).
Defined.

Lemma process_frame_reports_live_tracks_witness :
  Classroom.process_frame Classroom.after_first (portrait 50) = None
  <-> detection_interval Classroom.after_first = 0
      \/ recognition_interval Classroom.after_first = 0.
Proof.
  apply (process_frame_reports_live_tracks seen tracker_init tracker_update
           Scripted.shape Scripted.crop Scripted.size Classroom.feature
           Classroom.similarity Classroom.after_first (portrait 50)
           after_first_reachable).
Defined.

Lemma tracking_pass_keeps_found_witness :
  exists tr',
    In (0, tr')
      (tracked_faces
         (_run_tracking tracker_update Classroom.after_first (portrait 50))).
Proof.
  assert (Hnd : NoDup (OrderedDict.keys (tracked_faces Classroom.after_first)))
    by (vm_compute; apply NoDup_singleton).
  destruct (tracking_pass_keeps_found tracker_update Classroom.after_first
              (portrait 50) Hnd) as [Hkept _].
  eexists. apply Hkept. split; [vm_compute; reflexivity |].
  eexists _, (10, 10, 100, 100), (10, 10, 100, 100), 10%Q, 10%Q, 100%Q, 100%Q.
  split; [vm_compute; left; reflexivity |].
  split; [reflexivity |]. split; reflexivity.
Defined.

Lemma detection_frame_shows_each_face_witness :
  match Classroom.process_frame Classroom.tracker (portrait 50) with
  | Some (_, out) => length out = length (seen (portrait 50))
  | None => False
  end.
Proof.
  destruct (Classroom.process_frame Classroom.tracker (portrait 50))
    as [[self' out] |] eqn:Hproc; [| vm_compute in Hproc; discriminate].
  apply (detection_frame_shows_each_face seen tracker_init tracker_update
           Scripted.shape Scripted.crop Scripted.size Classroom.feature
           Classroom.similarity Classroom.tracker self' (portrait 50) out).
  - split; [constructor | intros id []].
  - exact Hproc.
  - reflexivity.
Defined.

(** The second frame of the scripted class is a tracking frame. *)
Lemma tracking_frame_shows_cached_results_witness :
  match Classroom.process_frame Classroom.after_first (portrait 50) with
  | Some (_, out) => Forall (fun o => out_is_tracked o = true) out
  | None => False
  end.
Proof.
  destruct (Classroom.process_frame Classroom.after_first (portrait 50))
    as [[self' out] |] eqn:Hproc; [| vm_compute in Hproc; discriminate].
  apply Forall_forall. intros o Hin. apply list_elem_of_In in Hin.
  apply (tracking_frame_shows_cached_results seen tracker_init tracker_update
           Scripted.shape Scripted.crop Scripted.size Classroom.feature
           Classroom.similarity Classroom.after_first self' (portrait 50) out).
  - split; [vm_compute; apply NoDup_singleton |].
    intros id Hid. vm_compute in Hid. destruct Hid as [<- | []].
    vm_compute. reflexivity.
  - exact Hproc.
  - vm_compute. reflexivity.
  - vm_compute. discriminate.
  - exact Hin.
Defined.

Lemma view_marks_recognized_only_witness :
  match Classroom.process_frame Classroom.tracker (portrait 50) with
  | Some (_, out) =>
      exists new,
        AttendanceManager.today_log
          (AttendanceView.mark_results fresh_manager
             (Classroom.with_clock out))
        = AttendanceManager.today_log fresh_manager ++ new
        /\ (length new <= length out)%nat
  | None => False
  end.
Proof.
  destruct (Classroom.process_frame Classroom.tracker (portrait 50))
    as [[self' out] |] eqn:Hproc; [| vm_compute in Hproc; discriminate].
  destruct (view_marks_recognized_only seen tracker_init tracker_update
              Scripted.shape Scripted.crop Scripted.size Classroom.feature
              Classroom.similarity Classroom.tracker self' (portrait 50) out
              (Classroom.with_clock out) fresh_manager)
    as (new & Hlog & Hlen & _).
  - apply Runs.reachable_init.
  - exact Hproc.
  - unfold Classroom.with_clock. rewrite map_map. apply map_id.
  - exists new. split; assumption.
Defined.

(** A template tracker on a 100 by 100 box of a 640 by 480 frame; the
    template is found three pixels to the right of the corner of the
    search window, two pixels below it. *)
Lemma template_update_keeps_size_witness :
  exists self' ok x' y',
    TemplateTracker.update Scripted.shape
      (fun _ _ => Some (0.9%Q, (3, 2)))
      {| TemplateTracker.template := Some (portrait 50, (10, 10, 100, 100));
         TemplateTracker.bbox := Some (10, 10, 100, 100) |}
      (portrait 50)
    = Some (self', (ok, Some (x', y', 100, 100))).
Proof.
  destruct (template_update_keeps_size Scripted.shape
              (fun _ _ => Some (0.9%Q, (3, 2)))
              {| TemplateTracker.template :=
                   Some (portrait 50, (10, 10, 100, 100));
                 TemplateTracker.bbox := Some (10, 10, 100, 100) |}
              (portrait 50) 10 10 100 100 eq_refl)
    as (self' & ok & x' & y' & Hupd & _).
  exists self', ok, x', y'. exact Hupd.
Defined.

(** Thirty frames a second. *)
Lemma fps_steady_rate_witness :
  exists v,
    snd (FPSCounter.update
           {| FPSCounter.times := FPSCounter.evenly_spaced 100 (1 # 30) 0 2;
              FPSCounter.avg_frames := 30 |}
           (100 + inject_Z (Z.of_nat (0 + 2)) * (1 # 30))%Q)
    = Some v
    /\ (v == 1 / (1 # 30))%Q.
Proof.
  apply (fps_steady_rate
           {| FPSCounter.times := FPSCounter.evenly_spaced 100 (1 # 30) 0 2;
              FPSCounter.avg_frames := 30 |}
           (100 + inject_Z (Z.of_nat (0 + 2)) * (1 # 30))%Q
           100 (1 # 30) 0 2);
    [reflexivity | lia | cbn; lia | cbn; lia | reflexivity | reflexivity].
Defined.

Lemma fps_window_holds_last_readings_witness :
  FPSCounter.times
    (FPSCounter.after_updates (FPSCounter.init 2) [1; 2; 3; 4]%Q)
  = [3; 4]%Q.
Proof.
  apply (proj2 fps_window_holds_last_readings 2 [1; 2; 3; 4]%Q). lia.
Defined.

Lemma compute_iou_symmetric_witness :
  exists v, _compute_iou (0, 0, 10, 10) (0, 0, 10, 10) = Some v /\ (v == 1)%Q.
Proof.
  apply (proj1 (proj2 compute_iou_symmetric) 0 0 10 10);
    [unfold Geometry.within_32_bits; lia | lia | lia].
Defined.

(** The tables of the scripted class. *)
Lemma embeddings_grouped_by_student_witness :
  exists embs,
    Database.get_all_embeddings Classroom.frombuffer Classroom.embedding_rows
    = Some embs
    /\ NoDup (OrderedDict.keys embs).
Proof.
  destruct (proj1 (embeddings_grouped_by_student Classroom.frombuffer
                     Classroom.embedding_rows))
    as (embs & Hrun & Hnd & _).
  - intros row _. eexists. reflexivity.
  - exists embs. split; assumption.
Defined.

Lemma loaded_database_ranks_each_student_witness :
  NoDup
    (map Recognizer.id_of
       (Recognizer._compute_all_scores Classroom.similarity
          (RecognizerApi.load_database Classroom.frombuffer Classroom.enrolled
             (Some (Classroom.embedding_rows, Some Classroom.student_rows)))
          (Some 1%Q))).
Proof.
  destruct (proj1 (loaded_database_ranks_each_student Classroom.similarity
                     Classroom.frombuffer Classroom.enrolled
                     Classroom.embedding_rows Classroom.student_rows 1%Q)
              eq_refl)
    as (_ & Hnd & _).
  - intros row _. eexists. reflexivity.
  - exact Hnd.
Defined.

End WorkedMore.
